(** * make_deploy_commit: a shallow embedding and its properties

    The script [make_deploy_commit.py] cuts a deploy branch for one pull
    request: it syncs the main line, locates the merge commit of the pull
    request among the latest commits, checks that the commit only touched
    files of one DAG directory, records the commit hash in the deploy
    manifest and commits and pushes the result.

    Python values are embedded as follows.
    - A [str] is a list of Unicode code points ([pystr]).
    - An [int] is a [Z].
    - A loaded JSON document is a tree ([json]); a [dict] is an association
      list in insertion order.
    - What the script does to its surroundings (backend calls, prompts,
      log records, reads and writes of the manifest) is recorded, in order,
      as a list of events in a [World] that a state and exception monad
      ([M]) threads through the run.
    - What the surroundings answer (whether a backend call fails, the
      history, the files of a commit, the manifest on disk) is a parameter
      ([Env]).

    Left out: a manifest that is not valid JSON, failures of [os.remove] and
    of writing the manifest, and runs of Python with assertions switched
    off. *)

From Stdlib Require Import String Ascii Decimal ZArith NArith Bool Lia List.
From Stdlib Require Import SpecFloat DecimalZ.
From Equations Require Import Equations.
Import ListNotations.

(** ** Strings *)

Definition pystr := list N.

(** An ASCII literal as a Python string. *)
Definition py (s : string) : pystr :=
  map N_of_ascii (list_ascii_of_string s).

Fixpoint pystr_eqb (a b : pystr) : bool :=
  match a, b with
  | [], [] => true
  | x :: a', y :: b' => N.eqb x y && pystr_eqb a' b'
  | _, _ => false
  end.

Fixpoint uint_cps (d : Decimal.uint) : pystr :=
  match d with
  | Nil => []
  | D0 d => 48%N :: uint_cps d
  | D1 d => 49%N :: uint_cps d
  | D2 d => 50%N :: uint_cps d
  | D3 d => 51%N :: uint_cps d
  | D4 d => 52%N :: uint_cps d
  | D5 d => 53%N :: uint_cps d
  | D6 d => 54%N :: uint_cps d
  | D7 d => 55%N :: uint_cps d
  | D8 d => 56%N :: uint_cps d
  | D9 d => 57%N :: uint_cps d
  end.

(** [str(n)] for an [int]: the decimal digits, after a minus sign when
    [n] is negative. *)
Definition str_int (n : Z) : pystr :=
  match Z.to_int n with
  | Decimal.Pos d => uint_cps d
  | Decimal.Neg d => 45%N :: uint_cps d
  end.

(** [s.startswith(p)] *)
Fixpoint startswith (s p : pystr) {struct p} : bool :=
  match p, s with
  | [], _ => true
  | x :: p', y :: s' => N.eqb x y && startswith s' p'
  | _ :: _, [] => false
  end.

(** [s.split(sep)] for a one-character separator: the pieces between the
    separators, always at least one piece. *)
Fixpoint split_on (sep : N) (s : pystr) : list pystr :=
  match s with
  | [] => [[]]
  | c :: s' =>
      if N.eqb c sep then [] :: split_on sep s'
      else match split_on sep s' with
           | piece :: pieces => (c :: piece) :: pieces
           | [] => [[c]]
           end
  end.

(** [os.path.join(a, b)] for a relative [b]. *)
Definition path_join (a b : pystr) : pystr :=
  match rev a with
  | [] => b
  | last :: _ => if N.eqb last 47 then a ++ b else a ++ 47%N :: b
  end.

(** ** Values the script handles *)

(** A commit as the backend hands it out: [commit.hexsha],
    [commit.summary] and [commit.author.name]. *)
Record Commit := {
  hexsha : pystr;
  summary : pystr;
  author : pystr
}.

(** The parsed arguments. *)
Record Args := {
  pr_id : Z;
  pr_author : pystr;
  pr_deploy_scope : pystr;
  pr_dag_name : pystr;
  repo_path : pystr
}.

(** A document as [json.load] returns it.  A [dict] keeps its keys in
    insertion order; a Python float is an IEEE 754 double. *)
#[warnings="-register-all"]
Inductive json : Type :=
| JNull
| JBool (b : bool)
| JInt (n : Z)
| JFloat (x : spec_float)
| JString (s : pystr)
| JArray (items : list json)
| JObject (members : list (pystr * json)).

Inductive exn : Type :=
| AssertionError (msg : pystr)
| KeyError (key : pystr)
| TypeError
| EOFError
| FileNotFoundError
| InvalidGitRepositoryError
| AttributeError
| OSError
| GitCommandError.

Inductive result (A : Type) : Type :=
| Ok (a : A)
| Raise (e : exn).
Arguments Ok {A} a.
Arguments Raise {A} e.

(** [d[k]] looks a key up from the front of the dictionary, [d[k] = v]
    overwrites it where it stands or appends it.  ([json.load] leaves each
    key once; on other lists both act on the first occurrence.) *)
Fixpoint dict_get (k : pystr) (d : list (pystr * json)) : option json :=
  match d with
  | [] => None
  | (k', v) :: d' => if pystr_eqb k' k then Some v else dict_get k d'
  end.

Fixpoint dict_set (k : pystr) (v : json) (d : list (pystr * json))
  : list (pystr * json) :=
  match d with
  | [] => [(k, v)]
  | (k', v') :: d' =>
      if pystr_eqb k' k then (k', v) :: d' else (k', v') :: dict_set k v d'
  end.

(** Subscription with a string key: only a [dict] supports it. *)
Definition getitem (x : json) (k : pystr) : result json :=
  match x with
  | JObject d =>
      match dict_get k d with
      | Some v => Ok v
      | None => Raise (KeyError k)
      end
  | _ => Raise TypeError
  end.

Definition setitem (x : json) (k : pystr) (v : json) : result json :=
  match x with
  | JObject d => Ok (JObject (dict_set k v d))
  | _ => Raise TypeError
  end.

Definition bind_result {A B : Type} (r : result A) (k : A -> result B)
  : result B :=
  match r with
  | Ok a => k a
  | Raise e => Raise e
  end.

(** [data['version']['dags'][dag_name] = commit_hash] (line 112).  The inner
    dictionaries are objects shared with [data], so the assignment shows in
    [data]: here the changed dictionary is put back where it was found. *)
Definition set_dag_version (data : json) (dag_name commit_hash : pystr)
  : result json :=
  bind_result (getitem data (py "version")) (fun version =>
  bind_result (getitem version (py "dags")) (fun dags =>
  bind_result (setitem dags dag_name (JString commit_hash)) (fun dags' =>
  bind_result (setitem version (py "dags") dags') (fun version' =>
  setitem data (py "version") version')))).

(** ** The world around the script *)

(** Calls to the version-control backend, one for each call the script
    makes: [git.Repo(path)], [repo.git.checkout(branch)], the lookup
    [repo.remotes.origin] and the [pull()] on it (line 95 makes both, in this
    order), [repo.iter_commits(rev, max_count)], [repo.commit(sha).stats],
    [repo.create_head(name)] (whose [checkout()] is a [GitCheckout]),
    [repo.git.add(path)], [repo.git.commit('-m', subject, '-m', body)] and
    [repo.git.push(remote, branch)]. *)
Inductive git_op : Type :=
| GitRepo (path : pystr)
| GitCheckout (branch : pystr)
| GitRemote (name : pystr)
| GitPull
| GitIterCommits (rev : pystr) (max_count : nat)
| GitStats (sha : pystr)
| GitCreateHead (name : pystr)
| GitAdd (path : pystr)
| GitCommit (subject body : pystr)
| GitPush (remote branch : pystr).

Inductive level : Type := INFO | ERROR.

(** The records the script logs, by the line that logs them. *)
Inductive log_record : Type :=
| LogArgs (args : Args)
| LogUserAborted
| LogCreatedBranch (branch : pystr)
| LogUpdated (path commit_hash dag_name : pystr)
| LogCommitted
| LogPushed (branch : pystr).

(** Everything the script does to its surroundings, in the order it does
    it.  A backend call is recorded with whether it returned. *)
Inductive event : Type :=
| Log (lvl : level) (record : log_record)
| IsFile (path : pystr) (found : bool)
| Git (op : git_op) (returned : bool)
| Input (prompt : pystr) (response : option pystr)
| Print (line : pystr)
| ReadFile (path : pystr) (content : option json)
| RemoveFile (path : pystr)
| WriteFile (path : pystr) (data : json).

(** The surroundings decide what the script cannot: whether a backend call
    fails, what the history and the commits hold, and what is on disk when
    the script looks.  They may depend on everything that happened before. *)
Record Env := {
  git_fails : list event -> git_op -> bool;
  rev_list : pystr -> list Commit;
  stats_files : pystr -> list pystr;
  file_exists : list event -> pystr -> bool;
  file_json : list event -> pystr -> option json
}.

(** The state threaded through a run: the lines the operator has yet to
    type, and the events so far, oldest first. *)
Record World := {
  stdin : list pystr;
  events : list event
}.

Definition M (A : Type) : Type := World -> result A * World.

Definition ret {A : Type} (a : A) : M A := fun w => (Ok a, w).

Definition raise {A : Type} (e : exn) : M A := fun w => (Raise e, w).

(** A computation that only returns or raises. *)
Definition lift {A : Type} (r : result A) : M A := fun w => (r, w).

Definition bind {A B : Type} (m : M A) (k : A -> M B) : M B :=
  fun w =>
    match m w with
    | (Ok a, w') => k a w'
    | (Raise e, w') => (Raise e, w')
    end.

Notation "x <- m ;; k" := (bind m (fun x => k))
  (at level 61, m at next level, right associativity).
Notation "m ;; k" := (bind m (fun _ => k))
  (at level 61, right associativity).

(** [try: body  except git.GitCommandError: handler] *)
Definition try_except_git {A : Type} (body handler : M A) : M A :=
  fun w =>
    match body w with
    | (Raise GitCommandError, w') => handler w'
    | other => other
    end.

Definition emit (e : event) : M unit :=
  fun w => (Ok tt, {| stdin := stdin w; events := events w ++ [e] |}).

Definition log (lvl : level) (record : log_record) : M unit :=
  emit (Log lvl record).

Definition print (line : pystr) : M unit := emit (Print line).

Definition assert (condition : bool) (msg : pystr) : M unit :=
  if condition then ret tt else raise (AssertionError msg).

(** The exception a failed backend call raises.  [git.Repo] on a directory
    that is no repository raises [InvalidGitRepositoryError];
    [repo.remotes.origin] is an attribute lookup and raises [AttributeError]
    when there is no remote of that name; [repo.create_head] writes the
    reference itself and raises [OSError] when the branch is there already;
    every other call runs a git command and raises [GitCommandError]. *)
Definition git_exn (op : git_op) : exn :=
  match op with
  | GitRepo _ => InvalidGitRepositoryError
  | GitRemote _ => AttributeError
  | GitCreateHead _ => OSError
  | _ => GitCommandError
  end.

(** [input(prompt)]: the next line of standard input, [EOFError] when there
    is none. *)
Definition input (prompt : pystr) : M pystr :=
  fun w =>
    match stdin w with
    | response :: rest =>
        (Ok response,
         {| stdin := rest;
            events := events w ++ [Input prompt (Some response)] |})
    | [] =>
        (Raise EOFError,
         {| stdin := []; events := events w ++ [Input prompt None] |})
    end.

(** ** Sample surroundings *)

(** Concrete values on which the statements below are exercised: the ASCII
    part of the two Unicode tables, arguments, commits, manifests, and
    surroundings. *)

(** The ASCII part of the two Unicode tables. *)
Definition ascii_decimal (c : N) : bool := (N.leb 48 c && N.leb c 57)%bool.

Definition ascii_lower (s : pystr) : pystr :=
  map (fun c => if (N.leb 65 c && N.leb c 90)%bool then (c + 32)%N else c) s.

Definition args42 : Args :=
  {| pr_id := 42;
     pr_author := py "alice";
     pr_deploy_scope := py "test";
     pr_dag_name := py "install";
     repo_path := py "/repo" |}.

Definition commit42 : Commit :=
  {| hexsha := py "def456";
     summary := py "fix: x (#42)";
     author := py "alice" |}.

Definition chore : Commit :=
  {| hexsha := py "0a0a0a";
     summary := py "chore: tidy up";
     author := py "bob" |}.

(** Ten commits that do not name the pull request, then the one that does. *)
Definition history11 : list Commit := repeat chore 10 ++ [commit42].

Definition manifest0 : json :=
  JObject [(py "version",
            JObject [(py "dags",
                      JObject [(py "install", JString (py "abc123"))])])].

(** A manifest without the key [version]. *)
Definition manifest_unversioned : json :=
  JObject [(py "name", JString (py "airflow"))].

(** A manifest whose [version] is a string. *)
Definition manifest_scalar : json :=
  JObject [(py "version", JString (py "1.0"))].

(** Surroundings in which no backend call fails. *)
Definition calm (history : list Commit) (files : list pystr)
    (manifest : option json) : Env :=
  {| git_fails := fun _ _ => false;
     rev_list := fun _ => history;
     stats_files := fun _ => files;
     file_exists := fun _ _ => true;
     file_json := fun _ _ => manifest |}.

Definition is_commit (e : event) : bool :=
  match e with
  | Git (GitCommit _ _) _ => true
  | _ => false
  end.

(** Surroundings in which every commit is rejected ([always]), or only the
    first one. *)
Definition hook_rejects (always : bool) : Env :=
  {| git_fails := fun before op =>
                    match op with
                    | GitCommit _ _ => always || negb (existsb is_commit before)
                    | _ => false
                    end;
     rev_list := fun _ => [commit42];
     stats_files := fun _ => [py "dags/install/dag.py"];
     file_exists := fun _ _ => true;
     file_json := fun _ _ => Some manifest0 |}.

(** The commit of the pull request, authored by someone else. *)
Definition commit42_bob : Commit :=
  {| hexsha := py "def456";
     summary := py "fix: x (#42)";
     author := py "bob" |}.

(** Surroundings with nothing on disk. *)
Definition bare : Env :=
  {| git_fails := fun _ _ => false;
     rev_list := fun _ => [];
     stats_files := fun _ => [];
     file_exists := fun _ _ => false;
     file_json := fun _ _ => None |}.

(** Surroundings in which the deploy branch is there already. *)
Definition branch_taken : Env :=
  {| git_fails := fun _ op =>
                    match op with
                    | GitCreateHead _ => true
                    | _ => false
                    end;
     rev_list := fun _ => [commit42];
     stats_files := fun _ => [py "dags/install/dag.py"];
     file_exists := fun _ _ => true;
     file_json := fun _ _ => Some manifest0 |}.

Definition typed (lines : list pystr) : World :=
  {| stdin := lines; events := [] |}.

Section Script.

(** What the script takes from outside is a parameter: the two Unicode
    tables it reaches through the standard library, that is the class [\d]
    of a [str] pattern (every code point of category Nd, the ASCII digits
    among them) and [str.lower], and the surroundings it runs in. *)
Variable is_decimal : N -> bool.
Variable lower : pystr -> pystr.
Variable env : Env.

(** ** The pattern [\(#(\d+)\)] *)

(** [\d+\)] anchored at the head of [s]: the digits matched and what follows
    the closing parenthesis.  The repetition is greedy: it first takes every
    digit it can, and gives digits back one at a time until a closing
    parenthesis follows. *)
Fixpoint digits_rparen (s : pystr) : option (pystr * pystr) :=
  match s with
  | c :: s' =>
      if is_decimal c then
        match digits_rparen s' with
        | Some (g, r) => Some (c :: g, r)
        | None =>
            match s' with
            | d :: r => if N.eqb d 41 then Some ([c], r) else None
            | [] => None
            end
        end
      else None
  | [] => None
  end.

(** The whole pattern anchored at the head of [s]: group 1 and the rest. *)
Definition match_here (s : pystr) : option (pystr * pystr) :=
  match s with
  | a :: b :: t =>
      if N.eqb a 40 && N.eqb b 35 then digits_rparen t else None
  | _ => None
  end.

Lemma digits_rparen_shorter s g r :
  digits_rparen s = Some (g, r) -> length r < length s.
Proof.
  revert g r. induction s as [|c s IH]; intros g r; simpl; [discriminate|].
  destruct (is_decimal c); [|discriminate].
  destruct (digits_rparen s) as [[g' r']|] eqn:E.
  - intros [= <- <-]. specialize (IH _ _ eq_refl). lia.
  - destruct s as [|d s']; [discriminate|].
    destruct (N.eqb d 41); [|discriminate].
    intros [= <- <-]. simpl. lia.
Qed.

Lemma match_here_shorter s g r :
  match_here s = Some (g, r) -> length r < length s.
Proof.
  unfold match_here.
  destruct s as [|a [|b s]]; try discriminate.
  destruct (N.eqb a 40 && N.eqb b 35); [|discriminate].
  intros H. apply digits_rparen_shorter in H. simpl. lia.
Qed.

Definition inspect {A : Type} (a : A) : {b : A | a = b} :=
  exist _ a eq_refl.

(** [re.findall(r'\(#(\d+)\)', s)]: group 1 of every match, scanning from
    the left and resuming after the end of each match. *)
Equations? findall (s : pystr) : list pystr by wf (length s) lt :=
  findall [] := [];
  findall (c :: s') with inspect (match_here (c :: s')) := {
    | exist _ (Some (g, r)) _ => g :: findall r;
    | exist _ None _ => findall s' }.
Proof.
  apply (@match_here_shorter (c :: s') g r e).
Qed.

(** [check_commit(message, pull_request_id)] *)
Definition check_commit (message : pystr) (pull_request_id : Z) : bool :=
  let regex_result := findall message in
  match regex_result with
  | first :: _ => pystr_eqb first (str_int pull_request_id)
  | [] => false
  end.

(** ** Calls that depend on the surroundings *)

(** A call to the backend: it is recorded, and raises when the surroundings
    say it fails. *)
Definition git (op : git_op) : M unit :=
  fun w =>
    if git_fails env (events w) op
    then (emit (Git op false) ;; raise (git_exn op)) w
    else emit (Git op true) w.

(** [os.path.isfile(path)] *)
Definition isfile (path : pystr) : M bool :=
  fun w =>
    let found := file_exists env (events w) path in
    (emit (IsFile path found) ;; ret found) w.

(** [with open(path, 'r') as f: json.load(f)] *)
Definition load_json (path : pystr) : M json :=
  fun w =>
    let content := file_json env (events w) path in
    (emit (ReadFile path content) ;;
     match content with
     | Some data => ret data
     | None => raise FileNotFoundError
     end) w.

(** ** The script *)

(** [prompt_if_continue(message)] *)
Definition prompt_if_continue (message : pystr) : M bool :=
  response <- input (py "<" ++ message ++
                     py "> Do You Want To Continue? (y/n): ") ;;
  if pystr_eqb (lower response) (py "y") then ret true else ret false.

(** [find_commit(commit_list, pull_request_id, author_name)] *)
Fixpoint find_commit (commit_list : list Commit) (pull_request_id : Z)
    (author_name : pystr) : M (option Commit) :=
  match commit_list with
  | [] => ret None
  | commit :: rest =>
      if check_commit (summary commit) pull_request_id then
        if negb (pystr_eqb (author commit) author_name) then
          continue <- prompt_if_continue
                        (py "Commit " ++ hexsha commit ++
                         py " is not authored by " ++ author_name) ;;
          if continue then ret (Some commit)
          else find_commit rest pull_request_id author_name
        else ret (Some commit)
      else find_commit rest pull_request_id author_name
  end.

(** [file.startswith('dags/') and file.split('/')[1] == dag_name].  Past the
    prefix test the split has a second piece, see [second_piece_exists]. *)
Definition in_dag_dir (file dag_name : pystr) : bool :=
  startswith file (py "dags/") &&
  match nth_error (split_on 47 file) 1 with
  | Some piece => pystr_eqb piece dag_name
  | None => false
  end.

(** [check_changes_in_dag_only(files_changed, dag_name)] *)
Fixpoint check_changes_in_dag_only (files_changed : list pystr)
    (dag_name : pystr) : M bool :=
  match files_changed with
  | [] => ret true
  | file :: rest =>
      if negb (in_dag_dir file dag_name) then
        continue <- prompt_if_continue
                      (py "File " ++ file ++ py " is not in dags/" ++
                       dag_name ++ py " directory") ;;
        if continue then check_changes_in_dag_only rest dag_name
        else ret false
      else check_changes_in_dag_only rest dag_name
  end.

Definition commit_subject (args : Args) : pystr :=
  py "Deploy PR for PR#" ++ str_int (pr_id args).

Definition commit_body (args : Args) (commit_hash : pystr) : pystr :=
  py "Deploy #" ++ str_int (pr_id args) ++ py " with Commit hash: [" ++
  commit_hash ++ py "](https://github.com/moloco/airflow/commit/" ++
  commit_hash ++ py ")" ++ [10%N] ++ py "Author: " ++ pr_author args.

(** [main()], after [parse_args()]. *)
Definition main (args : Args) : M unit :=
  log INFO (LogArgs args) ;;
  let main_branch_name := py "main" in
  let deploy_path :=
    path_join (repo_path args)
              (py "deploy_" ++ pr_deploy_scope args ++ py ".json") in
  found <- isfile deploy_path ;;
  assert found (py "Deploy file not found") ;;
  git (GitRepo (repo_path args)) ;;
  git (GitCheckout main_branch_name) ;;
  git (GitRemote (py "origin")) ;;
  git GitPull ;;
  git (GitIterCommits main_branch_name 10) ;;
  let last_10_commits := firstn 10 (rev_list env main_branch_name) in
  commit <- find_commit last_10_commits (pr_id args) (pr_author args) ;;
  match commit with
  | None => raise (AssertionError (py "Commit not found"))
  | Some commit =>
      let commit_hash := hexsha commit in
      git (GitStats commit_hash) ;;
      let files_changed_in_commit := stats_files env commit_hash in
      valid <- check_changes_in_dag_only files_changed_in_commit
                                         (pr_dag_name args) ;;
      if negb valid then
        log ERROR LogUserAborted
      else
        let branch := py "deploy-" ++ str_int (pr_id args) in
        git (GitCreateHead branch) ;;
        git (GitCheckout branch) ;;
        log INFO (LogCreatedBranch branch) ;;
        data <- load_json deploy_path ;;
        data <- lift (set_dag_version data (pr_dag_name args) commit_hash) ;;
        emit (RemoveFile deploy_path) ;;
        emit (WriteFile deploy_path data) ;;
        log INFO (LogUpdated deploy_path commit_hash (pr_dag_name args)) ;;
        try_except_git
          (git (GitAdd deploy_path) ;;
           git (GitCommit (commit_subject args)
                          (commit_body args commit_hash)))
          (print (py "Possibly pre-commit hook failed, retrying commit") ;;
           git (GitAdd deploy_path) ;;
           git (GitCommit (commit_subject args)
                          (commit_body args commit_hash))) ;;
        log INFO LogCommitted ;;
        git (GitPush (py "origin") branch) ;;
        log INFO (LogPushed branch)
  end.

(** ** Vocabulary of the statements *)

(** *** Tokens *)

(** The description of the matcher speaks of tokens [(#<digits>)] in the
    message.  [token_at message i ds]: such a token with digits [ds] starts
    at offset [i]. *)
Definition token_at (message : pystr) (i : nat) (ds : pystr) : Prop :=
  ds <> [] /\
  Forall (fun c => is_decimal c = true) ds /\
  exists pre post,
    message = pre ++ 40%N :: 35%N :: ds ++ 41%N :: post /\ length pre = i.

(** The first token of a message: no token starts further left, and none
    starting at the same offset is longer. *)
Definition first_token (message : pystr) (ds : pystr) : Prop :=
  exists i,
    token_at message i ds /\
    forall j ds', token_at message j ds' ->
                  i < j \/ (i = j /\ length ds' <= length ds).

(** *** Questions and answers *)

(** The question [prompt_if_continue] builds around a message, the two
    messages the script asks about, and the answers that mean yes. *)
Definition question (message : pystr) : pystr :=
  py "<" ++ message ++ py "> Do You Want To Continue? (y/n): ".

Definition author_question (commit : Commit) (author_name : pystr) : pystr :=
  question (py "Commit " ++ hexsha commit ++
            py " is not authored by " ++ author_name).

Definition scope_question (file dag_name : pystr) : pystr :=
  question (py "File " ++ file ++ py " is not in dags/" ++
            dag_name ++ py " directory").

Definition accepts (response : pystr) : bool :=
  pystr_eqb (lower response) (py "y").

(** The world after the operator answered one question. *)
Definition answered (w : World) (prompt response : pystr) (rest : list pystr)
  : World :=
  {| stdin := rest; events := events w ++ [Input prompt (Some response)] |}.

(** The candidates of a scan: the commits whose summary names the pull
    request. *)
Definition candidates (commits : list Commit) (pull_request_id : Z)
  : list Commit :=
  filter (fun c => check_commit (summary c) pull_request_id) commits.

(** The questions asked about some commits, with their answers. *)
Definition author_inputs (author_name : pystr) (commits : list Commit)
    (answers : list pystr) : list event :=
  map (fun cr => Input (author_question (fst cr) author_name) (Some (snd cr)))
      (combine commits answers).

(** The paths of a list that fail the test, in order. *)
Definition violations (files : list pystr) (dag_name : pystr) : list pystr :=
  filter (fun f => negb (in_dag_dir f dag_name)) files.

(** The questions asked about some files, with their answers. *)
Definition scope_inputs (dag_name : pystr) (files answers : list pystr)
  : list event :=
  map (fun fr => Input (scope_question (fst fr) dag_name) (Some (snd fr)))
      (combine files answers).

(** *** Documents *)

(** The value found by following a chain of keys down a document. *)
Fixpoint lookup_path (path : list pystr) (x : json) : option json :=
  match path with
  | [] => Some x
  | k :: path' =>
      match x with
      | JObject d =>
          match dict_get k d with
          | Some v => lookup_path path' v
          | None => None
          end
      | _ => None
      end
  end.

(** The keys of a dictionary, in the order [json.dump] writes them. *)
Definition keys_at (path : list pystr) (x : json) : option (list pystr) :=
  match lookup_path path x with
  | Some (JObject d) => Some (map fst d)
  | _ => None
  end.

(** What is wrong with a manifest in which [version.dags] cannot be reached,
    and the exception line 112 raises on it: a dictionary on the way lacks
    its key, or what should be a dictionary is something else. *)
Inductive manifest_fault : json -> exn -> Prop :=
| fault_no_version top :
    dict_get (py "version") top = None ->
    manifest_fault (JObject top) (KeyError (py "version"))
| fault_no_dags top version :
    dict_get (py "version") top = Some (JObject version) ->
    dict_get (py "dags") version = None ->
    manifest_fault (JObject top) (KeyError (py "dags"))
| fault_document_not_dict data :
    (forall top, data <> JObject top) ->
    manifest_fault data TypeError
| fault_version_not_dict top v :
    dict_get (py "version") top = Some v ->
    (forall version, v <> JObject version) ->
    manifest_fault (JObject top) TypeError.

(** *** Runs *)

(** The path of the manifest, the name of the deploy branch and the notice
    printed before the second attempt to commit. *)
Definition deploy_path (args : Args) : pystr :=
  path_join (repo_path args)
            (py "deploy_" ++ pr_deploy_scope args ++ py ".json").

Definition deploy_branch (args : Args) : pystr :=
  py "deploy-" ++ str_int (pr_id args).

Definition retry_notice : pystr :=
  py "Possibly pre-commit hook failed, retrying commit".

(** [main] in two halves, cut between lines 105 and 107.  The first half
    syncs, locates the commit and validates its scope; it yields the hash to
    deploy, or nothing when the operator declined. *)
Definition prelude (args : Args) : M (option pystr) :=
  log INFO (LogArgs args) ;;
  found <- isfile (deploy_path args) ;;
  assert found (py "Deploy file not found") ;;
  git (GitRepo (repo_path args)) ;;
  git (GitCheckout (py "main")) ;;
  git (GitRemote (py "origin")) ;;
  git GitPull ;;
  git (GitIterCommits (py "main") 10) ;;
  commit <- find_commit (firstn 10 (rev_list env (py "main")))
                        (pr_id args) (pr_author args) ;;
  match commit with
  | None => raise (AssertionError (py "Commit not found"))
  | Some commit =>
      git (GitStats (hexsha commit)) ;;
      valid <- check_changes_in_dag_only (stats_files env (hexsha commit))
                                         (pr_dag_name args) ;;
      if negb valid then log ERROR LogUserAborted ;; ret None
      else ret (Some (hexsha commit))
  end.

(** The second half cuts the branch, rewrites the manifest, commits and
    pushes. *)
Definition deploy (args : Args) (commit_hash : pystr) : M unit :=
  git (GitCreateHead (deploy_branch args)) ;;
  git (GitCheckout (deploy_branch args)) ;;
  log INFO (LogCreatedBranch (deploy_branch args)) ;;
  data <- load_json (deploy_path args) ;;
  data <- lift (set_dag_version data (pr_dag_name args) commit_hash) ;;
  emit (RemoveFile (deploy_path args)) ;;
  emit (WriteFile (deploy_path args) data) ;;
  log INFO (LogUpdated (deploy_path args) commit_hash (pr_dag_name args)) ;;
  try_except_git
    (git (GitAdd (deploy_path args)) ;;
     git (GitCommit (commit_subject args) (commit_body args commit_hash)))
    (print retry_notice ;;
     git (GitAdd (deploy_path args)) ;;
     git (GitCommit (commit_subject args) (commit_body args commit_hash))) ;;
  log INFO LogCommitted ;;
  git (GitPush (py "origin") (deploy_branch args)) ;;
  log INFO (LogPushed (deploy_branch args)).

(** [grows w w' evs]: from [w] to [w'] the events [evs] happened. *)
Definition grows (w w' : World) (evs : list event) : Prop :=
  events w' = events w ++ evs.

(** The events of the first half: the sync, the listing of the history, the
    look at the commit and the questions.  None of them creates a branch,
    touches the manifest, commits or pushes. *)
Definition prelude_event (e : event) : bool :=
  match e with
  | Log _ (LogArgs _) | Log _ LogUserAborted => true
  | IsFile _ _ => true
  | Input _ _ => true
  | Git (GitRepo _) _ | Git (GitRemote _) _ | Git GitPull _ => true
  | Git (GitIterCommits _ _) _ | Git (GitStats _) _ => true
  | Git (GitCheckout branch) _ => pystr_eqb branch (py "main")
  | _ => false
  end.

(** The events of staging and committing. *)
Definition commit_phase (e : event) : bool :=
  match e with
  | Git (GitAdd _) _ | Git (GitCommit _ _) _ | Print _ => true
  | _ => false
  end.

(** The events that read or rewrite the manifest. *)
Definition manifest_event (e : event) : bool :=
  match e with
  | ReadFile _ _ | RemoveFile _ | WriteFile _ _ => true
  | _ => false
  end.

(** The states a run works towards, and for each event the state whose
    step it belongs to.  A question belongs to the location of the commit
    when it is about a commit, to the scope validation otherwise. *)
Inductive stage : Type :=
| Synced
| CommitLocated
| ScopeValidated
| BranchCreated
| ManifestUpdated
| Committed
| Pushed.

Definition stage_of (e : event) : stage :=
  match e with
  | Log _ (LogArgs _) | IsFile _ _ => Synced
  | Git (GitRepo _) _ | Git (GitRemote _) _ | Git GitPull _ => Synced
  | Git (GitCheckout branch) _ =>
      if pystr_eqb branch (py "main") then Synced else BranchCreated
  | Git (GitIterCommits _ _) _ => CommitLocated
  | Input prompt _ =>
      if startswith prompt (py "<Commit ") then CommitLocated
      else ScopeValidated
  | Git (GitStats _) _ | Log _ LogUserAborted => ScopeValidated
  | Git (GitCreateHead _) _ | Log _ (LogCreatedBranch _) => BranchCreated
  | ReadFile _ _ | RemoveFile _ | WriteFile _ _ => ManifestUpdated
  | Log _ (LogUpdated _ _ _) => ManifestUpdated
  | Git (GitAdd _) _ | Git (GitCommit _ _) _ | Print _ => Committed
  | Log _ LogCommitted => Committed
  | Git (GitPush _ _) _ | Log _ (LogPushed _) => Pushed
  end.

(** [evs] is a run of events of one stage. *)
Definition during (s : stage) (evs : list event) : Prop :=
  Forall (fun e => stage_of e = s) evs.

(** Events that fall into the first three stretches, in order. *)
Definition early_stages (evs : list event) : Prop :=
  exists syncing locating validating,
    evs = syncing ++ locating ++ validating /\
    during Synced syncing /\
    during CommitLocated locating /\
    during ScopeValidated validating.

(** The events of a sync that goes through. *)
Definition sync_events (args : Args) : list event :=
  [Log INFO (LogArgs args);
   IsFile (deploy_path args) true;
   Git (GitRepo (repo_path args)) true;
   Git (GitCheckout (py "main")) true;
   Git (GitRemote (py "origin")) true;
   Git GitPull true].

(** The events of one attempt to stage and commit the manifest, by whether
    it went through. *)
Inductive attempt_trace (args : Args) (commit_hash : pystr)
  : bool -> list event -> Prop :=
| attempt_add_fails :
    attempt_trace args commit_hash false
      [Git (GitAdd (deploy_path args)) false]
| attempt_commit_fails :
    attempt_trace args commit_hash false
      [Git (GitAdd (deploy_path args)) true;
       Git (GitCommit (commit_subject args) (commit_body args commit_hash))
           false]
| attempt_goes_through :
    attempt_trace args commit_hash true
      [Git (GitAdd (deploy_path args)) true;
       Git (GitCommit (commit_subject args) (commit_body args commit_hash))
           true].

(** The events of the [try]/[except] block: one attempt that goes through,
    or a failed attempt, the notice and one more attempt. *)
Inductive retry_trace (args : Args) (commit_hash : pystr)
  : bool -> list event -> Prop :=
| retry_not_needed evs :
    attempt_trace args commit_hash true evs ->
    retry_trace args commit_hash true evs
| retry_once first second committed :
    attempt_trace args commit_hash false first ->
    attempt_trace args commit_hash committed second ->
    retry_trace args commit_hash committed
      (first ++ Print retry_notice :: second).

Definition branch_cut (args : Args) : list event :=
  [Git (GitCreateHead (deploy_branch args)) true;
   Git (GitCheckout (deploy_branch args)) true;
   Log INFO (LogCreatedBranch (deploy_branch args))].

Definition manifest_rewrite (args : Args) (commit_hash : pystr)
    (data data' : json) : list event :=
  [ReadFile (deploy_path args) (Some data);
   RemoveFile (deploy_path args);
   WriteFile (deploy_path args) data';
   Log INFO (LogUpdated (deploy_path args) commit_hash (pr_dag_name args))].

(** The runs of the second half: where it stops, with what, after which
    events. *)
Inductive deploy_trace (args : Args) (commit_hash : pystr)
  : result unit -> list event -> Prop :=
| deploy_create_fails :
    deploy_trace args commit_hash (Raise OSError)
      [Git (GitCreateHead (deploy_branch args)) false]
| deploy_checkout_fails :
    deploy_trace args commit_hash (Raise GitCommandError)
      [Git (GitCreateHead (deploy_branch args)) true;
       Git (GitCheckout (deploy_branch args)) false]
| deploy_no_manifest :
    deploy_trace args commit_hash (Raise FileNotFoundError)
      (branch_cut args ++ [ReadFile (deploy_path args) None])
| deploy_bad_manifest data e :
    set_dag_version data (pr_dag_name args) commit_hash = Raise e ->
    deploy_trace args commit_hash (Raise e)
      (branch_cut args ++ [ReadFile (deploy_path args) (Some data)])
| deploy_commit_fails data data' tries :
    set_dag_version data (pr_dag_name args) commit_hash = Ok data' ->
    retry_trace args commit_hash false tries ->
    deploy_trace args commit_hash (Raise GitCommandError)
      (branch_cut args ++ manifest_rewrite args commit_hash data data' ++
       tries)
| deploy_push_fails data data' tries :
    set_dag_version data (pr_dag_name args) commit_hash = Ok data' ->
    retry_trace args commit_hash true tries ->
    deploy_trace args commit_hash (Raise GitCommandError)
      (branch_cut args ++ manifest_rewrite args commit_hash data data' ++
       tries ++
       [Log INFO LogCommitted;
        Git (GitPush (py "origin") (deploy_branch args)) false])
| deploy_pushed data data' tries :
    set_dag_version data (pr_dag_name args) commit_hash = Ok data' ->
    retry_trace args commit_hash true tries ->
    deploy_trace args commit_hash (Ok tt)
      (branch_cut args ++ manifest_rewrite args commit_hash data data' ++
       tries ++
       [Log INFO LogCommitted;
        Git (GitPush (py "origin") (deploy_branch args)) true;
        Log INFO (LogPushed (deploy_branch args))]).

(** No scope question among the events was answered with anything but
    yes. *)
Definition none_declined (args : Args) (evs : list event) : Prop :=
  forall f line,
    In (Input (scope_question f (pr_dag_name args)) (Some line)) evs ->
    accepts line = true.

(** The runs of [main]: stopped by an exception in the first half, ended
    by the operator, or carried into the second half. *)
Inductive main_trace (args : Args) : result unit -> list event -> Prop :=
| main_stopped e evs :
    Forall (fun e => prelude_event e = true) evs ->
    early_stages evs ->
    none_declined args evs ->
    main_trace args (Raise e) evs
| main_aborted before :
    Forall (fun e => prelude_event e = true) before ->
    early_stages (before ++ [Log ERROR LogUserAborted]) ->
    main_trace args (Ok tt) (before ++ [Log ERROR LogUserAborted])
| main_deployed commit_hash r evs1 evs2 :
    Forall (fun e => prelude_event e = true) evs1 ->
    early_stages evs1 ->
    none_declined args evs1 ->
    deploy_trace args commit_hash r evs2 ->
    main_trace args r (evs1 ++ evs2).

(** *** Runs, step by step *)

(** What the surroundings make of one attempt to stage and commit the
    manifest, made when [before] has happened: whether it goes through, and
    its events. *)
Definition attempt_events (args : Args) (commit_hash : pystr)
    (before : list event) : bool * list event :=
  if git_fails env before (GitAdd (deploy_path args)) then
    (false, [Git (GitAdd (deploy_path args)) false])
  else if git_fails env (before ++ [Git (GitAdd (deploy_path args)) true])
            (GitCommit (commit_subject args) (commit_body args commit_hash))
  then
    (false,
     [Git (GitAdd (deploy_path args)) true;
      Git (GitCommit (commit_subject args) (commit_body args commit_hash))
          false])
  else
    (true,
     [Git (GitAdd (deploy_path args)) true;
      Git (GitCommit (commit_subject args) (commit_body args commit_hash))
          true]).

(** Committing with one retry, in the words of the description: one attempt;
    when it goes through, nothing more; when it fails, the notice and one
    more attempt with the same path and the same message, whose outcome is
    the outcome. *)
Definition retry_events (args : Args) (commit_hash : pystr)
    (before : list event) : bool * list event :=
  let first := attempt_events args commit_hash before in
  if fst first then first
  else
    let second :=
      attempt_events args commit_hash
        (before ++ snd first ++ [Print retry_notice]) in
    (fst second, snd first ++ Print retry_notice :: snd second).

(** The records of a commit that went through and of the push after it. *)
Definition push_events (args : Args) : list event :=
  [Log INFO LogCommitted;
   Git (GitPush (py "origin") (deploy_branch args)) true;
   Log INFO (LogPushed (deploy_branch args))].

(** The commits handed to the locator (line 96) and the call that lists
    them. *)
Definition last_10_commits : list Commit :=
  firstn 10 (rev_list env (py "main")).

Definition listing : event := Git (GitIterCommits (py "main") 10) true.

(** The runs of the first half, each with its result and all of its events.
    [lines] is what is on standard input when the run starts; the locator
    and the validator are told by what they do on their own, started on a
    world without events. *)
Inductive prelude_trace (args : Args) (lines : list pystr)
  : result (option pystr) -> list event -> Prop :=
| prelude_no_file :
    prelude_trace args lines
      (Raise (AssertionError (py "Deploy file not found")))
      [Log INFO (LogArgs args); IsFile (deploy_path args) false]
| prelude_repo_fails :
    prelude_trace args lines (Raise InvalidGitRepositoryError)
      [Log INFO (LogArgs args); IsFile (deploy_path args) true;
       Git (GitRepo (repo_path args)) false]
| prelude_checkout_fails :
    prelude_trace args lines (Raise GitCommandError)
      [Log INFO (LogArgs args); IsFile (deploy_path args) true;
       Git (GitRepo (repo_path args)) true;
       Git (GitCheckout (py "main")) false]
| prelude_remote_fails :
    prelude_trace args lines (Raise AttributeError)
      [Log INFO (LogArgs args); IsFile (deploy_path args) true;
       Git (GitRepo (repo_path args)) true;
       Git (GitCheckout (py "main")) true;
       Git (GitRemote (py "origin")) false]
| prelude_pull_fails :
    prelude_trace args lines (Raise GitCommandError)
      [Log INFO (LogArgs args); IsFile (deploy_path args) true;
       Git (GitRepo (repo_path args)) true;
       Git (GitCheckout (py "main")) true;
       Git (GitRemote (py "origin")) true;
       Git GitPull false]
| prelude_listing_fails :
    prelude_trace args lines (Raise GitCommandError)
      (sync_events args ++ [Git (GitIterCommits (py "main") 10) false])
| prelude_locator_raises e asked rest :
    find_commit last_10_commits (pr_id args) (pr_author args) (typed lines) =
      (Raise e, {| stdin := rest; events := asked |}) ->
    prelude_trace args lines (Raise e)
      (sync_events args ++ listing :: asked)
| prelude_not_found asked rest :
    find_commit last_10_commits (pr_id args) (pr_author args) (typed lines) =
      (Ok None, {| stdin := rest; events := asked |}) ->
    prelude_trace args lines (Raise (AssertionError (py "Commit not found")))
      (sync_events args ++ listing :: asked)
| prelude_stats_fail commit asked rest :
    find_commit last_10_commits (pr_id args) (pr_author args) (typed lines) =
      (Ok (Some commit), {| stdin := rest; events := asked |}) ->
    prelude_trace args lines (Raise GitCommandError)
      (sync_events args ++ listing :: asked ++
       [Git (GitStats (hexsha commit)) false])
| prelude_validator_raises commit asked rest e scoped rest' :
    find_commit last_10_commits (pr_id args) (pr_author args) (typed lines) =
      (Ok (Some commit), {| stdin := rest; events := asked |}) ->
    check_changes_in_dag_only (stats_files env (hexsha commit))
                              (pr_dag_name args) (typed rest) =
      (Raise e, {| stdin := rest'; events := scoped |}) ->
    prelude_trace args lines (Raise e)
      (sync_events args ++ listing :: asked ++
       Git (GitStats (hexsha commit)) true :: scoped)
| prelude_declined commit asked rest scoped rest' :
    find_commit last_10_commits (pr_id args) (pr_author args) (typed lines) =
      (Ok (Some commit), {| stdin := rest; events := asked |}) ->
    check_changes_in_dag_only (stats_files env (hexsha commit))
                              (pr_dag_name args) (typed rest) =
      (Ok false, {| stdin := rest'; events := scoped |}) ->
    prelude_trace args lines (Ok None)
      (sync_events args ++ listing :: asked ++
       Git (GitStats (hexsha commit)) true :: scoped ++
       [Log ERROR LogUserAborted])
| prelude_validated commit asked rest scoped rest' :
    find_commit last_10_commits (pr_id args) (pr_author args) (typed lines) =
      (Ok (Some commit), {| stdin := rest; events := asked |}) ->
    check_changes_in_dag_only (stats_files env (hexsha commit))
                              (pr_dag_name args) (typed rest) =
      (Ok true, {| stdin := rest'; events := scoped |}) ->
    prelude_trace args lines (Ok (Some (hexsha commit)))
      (sync_events args ++ listing :: asked ++
       Git (GitStats (hexsha commit)) true :: scoped).

(** The runs of [main], each with its result and all of its events. *)
Inductive main_shape (args : Args) (lines : list pystr)
  : result unit -> list event -> Prop :=
| main_first_half e evs :
    prelude_trace args lines (Raise e) evs ->
    main_shape args lines (Raise e) evs
| main_ended evs :
    prelude_trace args lines (Ok None) evs ->
    main_shape args lines (Ok tt) evs
| main_second_half commit_hash r evs1 evs2 :
    prelude_trace args lines (Ok (Some commit_hash)) evs1 ->
    deploy_trace args commit_hash r evs2 ->
    main_shape args lines r (evs1 ++ evs2).

(** ** The commit matcher against its description *)

Lemma app_eq_length_eq {A : Type} (p q x y : list A) :
  length p = length q -> p ++ x = q ++ y -> p = q /\ x = y.
Proof.
  revert q. induction p as [|a p IH]; intros [|b q] Hl H; try discriminate.
  - auto.
  - injection H as -> H. injection Hl as Hl.
    destruct (IH _ Hl H) as [-> ->]. auto.
Qed.

Lemma findall_cons c s' :
  findall (c :: s') =
  match match_here (c :: s') with
  | Some (g, r) => g :: findall r
  | None => findall s'
  end.
Proof.
  simp findall.
  destruct (inspect (match_here (c :: s'))) as [[[g r]|] e];
    simpl; simpl in e; rewrite e; reflexivity.
Qed.

Lemma pystr_eqb_eq a b : pystr_eqb a b = true <-> a = b.
Proof.
  revert b. induction a as [|x a IH]; intros [|y b]; simpl;
    try (split; [discriminate|discriminate]); try tauto.
  rewrite andb_true_iff, N.eqb_eq, IH.
  split; [intros [-> ->]; reflexivity | intros [= -> ->]; auto].
Qed.

Lemma digits_rparen_sound s g r :
  digits_rparen s = Some (g, r) ->
  g <> [] /\ Forall (fun c => is_decimal c = true) g /\ s = g ++ 41%N :: r.
Proof.
  revert g r. induction s as [|c s IH]; intros g r; simpl; [discriminate|].
  destruct (is_decimal c) eqn:Hc; [|discriminate].
  destruct (digits_rparen s) as [[g' r']|] eqn:E.
  - intros [= <- <-]. destruct (IH _ _ eq_refl) as (_ & Hd & ->).
    repeat split; [discriminate | constructor; assumption].
  - destruct s as [|d s']; [discriminate|].
    destruct (N.eqb_spec d 41) as [->|]; [|discriminate].
    intros [= <- <-].
    repeat split; [discriminate | repeat constructor; assumption].
Qed.

Lemma digits_rparen_longest s g r :
  g <> [] -> Forall (fun c => is_decimal c = true) g -> s = g ++ 41%N :: r ->
  exists g' r', digits_rparen s = Some (g', r') /\ length g <= length g'.
Proof.
  revert g r. induction s as [|c s IH]; intros g r Hne Hd Hs.
  - destruct g; discriminate.
  - destruct g as [|x g]; [congruence|].
    injection Hs as <- ->. inversion Hd as [|? ? Hx Hg]; subst.
    simpl. rewrite Hx.
    destruct g as [|y g].
    + cbn [app]. destruct (digits_rparen (41%N :: r)) as [[g' r']|].
      * eexists _, _. split; [reflexivity|]. simpl. lia.
      * rewrite N.eqb_refl. eexists _, _. split; [reflexivity|]. simpl. lia.
    + destruct (IH (y :: g) r) as (g' & r' & -> & Hlen);
        [discriminate | assumption | reflexivity |].
      eexists _, _. split; [reflexivity|]. simpl in *. lia.
Qed.

Lemma token_at_0 s ds :
  token_at s 0 ds <->
  ds <> [] /\ Forall (fun c => is_decimal c = true) ds /\
  exists post, s = 40%N :: 35%N :: ds ++ 41%N :: post.
Proof.
  unfold token_at. split.
  - intros (Hne & Hd & pre & post & -> & Hl).
    destruct pre; [|discriminate]. repeat split; auto. exists post. reflexivity.
  - intros (Hne & Hd & post & ->). repeat split; auto.
    exists [], post. auto.
Qed.

Lemma token_at_S c s i ds : token_at (c :: s) (S i) ds <-> token_at s i ds.
Proof.
  unfold token_at. split.
  - intros (Hne & Hd & pre & post & Hs & Hl).
    destruct pre as [|x pre]; [discriminate|].
    injection Hs as -> ->. injection Hl as <-.
    repeat split; auto. exists pre, post. auto.
  - intros (Hne & Hd & pre & post & -> & <-).
    repeat split; auto. exists (c :: pre), post. auto.
Qed.

Lemma token_at_nil i ds : ~ token_at [] i ds.
Proof.
  intros (_ & _ & pre & post & Hs & _). destruct pre; discriminate.
Qed.

Lemma match_here_Some s g r :
  match_here s = Some (g, r) ->
  token_at s 0 g /\ forall ds, token_at s 0 ds -> length ds <= length g.
Proof.
  unfold match_here. destruct s as [|a [|b t]]; try discriminate.
  destruct (N.eqb_spec a 40) as [->|]; [|discriminate].
  destruct (N.eqb_spec b 35) as [->|]; [|discriminate].
  simpl. intros H. split.
  - apply digits_rparen_sound in H. destruct H as (Hne & Hd & ->).
    apply token_at_0. eauto.
  - intros ds Hds. apply token_at_0 in Hds.
    destruct Hds as (Hne & Hd & post & [= Ht]).
    destruct (@digits_rparen_longest t ds post Hne Hd Ht)
      as (g' & r' & Hg & Hl).
    rewrite H in Hg. injection Hg as <- <-. exact Hl.
Qed.

Lemma match_here_None s ds : match_here s = None -> ~ token_at s 0 ds.
Proof.
  intros H Hds. apply token_at_0 in Hds.
  destruct Hds as (Hne & Hd & post & ->).
  unfold match_here in H. simpl in H.
  destruct (@digits_rparen_longest _ ds post Hne Hd eq_refl)
    as (g' & r' & Hg & _).
  rewrite H in Hg. discriminate.
Qed.

(** What [findall] puts first is the first token; it is empty exactly when
    the message holds no token. *)
Lemma findall_head s :
  match findall s with
  | [] => forall i ds, ~ token_at s i ds
  | g :: _ => first_token s g
  end.
Proof.
  induction s as [|c s' IH].
  - simp findall. intros i ds. apply token_at_nil.
  - rewrite findall_cons. destruct (match_here (c :: s')) as [[g r]|] eqn:e.
    + destruct (match_here_Some _ _ _ e) as [Ht Hlong].
      exists 0. split; [exact Ht|].
      intros [|j] ds' Hj;
        [right; split; [reflexivity | apply Hlong, Hj] | left; lia].
    + destruct (findall s') as [|g tl].
      * intros [|i] ds Hi; [exact (match_here_None _ _ e Hi)|].
        apply (proj1 (token_at_S _ _ _ _)) in Hi. exact (IH _ _ Hi).
      * destruct IH as (i & Hi & Hmin). exists (S i). split.
        -- apply token_at_S. exact Hi.
        -- intros [|j] ds' Hj; [exfalso; exact (match_here_None _ _ e Hj)|].
           apply (proj1 (token_at_S _ _ _ _)) in Hj.
           destruct (Hmin _ _ Hj) as [?|[-> ?]];
             [left; lia | right; auto].
Qed.

Lemma token_at_same_length s i a b :
  token_at s i a -> token_at s i b -> length a = length b -> a = b.
Proof.
  intros (_ & _ & pa & qa & -> & Ha) (_ & _ & pb & qb & Hs & Hb) Hl.
  assert (pa = pb /\
          40%N :: 35%N :: a ++ 41%N :: qa = 40%N :: 35%N :: b ++ 41%N :: qb)
    as [_ [= H]].
  { apply app_eq_length_eq; [congruence | exact Hs]. }
  assert (firstn (length a) (a ++ 41%N :: qa) =
          firstn (length a) (b ++ 41%N :: qb))
    as Hf by (rewrite H; reflexivity).
  rewrite firstn_app, firstn_all, Nat.sub_diag in Hf. simpl in Hf.
  rewrite Hl, firstn_app, firstn_all, Nat.sub_diag in Hf. simpl in Hf.
  rewrite !app_nil_r in Hf. exact Hf.
Qed.

Lemma first_token_unique s a b : first_token s a -> first_token s b -> a = b.
Proof.
  intros (i & Hi & Hmi) (j & Hj & Hmj).
  destruct (Hmi _ _ Hj) as [Hlt|[-> Hba]];
    destruct (Hmj _ _ Hi) as [Hlt'|[E Hab]]; try lia.
  apply (token_at_same_length _ _ _ _ Hi Hj). lia.
Qed.

(** Where the closing parenthesis is no digit, as in Unicode, a token is
    determined by its offset, and the first token is simply the leftmost. *)
Lemma token_at_unique s i a b :
  is_decimal 41 = false -> token_at s i a -> token_at s i b -> a = b.
Proof.
  intros Hp (_ & Ha & pa & qa & -> & La) (_ & Hb & pb & qb & Hs & Lb).
  assert (forall ds, Forall (fun c => is_decimal c = true) ds -> ~ In 41%N ds)
    as Hno.
  { intros ds Hds Hin. rewrite Forall_forall in Hds.
    rewrite (Hds _ Hin) in Hp. discriminate Hp. }
  destruct (app_eq_length_eq pa pb _ _ (eq_trans La (eq_sym Lb)) Hs)
    as [_ [= H]].
  destruct (app_inj_pivot _ _ _ _ _ H) as [[[Hin _]|[_ Hin]]|[-> _]].
  - exfalso. exact (Hno _ Ha Hin).
  - exfalso. exact (Hno _ Hb Hin).
  - reflexivity.
Qed.

(** C1. [check_commit] answers true exactly when the first [(#<digits>)]
    token of the message carries the decimal rendering of the pull request
    identifier; on a message without such a token it answers false. *)
Theorem check_commit_first_token (message : pystr) (pull_request_id : Z) :
  (check_commit message pull_request_id = true <->
   first_token message (str_int pull_request_id)) /\
  ((forall i ds, ~ token_at message i ds) ->
   check_commit message pull_request_id = false).
Proof.
  unfold check_commit. pose proof (findall_head message) as H.
  destruct (findall message) as [|g tl].
  - split.
    + split; [discriminate|]. intros (i & Hi & _). exfalso. exact (H _ _ Hi).
    + reflexivity.
  - split.
    + rewrite pystr_eqb_eq. split.
      * intros <-. exact H.
      * intros H'. exact (first_token_unique _ _ _ H H').
    + intros Hno. destruct H as (i & Hi & _). exfalso. exact (Hno _ _ Hi).
Qed.

(** ** Prompts *)

Lemma prompt_if_continue_answer message w response rest :
  stdin w = response :: rest ->
  prompt_if_continue message w =
  (Ok (accepts response), answered w (question message) response rest).
Proof.
  intros H. unfold prompt_if_continue, bind, input. rewrite H.
  unfold accepts. destruct (pystr_eqb (lower response) (py "y")); reflexivity.
Qed.

Lemma prompt_if_continue_eof message w :
  stdin w = [] ->
  prompt_if_continue message w =
  (Raise EOFError,
   {| stdin := []; events := events w ++ [Input (question message) None] |}).
Proof.
  intros H. unfold prompt_if_continue, bind, input. rewrite H. reflexivity.
Qed.

(** ** The commit locator *)

Lemma find_commit_skip skipped rest pull_request_id author_name w :
  (forall c, In c skipped ->
             check_commit (summary c) pull_request_id = false) ->
  find_commit (skipped ++ rest) pull_request_id author_name w =
  find_commit rest pull_request_id author_name w.
Proof.
  induction skipped as [|c skipped IH]; intros H; [reflexivity|].
  simpl. rewrite (H c (or_introl eq_refl)).
  apply IH. intros c' Hc'. apply H. right. exact Hc'.
Qed.

Lemma find_commit_declined_prefix before pull_request_id author_name :
  forall rest w declined later,
    (forall c, In c (candidates before pull_request_id) ->
               author c <> author_name) ->
    stdin w = declined ++ later ->
    length declined = length (candidates before pull_request_id) ->
    (forall r, In r declined -> accepts r = false) ->
    find_commit (before ++ rest) pull_request_id author_name w =
    find_commit rest pull_request_id author_name
      {| stdin := later;
         events := events w ++
                   author_inputs author_name
                     (candidates before pull_request_id) declined |}.
Proof.
  unfold author_inputs.
  induction before as [|c before IH]; intros rest w declined later Ha Hin Hl Hd.
  - destruct declined; [|discriminate]. simpl in *.
    rewrite app_nil_r. destruct w; simpl in *; subst; reflexivity.
  - simpl in *. destruct (check_commit (summary c) pull_request_id) eqn:Hc.
    + destruct declined as [|r declined]; [discriminate|].
      simpl in Hl, Hin. injection Hl as Hl.
      assert (pystr_eqb (author c) author_name = false) as Hne.
      { destruct (pystr_eqb (author c) author_name) eqn:E; [|reflexivity].
        apply pystr_eqb_eq in E. exfalso. exact (Ha c (or_introl eq_refl) E). }
      rewrite Hne. simpl. unfold bind at 1.
      rewrite (prompt_if_continue_answer _ w _ _ Hin).
      rewrite (Hd r (or_introl eq_refl)).
      rewrite (IH rest _ declined later); auto.
      * simpl. rewrite <- app_assoc. reflexivity.
      * intros c' Hc'. apply Ha. right. exact Hc'.
      * intros r' Hr'. apply Hd. right. exact Hr'.
    + apply IH; auto.
Qed.

(** C3. [find_commit] scans the commits in order.  Commits whose summary
    does not name the pull request are passed over without a question.  At
    the first that does, an equal author name returns it with nothing asked;
    a different one asks the operator, whose yes returns it and whose no
    resumes the scan behind it.  So a stretch of commits in which every one
    that names the pull request is declined is passed over, at one question
    each, and when that is the whole list (or no commit names the pull
    request) the result is [None]. *)
Theorem find_commit_scan (pull_request_id : Z) (author_name : pystr) :
  (forall commits w,
      (forall c, In c commits ->
                 check_commit (summary c) pull_request_id = false) ->
      find_commit commits pull_request_id author_name w = (Ok None, w)) /\
  (forall skipped commit rest w,
      (forall c, In c skipped ->
                 check_commit (summary c) pull_request_id = false) ->
      check_commit (summary commit) pull_request_id = true ->
      (author commit = author_name ->
       find_commit (skipped ++ commit :: rest) pull_request_id author_name w =
       (Ok (Some commit), w)) /\
      (author commit <> author_name ->
       forall response later,
         stdin w = response :: later ->
         let w' := answered w (author_question commit author_name)
                            response later in
         (accepts response = true ->
          find_commit (skipped ++ commit :: rest)
                      pull_request_id author_name w =
          (Ok (Some commit), w')) /\
         (accepts response = false ->
          find_commit (skipped ++ commit :: rest)
                      pull_request_id author_name w =
          find_commit rest pull_request_id author_name w'))) /\
  (forall before rest w declined later,
      (forall c, In c (candidates before pull_request_id) ->
                 author c <> author_name) ->
      stdin w = declined ++ later ->
      length declined = length (candidates before pull_request_id) ->
      (forall r, In r declined -> accepts r = false) ->
      find_commit (before ++ rest) pull_request_id author_name w =
      find_commit rest pull_request_id author_name
        {| stdin := later;
           events := events w ++
                     author_inputs author_name
                       (candidates before pull_request_id) declined |}) /\
  (forall commits w declined later,
      (forall c, In c (candidates commits pull_request_id) ->
                 author c <> author_name) ->
      stdin w = declined ++ later ->
      length declined = length (candidates commits pull_request_id) ->
      (forall r, In r declined -> accepts r = false) ->
      find_commit commits pull_request_id author_name w =
      (Ok None,
       {| stdin := later;
          events := events w ++
                    author_inputs author_name
                      (candidates commits pull_request_id) declined |})).
Proof.
  split; [|split; [|split]].
  - intros commits w H.
    rewrite <- (app_nil_r commits), find_commit_skip by exact H. reflexivity.
  - intros skipped commit rest w Hs Hc. split.
    + intros Ha. rewrite find_commit_skip by exact Hs. simpl. rewrite Hc.
      apply pystr_eqb_eq in Ha. rewrite Ha. reflexivity.
    + intros Ha response later Hin w'.
      assert (pystr_eqb (author commit) author_name = false) as Hne.
      { destruct (pystr_eqb (author commit) author_name) eqn:E; [|reflexivity].
        apply pystr_eqb_eq in E. contradiction. }
      split; intros Hr; rewrite find_commit_skip by exact Hs; simpl;
        rewrite Hc, Hne; simpl; unfold bind at 1;
        rewrite (prompt_if_continue_answer _ w _ _ Hin), Hr; reflexivity.
  - intros before rest w declined later Ha Hin Hl Hd.
    apply find_commit_declined_prefix; assumption.
  - intros commits w declined later Ha Hin Hl Hd.
    rewrite <- (app_nil_r commits) at 1.
    rewrite (find_commit_declined_prefix commits pull_request_id author_name
               [] w declined later Ha Hin Hl Hd).
    reflexivity.
Qed.

(** ** The change-scope validator *)

Lemma split_on_app_sep sep p r :
  ~ In sep p -> split_on sep (p ++ sep :: r) = p :: split_on sep r.
Proof.
  induction p as [|c p IH]; intros Hp; simpl.
  - rewrite N.eqb_refl. reflexivity.
  - destruct (N.eqb_spec c sep) as [->|Hc];
    [exfalso; apply Hp; left; reflexivity|].
    rewrite IH; [reflexivity|]. intros H. apply Hp. right. exact H.
Qed.

Lemma split_on_no_sep sep p : ~ In sep p -> split_on sep p = [p].
Proof.
  induction p as [|c p IH]; intros Hp; simpl; [reflexivity|].
  destruct (N.eqb_spec c sep) as [->|Hc];
    [exfalso; apply Hp; left; reflexivity|].
  rewrite IH; [reflexivity|]. intros H. apply Hp. right. exact H.
Qed.

(** The first piece of a split runs up to the first separator. *)
Lemma split_on_first sep s :
  exists p ps,
    split_on sep s = p :: ps /\ ~ In sep p /\
    (s = p \/ exists r, s = p ++ sep :: r).
Proof.
  induction s as [|c s (p & ps & E & Hp & Hs)]; simpl.
  - exists [], []. repeat split; auto.
  - destruct (N.eqb_spec c sep) as [->|Hc].
    + exists [], (split_on sep s). repeat split; auto.
      right. exists s. reflexivity.
    + rewrite E. exists (c :: p), ps. repeat split.
      * intros [H|H]; [congruence | exact (Hp H)].
      * destruct Hs as [->|(r & ->)];
          [left; reflexivity | right; exists r; reflexivity].
Qed.

Lemma startswith_app s p : startswith s p = true <-> exists t, s = p ++ t.
Proof.
  revert s. induction p as [|x p IH]; intros s; simpl.
  - split; [intros _; exists s; reflexivity | reflexivity].
  - destruct s as [|y s].
    + split; [discriminate | intros (t & H); discriminate].
    + rewrite andb_true_iff, N.eqb_eq, IH. split.
      * intros (-> & t & ->). exists t. reflexivity.
      * intros (t & [= -> ->]). split; [reflexivity | exists t; reflexivity].
Qed.

(** The index [1] of the source never misses: behind the prefix ['dags/']
    the split has a second piece. *)
Lemma second_piece_exists file :
  startswith file (py "dags/") = true ->
  exists piece, nth_error (split_on 47 file) 1 = Some piece.
Proof.
  intros H. apply startswith_app in H. destruct H as (t & ->).
  destruct (split_on_first 47 t) as (p & ps & E & _).
  exists p. simpl. rewrite E. reflexivity.
Qed.

(** A path passes the test exactly when it is [dags/<dag_name>] or goes on
    below it, [dags/<dag_name>/...], the name holding no slash. *)
Lemma in_dag_dir_iff file dag_name :
  in_dag_dir file dag_name = true <->
  ~ In 47%N dag_name /\
  exists rest,
    file = py "dags/" ++ dag_name ++ rest /\
    (rest = [] \/ exists r, rest = 47%N :: r).
Proof.
  unfold in_dag_dir. rewrite andb_true_iff. split.
  - intros [Hs Hp]. apply startswith_app in Hs. destruct Hs as (t & ->).
    destruct (split_on_first 47 t) as (p & ps & E & Hno & Ht).
    simpl in Hp. rewrite E in Hp. simpl in Hp.
    apply pystr_eqb_eq in Hp. subst p. split; [exact Hno|].
    destruct Ht as [->|(r & ->)].
    + exists []. rewrite app_nil_r. auto.
    + exists (47%N :: r). split; [reflexivity | right; exists r; reflexivity].
  - intros (Hno & rest & -> & Hrest). split.
    + apply startswith_app. eexists. reflexivity.
    + destruct Hrest as [->|(r & ->)].
      * rewrite app_nil_r. simpl.
        rewrite (@split_on_no_sep 47%N dag_name Hno). simpl.
        apply pystr_eqb_eq. reflexivity.
      * simpl. rewrite (@split_on_app_sep 47%N dag_name r Hno). simpl.
        apply pystr_eqb_eq. reflexivity.
Qed.

Lemma check_changes_skip conforming rest dag_name w :
  (forall f, In f conforming -> in_dag_dir f dag_name = true) ->
  check_changes_in_dag_only (conforming ++ rest) dag_name w =
  check_changes_in_dag_only rest dag_name w.
Proof.
  induction conforming as [|f conforming IH]; intros H; [reflexivity|].
  simpl. rewrite (H f (or_introl eq_refl)). simpl.
  apply IH. intros f' Hf'. apply H. right. exact Hf'.
Qed.

Lemma check_changes_all_accepted files dag_name :
  forall w accepted later,
    stdin w = accepted ++ later ->
    length accepted = length (violations files dag_name) ->
    (forall r, In r accepted -> accepts r = true) ->
    check_changes_in_dag_only files dag_name w =
    (Ok true,
     {| stdin := later;
        events := events w ++
                  scope_inputs dag_name (violations files dag_name)
                               accepted |}).
Proof.
  unfold scope_inputs.
  induction files as [|f files IH]; intros w accepted later Hin Hl Hy.
  - destruct accepted; [|discriminate]. simpl in *.
    rewrite app_nil_r. destruct w; simpl in *; subst; reflexivity.
  - simpl in *. destruct (in_dag_dir f dag_name) eqn:Hf; simpl in *.
    + apply IH; auto.
    + destruct accepted as [|r accepted]; [discriminate|].
      simpl in Hl, Hin. injection Hl as Hl.
      unfold bind at 1. rewrite (prompt_if_continue_answer _ w _ _ Hin).
      rewrite (Hy r (or_introl eq_refl)).
      rewrite (IH _ accepted later); auto.
      * simpl. rewrite <- app_assoc. reflexivity.
      * intros r' Hr'. apply Hy. right. exact Hr'.
Qed.

Lemma check_changes_first_decline files dag_name :
  forall w accepted response later,
    stdin w = accepted ++ response :: later ->
    length accepted < length (violations files dag_name) ->
    (forall r, In r accepted -> accepts r = true) ->
    accepts response = false ->
    check_changes_in_dag_only files dag_name w =
    (Ok false,
     {| stdin := later;
        events := events w ++
                  scope_inputs dag_name (violations files dag_name)
                               (accepted ++ [response]) |}).
Proof.
  unfold scope_inputs.
  induction files as [|f files IH];
    intros w accepted response later Hin Hl Hy Hn.
  - simpl in Hl. lia.
  - simpl in *. destruct (in_dag_dir f dag_name) eqn:Hf; simpl in *.
    + apply IH; auto.
    + unfold bind at 1. destruct accepted as [|r accepted]; simpl in Hin.
      * rewrite (prompt_if_continue_answer _ w _ _ Hin), Hn.
        simpl. rewrite combine_nil. reflexivity.
      * rewrite (prompt_if_continue_answer _ w _ _ Hin).
        rewrite (Hy r (or_introl eq_refl)).
        rewrite (IH _ accepted response later); auto.
        -- simpl. rewrite <- app_assoc. reflexivity.
        -- simpl in Hl. lia.
        -- intros r' Hr'. apply Hy. right. exact Hr'.
Qed.

(** C4, as the code has it.  A list whose paths all pass the test (each is
    [dags/<dag_name>] or lies below it) validates with nothing asked.  The
    failing paths are asked about one by one, in order, up to the first no:
    a yes moves on to the next path, the first no ends the validation with
    false and leaves the remaining paths unasked; when every question is
    answered yes the validation succeeds. *)
Theorem check_changes_scan (dag_name : pystr) :
  (forall files w,
      (forall f, In f files -> in_dag_dir f dag_name = true) ->
      check_changes_in_dag_only files dag_name w = (Ok true, w)) /\
  (forall files w,
      ~ In 47%N dag_name ->
      (forall f, In f files ->
                 exists rest, f = py "dags/" ++ dag_name ++ 47%N :: rest) ->
      check_changes_in_dag_only files dag_name w = (Ok true, w)) /\
  (forall conforming file rest w response later,
      (forall f, In f conforming -> in_dag_dir f dag_name = true) ->
      in_dag_dir file dag_name = false ->
      stdin w = response :: later ->
      let w' := answered w (scope_question file dag_name) response later in
      (accepts response = true ->
       check_changes_in_dag_only (conforming ++ file :: rest) dag_name w =
       check_changes_in_dag_only rest dag_name w') /\
      (accepts response = false ->
       check_changes_in_dag_only (conforming ++ file :: rest) dag_name w =
       (Ok false, w'))) /\
  (forall files w accepted later,
      stdin w = accepted ++ later ->
      length accepted = length (violations files dag_name) ->
      (forall r, In r accepted -> accepts r = true) ->
      exists w',
        check_changes_in_dag_only files dag_name w = (Ok true, w') /\
        stdin w' = later /\
        events w' =
        events w ++ scope_inputs dag_name (violations files dag_name)
                                 accepted) /\
  (forall files w accepted response later,
      stdin w = accepted ++ response :: later ->
      length accepted < length (violations files dag_name) ->
      (forall r, In r accepted -> accepts r = true) ->
      accepts response = false ->
      exists w',
        check_changes_in_dag_only files dag_name w = (Ok false, w') /\
        stdin w' = later /\
        events w' =
        events w ++ scope_inputs dag_name (violations files dag_name)
                                 (accepted ++ [response])).
Proof.
  assert (forall files w,
      (forall f, In f files -> in_dag_dir f dag_name = true) ->
      check_changes_in_dag_only files dag_name w = (Ok true, w)) as Hall.
  { intros files w H.
    rewrite <- (app_nil_r files), check_changes_skip by exact H. reflexivity. }
  split; [exact Hall|]. split; [|split; [|split]].
  - intros files w Hno H. apply Hall. intros f Hf.
    destruct (H f Hf) as (rest & ->). apply in_dag_dir_iff.
    split; [exact Hno|]. exists (47%N :: rest).
    split; [reflexivity | right; exists rest; reflexivity].
  - intros conforming file rest w response later Hc Hf Hin w'.
    split; intros Hr; rewrite check_changes_skip by exact Hc; simpl;
      rewrite Hf; simpl; unfold bind at 1;
      rewrite (prompt_if_continue_answer _ w _ _ Hin), Hr; reflexivity.
  - intros files w accepted later Hin Hl Hy.
    eexists. split; [apply check_changes_all_accepted; eassumption|].
    split; reflexivity.
  - intros files w accepted response later Hin Hl Hy Hn.
    eexists. split; [apply check_changes_first_decline; eassumption|].
    split; reflexivity.
Qed.

(** ** The manifest mutator *)

Lemma dict_get_set_same k v d : dict_get k (dict_set k v d) = Some v.
Proof.
  induction d as [|[k' v'] d IH]; simpl.
  - assert (pystr_eqb k k = true) as -> by (apply pystr_eqb_eq; reflexivity).
    reflexivity.
  - destruct (pystr_eqb k' k) eqn:E; simpl; rewrite E; [reflexivity | exact IH].
Qed.

Lemma dict_get_set_other k k' v d :
  k' <> k -> dict_get k' (dict_set k v d) = dict_get k' d.
Proof.
  intros Hne. induction d as [|[k0 v0] d IH]; simpl.
  - destruct (pystr_eqb k k') eqn:E; [|reflexivity].
    apply pystr_eqb_eq in E. congruence.
  - destruct (pystr_eqb k0 k) eqn:E; simpl.
    + apply pystr_eqb_eq in E. subst k0.
      destruct (pystr_eqb k k') eqn:E'; [|reflexivity].
      apply pystr_eqb_eq in E'. congruence.
    + rewrite IH. reflexivity.
Qed.

Lemma dict_set_set k v v' d :
  dict_set k v (dict_set k v' d) = dict_set k v d.
Proof.
  induction d as [|[k0 v0] d IH]; simpl.
  - assert (pystr_eqb k k = true) as -> by (apply pystr_eqb_eq; reflexivity).
    reflexivity.
  - destruct (pystr_eqb k0 k) eqn:E; simpl; rewrite E; [reflexivity|].
    rewrite IH. reflexivity.
Qed.

Lemma dict_set_keys k v d :
  map fst (dict_set k v d) =
  match dict_get k d with
  | Some _ => map fst d
  | None => map fst d ++ [k]
  end.
Proof.
  induction d as [|[k0 v0] d IH]; simpl; [reflexivity|].
  destruct (pystr_eqb k0 k) eqn:E; simpl; [reflexivity|].
  rewrite IH. destruct (dict_get k d); reflexivity.
Qed.

(** What [set_dag_version] returns when it returns. *)
Lemma set_dag_version_ok data dag_name commit_hash data' :
  set_dag_version data dag_name commit_hash = Ok data' ->
  exists top version dags,
    data = JObject top /\
    dict_get (py "version") top = Some (JObject version) /\
    dict_get (py "dags") version = Some (JObject dags) /\
    data' =
    JObject
      (dict_set (py "version")
         (JObject
            (dict_set (py "dags")
               (JObject (dict_set dag_name (JString commit_hash) dags))
               version))
         top).
Proof.
  unfold set_dag_version, getitem, setitem, bind_result.
  destruct data as [| | | | | |top]; try discriminate.
  destruct (dict_get (py "version") top) as [v|] eqn:Ev; [|discriminate].
  destruct v as [| | | | | |version]; try discriminate.
  destruct (dict_get (py "dags") version) as [d|] eqn:Ed; [|discriminate].
  destruct d as [| | | | | |dags]; try discriminate.
  intros [= <-]. exists top, version, dags. auto.
Qed.

(** C8. Setting the hash of a DAG a second time changes nothing: on every
    document, the update applied twice gives what it gives applied once,
    the same document or the same exception. *)
Theorem set_dag_version_idempotent (data : json)
    (dag_name commit_hash : pystr) :
  bind_result (set_dag_version data dag_name commit_hash)
              (fun data' => set_dag_version data' dag_name commit_hash) =
  set_dag_version data dag_name commit_hash.
Proof.
  destruct (set_dag_version data dag_name commit_hash) as [data'|e] eqn:E;
    [|reflexivity].
  destruct (set_dag_version_ok _ _ _ _ E)
    as (top & version & dags & -> & Hv & Hd & ->).
  unfold bind_result, set_dag_version, getitem, setitem, bind_result.
  rewrite dict_get_set_same. rewrite dict_get_set_same.
  rewrite !dict_set_set. reflexivity.
Qed.

(** On a document that holds the dictionary [version.dags], the update
    succeeds and overwrites one entry: the target holds the hash, every
    other entry of [version.dags] and everything reached outside
    [version.dags] is as before, and the three dictionaries on the way keep
    their keys in order (the target key being appended when it is new). *)
Lemma set_dag_version_frame (data : json) (dags : list (pystr * json))
    (dag_name commit_hash : pystr) :
  lookup_path [py "version"; py "dags"] data = Some (JObject dags) ->
  exists data',
    set_dag_version data dag_name commit_hash = Ok data' /\
    lookup_path [py "version"; py "dags"; dag_name] data' =
      Some (JString commit_hash) /\
    (forall k path, k <> dag_name ->
       lookup_path (py "version" :: py "dags" :: k :: path) data' =
       lookup_path (py "version" :: py "dags" :: k :: path) data) /\
    (forall k path, k <> py "dags" ->
       lookup_path (py "version" :: k :: path) data' =
       lookup_path (py "version" :: k :: path) data) /\
    (forall k path, k <> py "version" ->
       lookup_path (k :: path) data' = lookup_path (k :: path) data) /\
    keys_at [] data' = keys_at [] data /\
    keys_at [py "version"] data' = keys_at [py "version"] data /\
    keys_at [py "version"; py "dags"] data' =
      Some (match dict_get dag_name dags with
            | Some _ => map fst dags
            | None => map fst dags ++ [dag_name]
            end).
Proof.
  intros H. cbn [lookup_path] in H.
  destruct data as [| | | | | |top]; try discriminate.
  destruct (dict_get (py "version") top) as [v|] eqn:Ev; [|discriminate].
  destruct v as [| | | | | |version]; try discriminate.
  destruct (dict_get (py "dags") version) as [d|] eqn:Ed; [|discriminate].
  injection H as ->.
  eexists. split.
  { unfold set_dag_version, getitem, setitem, bind_result.
    rewrite Ev, Ed. reflexivity. }
  unfold keys_at. cbn [lookup_path].
  rewrite !dict_get_set_same.
  repeat split.
  - intros k path Hk.
    rewrite (dict_get_set_other _ _ _ _ Hk), Ev, Ed. reflexivity.
  - intros k path Hk. rewrite (dict_get_set_other _ _ _ _ Hk), Ev. reflexivity.
  - intros k path Hk. rewrite (dict_get_set_other _ _ _ _ Hk). reflexivity.
  - rewrite dict_set_keys, Ev. reflexivity.
  - rewrite Ev, dict_set_keys, Ed. reflexivity.
  - rewrite dict_set_keys. reflexivity.
Qed.

(** ** Runs of the script *)

(** One step of a run: case analysis on the next call of the script. *)
Ltac run_step :=
  match goal with
  | |- context [log ?l ?r ?w] => destruct (log l r w) as [[[]|?] ?]
  | |- context [emit ?e ?w] => destruct (emit e w) as [[[]|?] ?]
  | |- context [print ?l ?w] => destruct (print l w) as [[[]|?] ?]
  | |- context [isfile ?p ?w] => destruct (isfile p w) as [[[]|?] ?]
  | |- context [git ?o ?w] => destruct (git o w) as [[[]|[]] ?]
  | |- context [load_json ?p ?w] => destruct (load_json p w) as [[?|?] ?]
  | |- context [find_commit ?l ?i ?a ?w] =>
      destruct (find_commit l i a w) as [[[?|]|?] ?]
  | |- context [check_changes_in_dag_only ?f ?d ?w] =>
      destruct (check_changes_in_dag_only f d w) as [[[]|?] ?]
  | |- context [set_dag_version ?d ?n ?h] =>
      destruct (set_dag_version d n h) as [?|?]
  end; cbn [assert negb ret raise]; try reflexivity.

Lemma main_cut args w :
  main args w =
  (target <- prelude args ;;
   match target with
   | Some commit_hash => deploy args commit_hash
   | None => ret tt
   end) w.
Proof.
  unfold main, prelude, deploy, deploy_path, deploy_branch, retry_notice,
    try_except_git, bind, lift.
  repeat run_step.
Qed.

Lemma grows_refl w : grows w w [].
Proof. unfold grows. rewrite app_nil_r. reflexivity. Qed.

Lemma grows_inj w w' evs1 evs2 :
  grows w w' evs1 -> grows w w' evs2 -> evs1 = evs2.
Proof.
  unfold grows. intros H1 H2. rewrite H1 in H2.
  exact (app_inv_head _ _ _ H2).
Qed.

Lemma grows_trans w w1 w2 evs1 evs2 :
  grows w w1 evs1 -> grows w1 w2 evs2 -> grows w w2 (evs1 ++ evs2).
Proof. unfold grows. intros H1 H2. rewrite H2, H1, app_assoc. reflexivity. Qed.

Lemma bind_inv {A B : Type} (m : M A) (k : A -> M B) w r w' :
  bind m k w = (r, w') ->
  (exists a w1, m w = (Ok a, w1) /\ k a w1 = (r, w')) \/
  (exists e, m w = (Raise e, w') /\ r = Raise e).
Proof.
  unfold bind. destruct (m w) as [[a|e] w1].
  - intros H. left. exists a, w1. auto.
  - intros [= <- <-]. right. exists e. auto.
Qed.

Lemma emit_inv e w r w' :
  emit e w = (r, w') -> r = Ok tt /\ grows w w' [e] /\ stdin w' = stdin w.
Proof. unfold emit, grows. intros [= <- <-]. auto. Qed.

Lemma git_inv op w r w' :
  git op w = (r, w') ->
  stdin w' = stdin w /\
  ((r = Ok tt /\ grows w w' [Git op true]) \/
   (r = Raise (git_exn op) /\ grows w w' [Git op false])).
Proof.
  unfold git, bind, emit, raise, grows.
  destruct (git_fails env (events w) op); intros [= <- <-]; auto.
Qed.

Lemma isfile_inv path w r w' :
  isfile path w = (r, w') ->
  stdin w' = stdin w /\
  exists found, r = Ok found /\ grows w w' [IsFile path found].
Proof.
  unfold isfile, bind, emit, ret, grows. intros [= <- <-]. eauto.
Qed.

Lemma load_json_inv path w r w' :
  load_json path w = (r, w') ->
  stdin w' = stdin w /\
  exists content,
    grows w w' [ReadFile path content] /\
    r = match content with
        | Some data => Ok data
        | None => Raise FileNotFoundError
        end.
Proof.
  unfold load_json, bind, emit, ret, raise, grows.
  destruct (file_json env (events w) path); intros [= <- <-];
    (split; [reflexivity|]); eexists; split; reflexivity.
Qed.

Lemma prompt_if_continue_inv message w r w' :
  prompt_if_continue message w = (r, w') ->
  exists response,
    grows w w' [Input (question message) response] /\
    r = match response with
        | Some line => Ok (accepts line)
        | None => Raise EOFError
        end.
Proof.
  destruct (stdin w) as [|line rest] eqn:E.
  - rewrite (prompt_if_continue_eof _ _ E). intros [= <- <-].
    exists None. unfold grows. auto.
  - rewrite (prompt_if_continue_answer _ _ _ _ E). intros [= <- <-].
    exists (Some line). unfold grows. auto.
Qed.

(** The locator only asks author questions. *)
Lemma find_commit_inv commits pull_request_id author_name :
  forall w r w',
    find_commit commits pull_request_id author_name w = (r, w') ->
    exists evs,
      grows w w' evs /\
      Forall (fun e => exists c response,
                  e = Input (author_question c author_name) response) evs.
Proof.
  induction commits as [|c commits IH]; intros w r w' H; simpl in H.
  - injection H as <- <-. exists []. split; [apply grows_refl | constructor].
  - destruct (check_commit (summary c) pull_request_id); [|eauto].
    destruct (negb (pystr_eqb (author c) author_name)).
    + apply bind_inv in H as [(go & w1 & E & H)|(e & E & ->)];
        apply prompt_if_continue_inv in E as (response & Hg & Hr).
      * destruct go.
        -- injection H as <- <-.
           exists [Input (author_question c author_name) response].
           split; [exact Hg | repeat constructor; eauto].
        -- destruct (IH _ _ _ H) as (evs & Hg' & Hall).
           exists ([Input (author_question c author_name) response] ++ evs).
           split; [exact (grows_trans _ _ _ _ _ Hg Hg') | constructor; eauto].
      * exists [Input (author_question c author_name) response].
        split; [exact Hg | repeat constructor; eauto].
    + injection H as <- <-. exists []. split; [apply grows_refl | constructor].
Qed.

(** The validator only asks scope questions, and an answer other than yes
    ends it with false. *)
Lemma check_changes_inv files dag_name :
  forall w r w',
    check_changes_in_dag_only files dag_name w = (r, w') ->
    exists evs,
      grows w w' evs /\
      Forall (fun e => exists f response,
                  e = Input (scope_question f dag_name) response) evs /\
      (forall q line, In (Input q (Some line)) evs ->
                      accepts line = false -> r = Ok false).
Proof.
  induction files as [|f files IH]; intros w r w' H; simpl in H.
  - injection H as <- <-. exists [].
    split; [apply grows_refl | split; [constructor | intros ? ? []]].
  - destruct (negb (in_dag_dir f dag_name)); [|eauto].
    apply bind_inv in H as [(go & w1 & E & H)|(e & E & ->)];
      apply prompt_if_continue_inv in E as (response & Hg & Hr).
    + destruct response as [line|]; [|discriminate]. injection Hr as ->.
      destruct (accepts line) eqn:Hy.
      * destruct (IH _ _ _ H) as (evs & Hg' & Hall & Hno).
        exists ([Input (scope_question f dag_name) (Some line)] ++ evs).
        split; [exact (grows_trans _ _ _ _ _ Hg Hg')|].
        split; [constructor; eauto|].
        intros q l [[= _ <-]|Hin] Hl; [congruence | eauto].
      * injection H as <- <-.
        exists [Input (scope_question f dag_name) (Some line)].
        split; [exact Hg|]. split; [repeat constructor; eauto | reflexivity].
    + destruct response as [line|]; [discriminate|].
      exists [Input (scope_question f dag_name) None].
      split; [exact Hg|]. split; [repeat constructor; eauto|].
      intros q l [[=]|[]].
Qed.

(** *** The first half *)

Lemma author_question_not_scope c author_name f dag_name :
  author_question c author_name <> scope_question f dag_name.
Proof.
  unfold author_question, scope_question, question. simpl. discriminate.
Qed.

Lemma Forall_impl_prelude (P : event -> Prop) evs :
  (forall e, P e -> prelude_event e = true) ->
  Forall P evs -> Forall (fun e => prelude_event e = true) evs.
Proof. intros H. apply Forall_impl. exact H. Qed.

Ltac pop H E :=
  let a := fresh "a" in
  let w1 := fresh "w" in
  let e := fresh "e" in
  apply bind_inv in H as [(a & w1 & E & H)|(e & E & ->)].

Ltac pop_as H E x :=
  let w1 := fresh "w" in
  let e := fresh "e" in
  apply bind_inv in H as [(x & w1 & E & H)|(e & E & ->)].

Ltac grows_chain :=
  repeat (eapply grows_trans; [eassumption|]); apply grows_refl.

(** Closes the side conditions of a stopped first half: its events are
    those of the first half, and no question among them was declined. *)
Ltac prelude_leaf :=
  eexists; split; [grows_chain|]; split;
  [ repeat (apply Forall_app; split);
    try (repeat constructor; reflexivity); try assumption
  | split;
    [ try discriminate
    | intros ? ? Hin Hno;
      repeat (apply in_app_or in Hin as [Hin|Hin]);
      try (destruct Hin as [Hin|[]]; discriminate Hin);
      try (destruct Hin as []) ] ].

Lemma prelude_inv args w r w' :
  prelude args w = (r, w') ->
  exists evs,
    grows w w' evs /\
    Forall (fun e => prelude_event e = true) evs /\
    (r = Ok None ->
     exists before, evs = before ++ [Log ERROR LogUserAborted]) /\
    (forall f line,
        In (Input (scope_question f (pr_dag_name args)) (Some line)) evs ->
        accepts line = false -> r = Ok None).
Proof.
  unfold prelude. intros H.
  pop H E1; apply emit_inv in E1 as (E1 & G1 & _); try discriminate.
  pop H E2; apply isfile_inv in E2 as (_ & found & E2 & G2); try discriminate.
  injection E2 as ->.
  pop H E3; [|destruct found; [discriminate|]; injection E3 as <- <-;
             prelude_leaf].
  destruct found; [|discriminate]. injection E3 as _ <-.
  pop H E4; apply git_inv in E4 as (_ & [[E4 G4]|[E4 G4]]); try discriminate;
    [|prelude_leaf].
  pop H E5; apply git_inv in E5 as (_ & [[E5 G5]|[E5 G5]]); try discriminate;
    [|prelude_leaf].
  pop H E5'; apply git_inv in E5' as (_ & [[E5' G5']|[E5' G5']]);
    try discriminate; [|prelude_leaf].
  pop H E6; apply git_inv in E6 as (_ & [[E6 G6]|[E6 G6]]); try discriminate;
    [|prelude_leaf].
  pop H E7; apply git_inv in E7 as (_ & [[E7 G7]|[E7 G7]]); try discriminate;
    [|prelude_leaf].
  assert (forall evs, Forall (fun e => exists c response,
              e = Input (author_question c (pr_author args)) response) evs ->
            Forall (fun e => prelude_event e = true) evs) as Hauthor.
  { intros evs. apply Forall_impl_prelude.
    intros e (c & response & ->). reflexivity. }
  assert (forall evs, Forall (fun e => exists f response,
              e = Input (scope_question f (pr_dag_name args)) response) evs ->
            Forall (fun e => prelude_event e = true) evs) as Hscope.
  { intros evs. apply Forall_impl_prelude.
    intros e (f & response & ->). reflexivity. }
  assert (forall evs f line,
            Forall (fun e => exists c response,
              e = Input (author_question c (pr_author args)) response) evs ->
            In (Input (scope_question f (pr_dag_name args)) (Some line)) evs ->
            False) as Hother.
  { intros evs f line Hall Hin. rewrite Forall_forall in Hall.
    destruct (Hall _ Hin) as (c & response & Heq).
    apply (@author_question_not_scope c (pr_author args) f (pr_dag_name args)).
    symmetry. exact (f_equal (fun e => match e with
                                       | Input q _ => q
                                       | _ => []
                                       end) Heq). }
  pop_as H E8 located; apply find_commit_inv in E8 as (asked & G8 & A8).
  2:{ prelude_leaf; eauto. exfalso; eauto. }
  destruct located as [commit|].
  2:{ injection H as <- <-. prelude_leaf; eauto. exfalso; eauto. }
  pop H E9; apply git_inv in E9 as (_ & [[E9 G9]|[E9 G9]]); try discriminate.
  2:{ prelude_leaf; eauto. exfalso; eauto. }
  pop_as H E10 valid;
    apply check_changes_inv in E10 as (scoped & G10 & A10 & D10).
  2:{ prelude_leaf; eauto; try (exfalso; eauto; fail).
      specialize (D10 _ _ Hin Hno). discriminate. }
  destruct valid; simpl in H.
  - injection H as <- <-. prelude_leaf; eauto; try (exfalso; eauto; fail).
    specialize (D10 _ _ Hin Hno). discriminate.
  - pop H E11; apply emit_inv in E11 as (E11 & G11 & _); try discriminate.
    injection H as <- <-.
    eexists. split; [grows_chain|]. split; [|split].
    + repeat (apply Forall_app; split);
        try (repeat constructor; reflexivity); eauto.
    + intros _. eexists. rewrite !app_assoc. rewrite app_nil_r. reflexivity.
    + reflexivity.
Qed.

Ltac during_tac :=
  unfold during;
  repeat first [ assumption
               | apply Forall_nil
               | apply Forall_cons; [reflexivity|]
               | apply Forall_app; split ].

Ltac stage_leaf syncing locating validating :=
  eexists; split; [grows_chain|];
  exists syncing, locating, validating;
  split; [simpl; rewrite ?app_nil_r, <- ?app_assoc; reflexivity|];
  repeat split; during_tac.

(** The events of the first half come in the order sync, location,
    validation. *)
Lemma prelude_stages args w r w' :
  prelude args w = (r, w') ->
  exists evs, grows w w' evs /\ early_stages evs.
Proof.
  unfold prelude, early_stages. intros H.
  pop H E1; apply emit_inv in E1 as (E1 & G1 & _); try discriminate.
  pop H E2; apply isfile_inv in E2 as (_ & found & E2 & G2); try discriminate.
  injection E2 as ->.
  pose (s1 := [Log INFO (LogArgs args); IsFile (deploy_path args) found]).
  pop H E3; [|destruct found; [discriminate|]; injection E3 as <- <-;
             stage_leaf s1 (@nil event) (@nil event)].
  destruct found; [|discriminate]. injection E3 as _ <-.
  pop H E4; apply git_inv in E4 as (_ & [[E4 G4]|[E4 G4]]); try discriminate;
    [|stage_leaf (s1 ++ [Git (GitRepo (repo_path args)) false])
                 (@nil event) (@nil event)].
  pose (s2 := s1 ++ [Git (GitRepo (repo_path args)) true]).
  pop H E5; apply git_inv in E5 as (_ & [[E5 G5]|[E5 G5]]); try discriminate;
    [|stage_leaf (s2 ++ [Git (GitCheckout (py "main")) false])
                 (@nil event) (@nil event)].
  pose (s3 := s2 ++ [Git (GitCheckout (py "main")) true]).
  pop H E5'; apply git_inv in E5' as (_ & [[E5' G5']|[E5' G5']]);
    try discriminate;
    [|stage_leaf (s3 ++ [Git (GitRemote (py "origin")) false])
                 (@nil event) (@nil event)].
  pose (s3' := s3 ++ [Git (GitRemote (py "origin")) true]).
  pop H E6; apply git_inv in E6 as (_ & [[E6 G6]|[E6 G6]]); try discriminate;
    [|stage_leaf (s3' ++ [Git GitPull false]) (@nil event) (@nil event)].
  pose (s4 := s3' ++ [Git GitPull true]).
  pop H E7; apply git_inv in E7 as (_ & [[E7 G7]|[E7 G7]]); try discriminate;
    [|stage_leaf s4 [Git (GitIterCommits (py "main") 10) false]
                 (@nil event)].
  pop_as H E8 located; apply find_commit_inv in E8 as (asked & G8 & A8);
    assert (during CommitLocated asked) as D8
      by (revert A8; apply Forall_impl;
          intros ? (c & response & ->); reflexivity);
    pose (l1 := Git (GitIterCommits (py "main") 10) true :: asked).
  2:{ stage_leaf s4 l1 (@nil event). }
  destruct located as [commit|].
  2:{ injection H as <- <-. stage_leaf s4 l1 (@nil event). }
  pop H E9; apply git_inv in E9 as (_ & [[E9 G9]|[E9 G9]]); try discriminate.
  2:{ stage_leaf s4 l1 [Git (GitStats (hexsha commit)) false]. }
  pop_as H E10 valid;
    apply check_changes_inv in E10 as (scoped & G10 & A10 & _);
    assert (during ScopeValidated scoped) as D10
      by (revert A10; apply Forall_impl;
          intros ? (f & response & ->); reflexivity).
  2:{ stage_leaf s4 l1 (Git (GitStats (hexsha commit)) true :: scoped). }
  destruct valid; simpl in H.
  - injection H as <- <-.
    stage_leaf s4 l1 (Git (GitStats (hexsha commit)) true :: scoped).
  - pop H E11; apply emit_inv in E11 as (E11 & G11 & _); try discriminate.
    injection H as <- <-.
    stage_leaf s4 l1 (Git (GitStats (hexsha commit)) true ::
                      scoped ++ [Log ERROR LogUserAborted]).
Qed.

(** *** The second half *)

Lemma attempt_inv args commit_hash w r w' :
  (git (GitAdd (deploy_path args)) ;;
   git (GitCommit (commit_subject args) (commit_body args commit_hash))) w
  = (r, w') ->
  exists evs committed,
    grows w w' evs /\
    attempt_trace args commit_hash committed evs /\
    r = if committed then Ok tt else Raise GitCommandError.
Proof.
  intros H.
  pop H E; apply git_inv in E as (_ & [[E G]|[E G]]); try discriminate.
  - apply git_inv in H as (_ & [[-> G']|[-> G']]).
    + eexists _, true. split; [grows_chain|].
      split; [constructor | reflexivity].
    + eexists _, false. split; [grows_chain|].
      split; [constructor | reflexivity].
  - injection E as ->. eexists _, false.
    split; [grows_chain|]. split; [constructor | reflexivity].
Qed.

Lemma retry_inv args commit_hash w r w' :
  try_except_git
    (git (GitAdd (deploy_path args)) ;;
     git (GitCommit (commit_subject args) (commit_body args commit_hash)))
    (print retry_notice ;;
     git (GitAdd (deploy_path args)) ;;
     git (GitCommit (commit_subject args) (commit_body args commit_hash))) w
  = (r, w') ->
  exists evs committed,
    grows w w' evs /\
    retry_trace args commit_hash committed evs /\
    r = if committed then Ok tt else Raise GitCommandError.
Proof.
  unfold try_except_git.
  destruct ((git (GitAdd (deploy_path args)) ;;
             git (GitCommit (commit_subject args)
                            (commit_body args commit_hash))) w)
    as [r1 w1] eqn:E1.
  apply attempt_inv in E1 as (first & [|] & G1 & T1 & ->).
  - intros [= <- <-]. exists first, true.
    split; [exact G1|]. split; [constructor; exact T1 | reflexivity].
  - intros H. pop H E; apply emit_inv in E as (E & G & _); try discriminate.
    apply attempt_inv in H as (second & committed & G2 & T2 & ->).
    exists (first ++ Print retry_notice :: second), committed.
    split; [|split; [econstructor; eassumption | reflexivity]].
    apply (grows_trans _ _ _ _ _ G1). apply (grows_trans _ _ _ _ _ G G2).
Qed.

Lemma deploy_inv args commit_hash w r w' :
  deploy args commit_hash w = (r, w') ->
  exists evs, grows w w' evs /\ deploy_trace args commit_hash r evs.
Proof.
  unfold deploy. intros H.
  pop H E1; apply git_inv in E1 as (_ & [[E1 G1]|[E1 G1]]); try discriminate;
    [|injection E1 as ->; eexists; split; [grows_chain | constructor]].
  pop H E2; apply git_inv in E2 as (_ & [[E2 G2]|[E2 G2]]); try discriminate;
    [|injection E2 as ->; eexists; split; [grows_chain | constructor]].
  pop H E3; apply emit_inv in E3 as (E3 & G3 & _); try discriminate.
  pop H E4; apply load_json_inv in E4 as (_ & content & G4 & E4).
  2:{ destruct content; [discriminate|]. injection E4 as ->.
      eexists; split; [grows_chain | apply deploy_no_manifest]. }
  destruct content as [data|]; [|discriminate]. injection E4 as ->.
  unfold bind at 1, lift in H.
  destruct (set_dag_version data (pr_dag_name args) commit_hash)
    as [data'|e] eqn:Eset.
  2:{ injection H as <- <-.
      eexists; split; [grows_chain | apply deploy_bad_manifest; exact Eset]. }
  pop H E5; apply emit_inv in E5 as (E5 & G5 & _); try discriminate.
  pop H E6; apply emit_inv in E6 as (E6 & G6 & _); try discriminate.
  pop H E7; apply emit_inv in E7 as (E7 & G7 & _); try discriminate.
  pop H E8; apply retry_inv in E8 as (tries & committed & G8 & T & E8).
  2:{ destruct committed; [discriminate|]. injection E8 as ->.
      exists (branch_cut args ++
              manifest_rewrite args commit_hash data data' ++ tries).
      split; [|eapply deploy_commit_fails; eassumption].
      unfold grows in *. rewrite G8, G7, G6, G5, G4, G3, G2, G1.
      simpl. rewrite <- !app_assoc. reflexivity. }
  destruct committed; [|discriminate].
  pop H E9; apply emit_inv in E9 as (E9 & G9 & _); try discriminate.
  pop H E10; apply git_inv in E10 as (_ & [[E10 G10]|[E10 G10]]);
    try discriminate.
  - apply emit_inv in H as (-> & G11 & _).
    eexists. split; [|eapply deploy_pushed; eassumption].
    unfold grows in *. rewrite G11, G10, G9, G8, G7, G6, G5, G4, G3, G2, G1.
    simpl. rewrite <- !app_assoc. reflexivity.
  - injection E10 as ->.
    eexists. split; [|eapply deploy_push_fails; eassumption].
    unfold grows in *. rewrite G10, G9, G8, G7, G6, G5, G4, G3, G2, G1.
    simpl. rewrite <- !app_assoc. reflexivity.
Qed.

(** *** Whole runs *)

Lemma main_inv args w r w' :
  main args w = (r, w') ->
  exists evs, grows w w' evs /\ main_trace args r evs.
Proof.
  rewrite main_cut. intros H.
  assert (forall rp evs,
             (forall f line,
                 In (Input (scope_question f (pr_dag_name args)) (Some line))
                    evs ->
                 accepts line = false -> rp = Ok (None : option pystr)) ->
             rp <> Ok None -> none_declined args evs) as Hnd.
  { intros rp evs Hd Hrp f line Hin.
    destruct (accepts line) eqn:E; [reflexivity|].
    exfalso. exact (Hrp (Hd _ _ Hin E)). }
  pop_as H E target;
    pose proof (prelude_stages _ _ _ _ E) as (evs1' & G1' & S1);
    apply prelude_inv in E as (evs1 & G1 & P1 & A1 & D1);
    rewrite (grows_inj _ _ _ _ G1' G1) in S1.
  - destruct target as [commit_hash|].
    + apply deploy_inv in H as (evs2 & G2 & T2).
      exists (evs1 ++ evs2). split; [exact (grows_trans _ _ _ _ _ G1 G2)|].
      eapply main_deployed; eauto. eapply Hnd; [exact D1 | discriminate].
    + injection H as <- <-. destruct (A1 eq_refl) as (before & ->).
      exists (before ++ [Log ERROR LogUserAborted]). split; [exact G1|].
      apply main_aborted; [|exact S1]. apply Forall_app in P1. tauto.
  - exists evs1. split; [exact G1|].
    apply main_stopped; [exact P1 | exact S1 |].
    eapply Hnd; [exact D1 | discriminate].
Qed.

Lemma main_run args w r w' evs :
  main args w = (r, w') -> grows w w' evs -> main_trace args r evs.
Proof.
  intros Hrun Hg. apply main_inv in Hrun as (evs0 & Hg0 & T).
  rewrite (grows_inj _ _ _ _ Hg Hg0). exact T.
Qed.

Lemma filter_all {A : Type} (f : A -> bool) l :
  Forall (fun x => f x = true) l -> filter f l = l.
Proof.
  induction 1 as [|x l Hx _ IH]; simpl; [reflexivity|].
  rewrite Hx, IH. reflexivity.
Qed.

Lemma filter_none {A : Type} (f : A -> bool) l :
  Forall (fun x => f x = false) l -> filter f l = [].
Proof.
  induction 1 as [|x l Hx _ IH]; simpl; [reflexivity|].
  rewrite Hx, IH. reflexivity.
Qed.

Lemma prelude_In evs e :
  Forall (fun e => prelude_event e = true) evs -> In e evs ->
  prelude_event e = true.
Proof. intros H. rewrite Forall_forall in H. apply H. Qed.

Lemma prelude_not_commit_phase evs :
  Forall (fun e => prelude_event e = true) evs ->
  Forall (fun e => commit_phase e = false) evs.
Proof.
  apply Forall_impl. intros [lvl []| |[]| | | | |] H; try reflexivity;
    discriminate H.
Qed.

Lemma attempt_commit_phase args commit_hash committed evs :
  attempt_trace args commit_hash committed evs ->
  Forall (fun e => commit_phase e = true) evs.
Proof. destruct 1; repeat constructor. Qed.

Lemma retry_commit_phase args commit_hash committed evs :
  retry_trace args commit_hash committed evs ->
  Forall (fun e => commit_phase e = true) evs.
Proof.
  destruct 1 as [evs T|first second committed T1 T2].
  - exact (attempt_commit_phase _ _ _ _ T).
  - apply Forall_app. split; [exact (attempt_commit_phase _ _ _ _ T1)|].
    constructor; [reflexivity | exact (attempt_commit_phase _ _ _ _ T2)].
Qed.

Lemma retry_In args commit_hash committed evs e :
  retry_trace args commit_hash committed evs -> In e evs ->
  commit_phase e = true.
Proof.
  intros T. pose proof (retry_commit_phase _ _ _ _ T) as H.
  rewrite Forall_forall in H. apply H.
Qed.

(** An element that is not in the first of two lists splits the second. *)
Lemma app_split_right {A : Type} (l1 l2 pre post : list A) x :
  l1 ++ l2 = pre ++ x :: post -> ~ In x l1 ->
  exists pre2, pre = l1 ++ pre2 /\ l2 = pre2 ++ x :: post.
Proof.
  revert pre. induction l1 as [|a l1 IH]; intros pre H Hx; simpl in *.
  - exists pre. auto.
  - destruct pre as [|b pre]; simpl in H.
    + injection H as -> _. exfalso. apply Hx. left. reflexivity.
    + injection H as -> H.
      destruct (IH pre H) as (pre2 & -> & ->); [tauto|].
      exists pre2. auto.
Qed.

Ltac in_cases H :=
  repeat (apply in_app_or in H as [H|H]);
  repeat (destruct H as [H|H]; [try discriminate H|]);
  try (exfalso; exact H).

Ltac retry_absurd :=
  match goal with
  | T : retry_trace _ _ _ ?tries, H : In _ ?tries |- _ =>
      eapply retry_In in H; [|exact T]; discriminate H
  end.

Lemma deploy_trace_no_input args commit_hash r evs q response :
  deploy_trace args commit_hash r evs -> ~ In (Input q response) evs.
Proof.
  intros T Hin.
  destruct T; unfold branch_cut, manifest_rewrite in Hin; in_cases Hin;
    retry_absurd.
Qed.

Lemma deploy_trace_write args commit_hash r evs pre path data post :
  deploy_trace args commit_hash r evs ->
  evs = pre ++ WriteFile path data :: post ->
  exists between,
    pre = Git (GitCreateHead (deploy_branch args)) true ::
          Git (GitCheckout (deploy_branch args)) true :: between.
Proof.
  intros T Heq.
  destruct T; unfold branch_cut, manifest_rewrite in Heq;
    destruct pre as [|y [|z between]]; simpl in Heq; try discriminate Heq;
    try (injection Heq as <- <- _; eexists; reflexivity);
    injection Heq as _ _ Heq; destruct between; discriminate Heq.
Qed.

Lemma deploy_trace_read args commit_hash r evs path data :
  deploy_trace args commit_hash r evs ->
  In (ReadFile path (Some data)) evs ->
  (exists data',
      set_dag_version data (pr_dag_name args) commit_hash = Ok data') \/
  (exists e, set_dag_version data (pr_dag_name args) commit_hash = Raise e /\
             r = Raise e /\
             evs = branch_cut args ++ [ReadFile path (Some data)]).
Proof.
  intros T Hin.
  destruct T; unfold branch_cut, manifest_rewrite in Hin; in_cases Hin;
    try retry_absurd;
    injection Hin as <- <-; eauto.
Qed.

Lemma deploy_trace_written args commit_hash r evs path data' :
  deploy_trace args commit_hash r evs ->
  In (WriteFile path data') evs ->
  path = deploy_path args /\
  exists data,
    In (ReadFile path (Some data)) evs /\
    set_dag_version data (pr_dag_name args) commit_hash = Ok data'.
Proof.
  intros T Hin.
  destruct T; unfold branch_cut, manifest_rewrite in *; in_cases Hin;
    try retry_absurd;
    injection Hin as <- <-; (split; [reflexivity|]); eexists;
    (split; [|eassumption]); simpl; auto.
Qed.

Lemma deploy_trace_manifest args commit_hash r evs pre e post :
  deploy_trace args commit_hash r evs ->
  manifest_event e = true ->
  evs = pre ++ e :: post ->
  exists between,
    pre = Git (GitCreateHead (deploy_branch args)) true ::
          Git (GitCheckout (deploy_branch args)) true :: between.
Proof.
  intros T He Heq.
  destruct T; unfold branch_cut, manifest_rewrite in Heq;
    destruct pre as [|y [|z between]]; simpl in Heq;
    try (injection Heq as <-; discriminate He);
    try (injection Heq as _ <-; discriminate He);
    try (injection Heq as <- <- _; eexists; reflexivity);
    try discriminate Heq;
    injection Heq as _ _ Heq; destruct between; discriminate Heq.
Qed.

Lemma retry_during args commit_hash committed evs :
  retry_trace args commit_hash committed evs -> during Committed evs.
Proof.
  intros T. apply retry_commit_phase in T. revert T.
  apply Forall_impl. intros [lvl []| |[]| | | | |] H; try reflexivity;
    discriminate H.
Qed.

Ltac stages :=
  repeat split;
  try (simpl; rewrite <- ?app_assoc; reflexivity);
  try (repeat constructor; fail);
  try (apply Forall_app; split; [eapply retry_during; eassumption|]);
  repeat constructor.

(** The events of the second half fall into four consecutive stretches. *)
Lemma deploy_trace_stages args commit_hash r evs :
  deploy_trace args commit_hash r evs ->
  exists branch manifest commit push,
    evs = branch ++ manifest ++ commit ++ push /\
    during BranchCreated branch /\
    during ManifestUpdated manifest /\
    during Committed commit /\
    during Pushed push.
Proof.
  intros T. destruct T as [| | |data e Hset|data data' tries Hset R
                           |data data' tries Hset R|data data' tries Hset R].
  - exists [Git (GitCreateHead (deploy_branch args)) false], [], [], [].
    stages.
  - exists [Git (GitCreateHead (deploy_branch args)) true;
            Git (GitCheckout (deploy_branch args)) false], [], [], [].
    stages.
  - exists (branch_cut args), [ReadFile (deploy_path args) None], [], [].
    stages.
  - exists (branch_cut args), [ReadFile (deploy_path args) (Some data)], [], [].
    stages.
  - exists (branch_cut args),
      (manifest_rewrite args commit_hash data data'), tries, [].
    rewrite app_nil_r. stages; eapply retry_during; eassumption.
  - exists (branch_cut args),
      (manifest_rewrite args commit_hash data data'),
      (tries ++ [Log INFO LogCommitted]),
      [Git (GitPush (py "origin") (deploy_branch args)) false].
    stages.
  - exists (branch_cut args),
      (manifest_rewrite args commit_hash data data'),
      (tries ++ [Log INFO LogCommitted]),
      [Git (GitPush (py "origin") (deploy_branch args)) true;
       Log INFO (LogPushed (deploy_branch args))].
    stages.
Qed.

(** C5, as the code has it.  The events of every run fall into seven
    consecutive stretches, in this order: the sync, the location of the
    commit, the scope validation, the creation of the deploy branch, the
    update of the manifest, the commit, the push.  So the deploy branch is
    created and checked out before the manifest is read, removed or written:
    whatever event touches the manifest has the two successful branch calls,
    one right after the other, somewhere before it. *)
Theorem branch_before_manifest (args : Args) (w w' : World)
    (r : result unit) (evs : list event) :
  main args w = (r, w') ->
  grows w w' evs ->
  (exists syncing locating validating branch manifest commit push,
      evs = syncing ++ locating ++ validating ++
            branch ++ manifest ++ commit ++ push /\
      during Synced syncing /\
      during CommitLocated locating /\
      during ScopeValidated validating /\
      during BranchCreated branch /\
      during ManifestUpdated manifest /\
      during Committed commit /\
      during Pushed push) /\
  (forall pre e post,
      manifest_event e = true ->
      evs = pre ++ e :: post ->
      exists before between,
        pre = before ++
              Git (GitCreateHead (deploy_branch args)) true ::
              Git (GitCheckout (deploy_branch args)) true :: between).
Proof.
  intros Hrun Hg.
  pose proof (main_run _ _ _ _ _ Hrun Hg) as T.
  split.
  { destruct T as [x evs P S _|before P S|commit_hash r evs1 evs2 P S _ T].
    - destruct S as (syncing & locating & validating & -> & Hs & Hl & Hv).
      exists syncing, locating, validating, [], [], [], [].
      rewrite !app_nil_r. repeat split; try assumption; constructor.
    - destruct S as (syncing & locating & validating & -> & Hs & Hl & Hv).
      exists syncing, locating, validating, [], [], [], [].
      rewrite !app_nil_r. repeat split; try assumption; constructor.
    - destruct S as (syncing & locating & validating & -> & Hs & Hl & Hv).
      destruct (deploy_trace_stages _ _ _ _ T)
        as (branch & manifest & commit & push & -> & Hb & Hm & Hc & Hp).
      exists syncing, locating, validating, branch, manifest, commit, push.
      rewrite <- !app_assoc. repeat split; assumption. }
  intros pre e post He Heq.
  assert (forall l, Forall (fun e => prelude_event e = true) l -> ~ In e l)
    as Hout.
  { intros l Hl Hin. eapply prelude_In in Hin; [|exact Hl].
    destruct e; try discriminate He; discriminate Hin. }
  destruct T as [x evs P S _|before P S|commit_hash r evs1 evs2 P S _ T].
  - exfalso. apply (Hout _ P). rewrite Heq. apply in_elt.
  - exfalso. assert (In e (before ++ [Log ERROR LogUserAborted])) as Hin
      by (rewrite Heq; apply in_elt).
    apply in_app_or in Hin as [Hin|[<-|[]]];
      [exact (Hout _ P Hin) | discriminate He].
  - destruct (app_split_right _ _ _ _ _ Heq (Hout _ P)) as (pre2 & -> & Heq2).
    destruct (deploy_trace_manifest _ _ _ _ _ _ _ T He Heq2) as (between & ->).
    exists evs1, between. reflexivity.
Qed.

(** A declined scope question ends the run in the first half. *)
Lemma declined_run (args : Args) (w w' : World)
    (r : result unit) (evs : list event) :
  main args w = (r, w') ->
  grows w w' evs ->
  (exists file line,
      In (Input (scope_question file (pr_dag_name args)) (Some line)) evs /\
      accepts line = false) ->
  r = Ok tt /\
  (exists before, evs = before ++ [Log ERROR LogUserAborted]) /\
  Forall (fun e => prelude_event e = true) evs.
Proof.
  intros Hrun Hg (file & line & Hin & Hno).
  pose proof (main_run _ _ _ _ _ Hrun Hg) as T.
  destruct T as [x evs P S D|before P S|commit_hash r evs1 evs2 P S D T].
  - rewrite (D _ _ Hin) in Hno. discriminate.
  - split; [reflexivity|]. split; [eexists; reflexivity|].
    apply Forall_app. split; [exact P | repeat constructor].
  - exfalso. apply in_app_or in Hin as [Hin|Hin].
    + rewrite (D _ _ Hin) in Hno. discriminate.
    + exact (deploy_trace_no_input _ _ _ _ _ _ T Hin).
Qed.

Lemma retry_first_attempt args commit_hash committed tries rest :
  retry_trace args commit_hash committed tries ->
  tries = Git (GitAdd (deploy_path args)) true ::
          Git (GitCommit (commit_subject args)
                         (commit_body args commit_hash)) true :: rest ->
  rest = [].
Proof.
  intros T Heq. destruct T as [evs T|first second committed T1 T2].
  - rewrite Heq in T. inversion T. reflexivity.
  - inversion T1; subst; simpl in Heq; discriminate Heq.
Qed.

(** Of the events that stage and commit the manifest a run has none, or
    one attempt that went through and nothing more, or a failed attempt,
    the notice, and exactly one more attempt. *)
Lemma commit_phase_shape (args : Args) (w w' : World)
    (r : result unit) (evs : list event) :
  main args w = (r, w') ->
  grows w w' evs ->
  filter commit_phase evs = [] \/
  exists commit_hash committed,
    retry_trace args commit_hash committed (filter commit_phase evs) /\
    (forall rest,
        filter commit_phase evs =
        Git (GitAdd (deploy_path args)) true ::
        Git (GitCommit (commit_subject args)
                       (commit_body args commit_hash)) true :: rest ->
        rest = []) /\
    (committed = false ->
     r = Raise GitCommandError /\
     forall remote branch returned,
       ~ In (Git (GitPush remote branch) returned) evs).
Proof.
  intros Hrun Hg.
  pose proof (main_run _ _ _ _ _ Hrun Hg) as T.
  destruct T as [x evs P S _|before P S|commit_hash r evs1 evs2 P S _ T].
  - left. apply filter_none, prelude_not_commit_phase, P.
  - left. rewrite filter_app, (filter_none _ _ (prelude_not_commit_phase _ P)).
    reflexivity.
  - rewrite filter_app, (filter_none _ _ (prelude_not_commit_phase _ P)). simpl.
    destruct T as [| | |data e Hset|data data' tries Hset R
                   |data data' tries Hset R|data data' tries Hset R];
      try (left; reflexivity);
      right; unfold branch_cut, manifest_rewrite;
      rewrite ?filter_app; simpl;
      rewrite (filter_all _ _ (retry_commit_phase _ _ _ _ R)), ?app_nil_r;
      eexists commit_hash, _; (split; [exact R|]);
      (split; [intros rest; exact (retry_first_attempt _ _ _ _ rest R)|]);
      try discriminate.
    intros _. split; [reflexivity|]. intros remote branch returned Hin.
    apply in_app_or in Hin as [Hin|Hin].
    + eapply prelude_In in Hin; [|exact P]. discriminate Hin.
    + in_cases Hin. retry_absurd.
Qed.

(** C9. The update overwrites one entry of a document that holds the
    dictionary [version.dags]: it succeeds, the target holds the hash, every
    other entry of [version.dags] and everything reached outside
    [version.dags] is as before, and the dictionaries on the way keep their
    keys in order (the target key is appended when it is new).  And what a
    run writes to the manifest is this update of what it read there. *)
Theorem manifest_rewrite_frame :
  (forall data dags dag_name commit_hash,
      lookup_path [py "version"; py "dags"] data = Some (JObject dags) ->
      exists data',
        set_dag_version data dag_name commit_hash = Ok data' /\
        lookup_path [py "version"; py "dags"; dag_name] data' =
          Some (JString commit_hash) /\
        (forall k path, k <> dag_name ->
           lookup_path (py "version" :: py "dags" :: k :: path) data' =
           lookup_path (py "version" :: py "dags" :: k :: path) data) /\
        (forall k path, k <> py "dags" ->
           lookup_path (py "version" :: k :: path) data' =
           lookup_path (py "version" :: k :: path) data) /\
        (forall k path, k <> py "version" ->
           lookup_path (k :: path) data' = lookup_path (k :: path) data) /\
        keys_at [] data' = keys_at [] data /\
        keys_at [py "version"] data' = keys_at [py "version"] data /\
        keys_at [py "version"; py "dags"] data' =
          Some (match dict_get dag_name dags with
                | Some _ => map fst dags
                | None => map fst dags ++ [dag_name]
                end)) /\
  (forall args w w' r evs path data',
      main args w = (r, w') ->
      grows w w' evs ->
      In (WriteFile path data') evs ->
      path = deploy_path args /\
      exists data commit_hash,
        In (ReadFile path (Some data)) evs /\
        set_dag_version data (pr_dag_name args) commit_hash = Ok data').
Proof.
  split; [exact set_dag_version_frame|].
  intros args w w' r evs path data' Hrun Hg Hin.
  pose proof (main_run _ _ _ _ _ Hrun Hg) as T.
  destruct T as [x evs P S _|before P S|commit_hash r evs1 evs2 P S _ T].
  - eapply prelude_In in Hin; [|exact P]. discriminate Hin.
  - apply in_app_or in Hin as [Hin|[Hin|[]]]; [|discriminate Hin].
    eapply prelude_In in Hin; [|exact P]. discriminate Hin.
  - apply in_app_or in Hin as [Hin|Hin].
    + eapply prelude_In in Hin; [|exact P]. discriminate Hin.
    + destruct (deploy_trace_written _ _ _ _ _ _ T Hin)
        as (-> & data & Hr & Hset).
      split; [reflexivity|]. exists data, commit_hash.
      split; [apply in_or_app; right; exact Hr | exact Hset].
Qed.

Lemma manifest_fault_raises data e dag_name commit_hash :
  manifest_fault data e ->
  set_dag_version data dag_name commit_hash = Raise e.
Proof.
  unfold set_dag_version, getitem, bind_result.
  intros [top Hv|top version Hv Hd|d Hnot|top v Hv Hnot].
  - rewrite Hv. reflexivity.
  - rewrite Hv, Hd. reflexivity.
  - destruct d; try reflexivity. exfalso. exact (Hnot _ eq_refl).
  - rewrite Hv. destruct v; try reflexivity. exfalso. exact (Hnot _ eq_refl).
Qed.

(** C10, as the code has it.  When [version.dags] cannot be reached in the
    manifest a run reads, the run ends with the exception of line 112:
    [KeyError] when the manifest has no key [version] or its [version]
    dictionary has no key [dags], [TypeError] when the manifest or its
    [version] entry is not a dictionary.  By then the deploy branch has been
    created and checked out, and reading the manifest is the last thing the
    run does. *)
Theorem missing_key_after_branch (args : Args) (w w' : World)
    (r : result unit) (evs : list event) (path : pystr) (data : json)
    (e : exn) :
  main args w = (r, w') ->
  grows w w' evs ->
  In (ReadFile path (Some data)) evs ->
  manifest_fault data e ->
  r = Raise e /\
  exists before,
    Forall (fun e => prelude_event e = true) before /\
    evs = before ++ branch_cut args ++ [ReadFile path (Some data)].
Proof.
  intros Hrun Hg Hin Hfault.
  pose proof (main_run _ _ _ _ _ Hrun Hg) as T.
  destruct T as [x evs P S _|before P S|commit_hash r evs1 evs2 P S _ T].
  - eapply prelude_In in Hin; [|exact P]. discriminate Hin.
  - apply in_app_or in Hin as [Hin|[Hin|[]]]; [|discriminate Hin].
    eapply prelude_In in Hin; [|exact P]. discriminate Hin.
  - apply in_app_or in Hin as [Hin|Hin].
    + eapply prelude_In in Hin; [|exact P]. discriminate Hin.
    + destruct (deploy_trace_read _ _ _ _ _ _ T Hin)
        as [(data' & Hset)|(e' & Hset & -> & ->)];
        rewrite (manifest_fault_raises _ _ (pr_dag_name args) commit_hash
                   Hfault) in Hset;
        [discriminate Hset|].
      injection Hset as <-. split; [reflexivity|].
      exists evs1. split; [exact P | reflexivity].
Qed.

(** *** The window of the locator *)






(** ** Further properties *)

(** *** Identifiers and the matcher *)

Lemma uint_cps_inj a : forall b, uint_cps a = uint_cps b -> a = b.
Proof.
  induction a as [|a IH|a IH|a IH|a IH|a IH|a IH|a IH|a IH|a IH|a IH];
    intros [|b|b|b|b|b|b|b|b|b|b] H; simpl in H;
    try discriminate H; try reflexivity;
    injection H as H; f_equal; exact (IH _ H).
Qed.

Lemma uint_cps_no_minus d tl : uint_cps d <> 45%N :: tl.
Proof. destruct d; simpl; discriminate. Qed.

Lemma str_int_inj a b : str_int a = str_int b -> a = b.
Proof.
  unfold str_int. intros H.
  rewrite <- (DecimalZ.of_to a), <- (DecimalZ.of_to b).
  destruct (Z.to_int a) as [da|da], (Z.to_int b) as [db|db].
  - rewrite (uint_cps_inj _ _ H). reflexivity.
  - exfalso. exact (uint_cps_no_minus _ _ H).
  - exfalso. exact (uint_cps_no_minus _ _ (eq_sym H)).
  - injection H as H. rewrite (uint_cps_inj _ _ H). reflexivity.
Qed.

(** X1. A message names at most one pull request: when [check_commit]
    answers true for two identifiers on the same message, they are the same
    identifier. *)
Theorem check_commit_one_id (message : pystr) (a b : Z) :
  check_commit message a = true ->
  check_commit message b = true ->
  a = b.
Proof.
  unfold check_commit. destruct (findall message) as [|g tl]; [discriminate|].
  intros Ha Hb. apply pystr_eqb_eq in Ha, Hb.
  apply str_int_inj. rewrite <- Ha. exact Hb.
Qed.

(** X2. Where the minus sign is no digit, as in Unicode, a negative
    identifier matches no message: [str] puts a minus sign in front, and
    group 1 of the pattern holds digits only. *)
Theorem check_commit_negative (message : pystr) (pull_request_id : Z) :
  is_decimal 45 = false ->
  (pull_request_id < 0)%Z ->
  check_commit message pull_request_id = false.
Proof.
  intros Hminus Hneg. unfold check_commit.
  pose proof (findall_head message) as H.
  destruct (findall message) as [|g tl]; [reflexivity|].
  destruct (pystr_eqb g (str_int pull_request_id)) eqn:E; [|reflexivity].
  apply pystr_eqb_eq in E. exfalso.
  destruct H as (i & (_ & Hd & _) & _).
  destruct pull_request_id as [|p|p]; try discriminate Hneg.
  unfold str_int in E. simpl in E. subst g.
  inversion Hd as [|? ? H45 _]. rewrite H45 in Hminus. discriminate Hminus.
Qed.

(** *** Paths *)

(** X3. The test of line 76 never runs off the split (no [IndexError]), and
    a path passes it exactly when it is [dags/<dag_name>] or goes on below
    it, [dags/<dag_name>/...], for a name without a slash.  In particular the
    file [dags/<dag_name>] itself passes, and with a name that holds a slash
    no path passes. *)
Theorem in_dag_dir_paths (file dag_name : pystr) :
  (startswith file (py "dags/") = true ->
   exists piece, nth_error (split_on 47 file) 1 = Some piece) /\
  (in_dag_dir file dag_name = true <->
   ~ In 47%N dag_name /\
   exists rest,
     file = py "dags/" ++ dag_name ++ rest /\
     (rest = [] \/ exists r, rest = 47%N :: r)) /\
  (In 47%N dag_name -> in_dag_dir file dag_name = false).
Proof.
  split; [exact (second_piece_exists file)|].
  split; [exact (in_dag_dir_iff file dag_name)|].
  intros Hslash. destruct (in_dag_dir file dag_name) eqn:E; [|reflexivity].
  apply in_dag_dir_iff in E. destruct E as [Hno _]. contradiction.
Qed.

(** *** The locator, from its result *)

Lemma candidates_cons c commits pull_request_id :
  candidates (c :: commits) pull_request_id =
  if check_commit (summary c) pull_request_id
  then c :: candidates commits pull_request_id
  else candidates commits pull_request_id.
Proof. reflexivity. Qed.

(** X4. What a found commit tells.  It stands in the list and its summary
    names the pull request; every commit before it that names the pull
    request has another author and was declined, at one line of input each;
    and either its author is the expected one and nothing more was asked, or
    it was asked about and the answer was yes. *)
Theorem find_commit_found (commits : list Commit) (pull_request_id : Z)
    (author_name : pystr) :
  forall (w w' : World) (c : Commit),
    find_commit commits pull_request_id author_name w = (Ok (Some c), w') ->
    exists before after declined,
      commits = before ++ c :: after /\
      check_commit (summary c) pull_request_id = true /\
      (forall x, In x (candidates before pull_request_id) ->
                 author x <> author_name) /\
      length declined = length (candidates before pull_request_id) /\
      (forall r, In r declined -> accepts r = false) /\
      ((author c = author_name /\
        stdin w = declined ++ stdin w' /\
        events w' =
        events w ++
        author_inputs author_name (candidates before pull_request_id)
                      declined) \/
       (author c <> author_name /\
        exists yes,
          accepts yes = true /\
          stdin w = declined ++ yes :: stdin w' /\
          events w' =
          events w ++
          author_inputs author_name
            (candidates before pull_request_id ++ [c]) (declined ++ [yes]))).
Proof.
  induction commits as [|x commits IH]; intros w w' c H; simpl in H.
  - discriminate H.
  - destruct (check_commit (summary x) pull_request_id) eqn:Hx.
    + destruct (pystr_eqb (author x) author_name) eqn:Ha; simpl in H.
      * injection H as <- <-. apply pystr_eqb_eq in Ha.
        exists [], commits, []. repeat split; auto; try (intros ? []).
        left. repeat split; auto. simpl. rewrite app_nil_r. reflexivity.
      * assert (author x <> author_name) as Hne
          by (intros E; apply pystr_eqb_eq in E; congruence).
        unfold bind at 1 in H.
        destruct (stdin w) as [|line rest] eqn:Hin.
        { rewrite (prompt_if_continue_eof _ _ Hin) in H. discriminate H. }
        rewrite (prompt_if_continue_answer _ _ _ _ Hin) in H.
        destruct (accepts line) eqn:Hy.
        -- injection H as <- <-.
           exists [], commits, []. repeat split; auto; try (intros ? []).
           right. split; [exact Hne|]. exists line. repeat split; auto.
        -- destruct (IH _ _ _ H)
             as (before & after & declined & -> & Hc & Hb & Hl & Hd & Hev).
           exists (x :: before), after, (line :: declined).
           rewrite candidates_cons, Hx. simpl.
           split; [reflexivity|]. split; [exact Hc|].
           split; [intros y [<-|Hy']; auto|].
           split; [f_equal; exact Hl|].
           split; [intros r [<-|Hr]; auto|].
           destruct Hev as [(Ha' & Hs & He)|(Ha' & yes & Hyes & Hs & He)].
           ++ left. split; [exact Ha'|]. split; [f_equal; exact Hs|].
              rewrite He. simpl. rewrite <- app_assoc. reflexivity.
           ++ right. split; [exact Ha'|]. exists yes.
              split; [exact Hyes|]. split; [f_equal; exact Hs|].
              rewrite He. simpl. rewrite <- app_assoc. reflexivity.
    + destruct (IH _ _ _ H)
        as (before & after & declined & -> & Hc & Hb & Hl & Hd & Hev).
      exists (x :: before), after, declined.
      rewrite candidates_cons, Hx. repeat split; auto.
Qed.

(** X5. What [None] tells: every commit that names the pull request has
    another author and was asked about, in order, each question took one
    line of input, and every answer was a no. *)
Theorem find_commit_not_found (commits : list Commit) (pull_request_id : Z)
    (author_name : pystr) :
  forall (w w' : World),
    find_commit commits pull_request_id author_name w = (Ok None, w') ->
    (forall x, In x (candidates commits pull_request_id) ->
               author x <> author_name) /\
    exists declined,
      stdin w = declined ++ stdin w' /\
      length declined = length (candidates commits pull_request_id) /\
      (forall r, In r declined -> accepts r = false) /\
      events w' =
      events w ++
      author_inputs author_name (candidates commits pull_request_id) declined.
Proof.
  induction commits as [|x commits IH]; intros w w' H; simpl in H.
  - injection H as <-. split; [intros ? []|].
    exists []. simpl. rewrite app_nil_r. repeat split; auto. intros ? [].
  - rewrite candidates_cons.
    destruct (check_commit (summary x) pull_request_id) eqn:Hx; [|eauto].
    destruct (pystr_eqb (author x) author_name) eqn:Ha; simpl in H;
      [discriminate H|].
    assert (author x <> author_name) as Hne
      by (intros E; apply pystr_eqb_eq in E; congruence).
    unfold bind at 1 in H.
    destruct (stdin w) as [|line rest] eqn:Hin.
    { rewrite (prompt_if_continue_eof _ _ Hin) in H. discriminate H. }
    rewrite (prompt_if_continue_answer _ _ _ _ Hin) in H.
    destruct (accepts line) eqn:Hy; [discriminate H|].
    destruct (IH _ _ H) as (Hb & declined & Hs & Hl & Hd & He).
    split; [intros y [<-|Hy']; auto|].
    exists (line :: declined). simpl in Hs. simpl.
    split; [f_equal; exact Hs|]. split; [f_equal; exact Hl|].
    split; [intros r [<-|Hr]; auto|].
    rewrite He. simpl. rewrite <- app_assoc. reflexivity.
Qed.

(** X6. The only way [find_commit] raises is [EOFError]: the input ran out
    at a question.  Then every line there was has been taken as a no to the
    commits asked about before, and the open question is about the next
    commit that names the pull request. *)
Theorem find_commit_raises (commits : list Commit) (pull_request_id : Z)
    (author_name : pystr) :
  forall (w w' : World) (e : exn),
    find_commit commits pull_request_id author_name w = (Raise e, w') ->
    e = EOFError /\
    stdin w' = [] /\
    (forall r, In r (stdin w) -> accepts r = false) /\
    exists c,
      nth_error (candidates commits pull_request_id) (length (stdin w)) =
      Some c /\
      author c <> author_name /\
      events w' =
      events w ++
      author_inputs author_name (candidates commits pull_request_id)
                    (stdin w) ++
      [Input (author_question c author_name) None].
Proof.
  induction commits as [|x commits IH]; intros w w' e H; simpl in H.
  - discriminate H.
  - rewrite candidates_cons.
    destruct (check_commit (summary x) pull_request_id) eqn:Hx; [|eauto].
    destruct (pystr_eqb (author x) author_name) eqn:Ha; simpl in H;
      [discriminate H|].
    assert (author x <> author_name) as Hne
      by (intros E; apply pystr_eqb_eq in E; congruence).
    unfold bind at 1 in H.
    destruct (stdin w) as [|line rest] eqn:Hin.
    + rewrite (prompt_if_continue_eof _ _ Hin) in H.
      injection H as <- <-. repeat split; auto; try (intros ? []).
      exists x. repeat split; auto.
    + rewrite (prompt_if_continue_answer _ _ _ _ Hin) in H.
      destruct (accepts line) eqn:Hy; [discriminate H|].
      destruct (IH _ _ _ H) as (-> & Hs & Hd & c & Hn & Hc & He).
      simpl in Hn, Hd, He.
      repeat split; auto; [intros r [<-|Hr]; auto|].
      exists c. repeat split; auto.
      rewrite He. simpl. rewrite <- app_assoc. reflexivity.
Qed.

(** X7. Scanning a list in two parts: the second part is scanned, from the
    world the first part left, only when the first part gave [None]. *)
Theorem find_commit_app (first second : list Commit) (pull_request_id : Z)
    (author_name : pystr) (w : World) :
  find_commit (first ++ second) pull_request_id author_name w =
  match find_commit first pull_request_id author_name w with
  | (Ok None, w1) => find_commit second pull_request_id author_name w1
  | other => other
  end.
Proof.
  revert w. induction first as [|x first IH]; intros w; simpl; [reflexivity|].
  destruct (check_commit (summary x) pull_request_id); [|apply IH].
  destruct (negb (pystr_eqb (author x) author_name)); [|reflexivity].
  unfold bind.
  destruct (prompt_if_continue _ w) as [[[]|e] w1]; try reflexivity.
  apply IH.
Qed.

(** *** The validator, from its result *)

Lemma violations_cons f files dag_name :
  violations (f :: files) dag_name =
  if in_dag_dir f dag_name then violations files dag_name
  else f :: violations files dag_name.
Proof.
  unfold violations. simpl. destruct (in_dag_dir f dag_name); reflexivity.
Qed.

Lemma scope_inputs_cons dag_name f files r answers :
  scope_inputs dag_name (f :: files) (r :: answers) =
  Input (scope_question f dag_name) (Some r) ::
  scope_inputs dag_name files answers.
Proof. reflexivity. Qed.

(** X8. What the verdict tells.  After [True] every path that fails the
    test was asked about, in order, at one line of input each, and every
    answer was a yes.  After [False] the questions stop at the first no:
    the paths behind it were not asked about and their lines are still in
    the input. *)
Theorem check_changes_verdict (files : list pystr) (dag_name : pystr) :
  forall (w w' : World) (verdict : bool),
    check_changes_in_dag_only files dag_name w = (Ok verdict, w') ->
    exists accepted,
      (forall r, In r accepted -> accepts r = true) /\
      if verdict then
        stdin w = accepted ++ stdin w' /\
        length accepted = length (violations files dag_name) /\
        events w' =
        events w ++
        scope_inputs dag_name (violations files dag_name) accepted
      else
        exists no,
          accepts no = false /\
          stdin w = accepted ++ no :: stdin w' /\
          length accepted < length (violations files dag_name) /\
          events w' =
          events w ++
          scope_inputs dag_name (violations files dag_name)
                       (accepted ++ [no]).
Proof.
  induction files as [|f files IH]; intros w w' verdict H; simpl in H.
  - injection H as <- <-. exists []. split; [intros ? []|].
    simpl. rewrite app_nil_r. auto.
  - rewrite violations_cons.
    destruct (in_dag_dir f dag_name) eqn:Hf; simpl in H; [eauto|].
    unfold bind at 1 in H.
    destruct (stdin w) as [|line rest] eqn:Hin.
    { rewrite (prompt_if_continue_eof _ _ Hin) in H. discriminate H. }
    rewrite (prompt_if_continue_answer _ _ _ _ Hin) in H.
    destruct (accepts line) eqn:Hy.
    + destruct (IH _ _ _ H) as (accepted & Hall & Hv). simpl in Hv.
      exists (line :: accepted). split; [intros r [<-|Hr]; auto|].
      destruct verdict.
      * destruct Hv as (Hs & Hl & He).
        split; [simpl; f_equal; exact Hs|]. split; [simpl; f_equal; exact Hl|].
        rewrite He. simpl. rewrite <- app_assoc. reflexivity.
      * destruct Hv as (no & Hno & Hs & Hl & He). exists no.
        split; [exact Hno|]. split; [simpl; f_equal; exact Hs|].
        split; [simpl; lia|].
        rewrite He. simpl. rewrite <- app_assoc. reflexivity.
    + injection H as <- <-. exists []. split; [intros ? []|].
      exists line. unfold scope_inputs. simpl. rewrite combine_nil.
      repeat split; auto. lia.
Qed.

(** X9. The only way the validator raises is [EOFError]: the input ran out
    at a question.  Then every line there was has been taken as a yes to
    the paths asked about before, and the open question is about the next
    path that fails the test. *)
Theorem check_changes_raises (files : list pystr) (dag_name : pystr) :
  forall (w w' : World) (e : exn),
    check_changes_in_dag_only files dag_name w = (Raise e, w') ->
    e = EOFError /\
    stdin w' = [] /\
    (forall r, In r (stdin w) -> accepts r = true) /\
    exists f,
      nth_error (violations files dag_name) (length (stdin w)) = Some f /\
      events w' =
      events w ++
      scope_inputs dag_name (violations files dag_name) (stdin w) ++
      [Input (scope_question f dag_name) None].
Proof.
  induction files as [|f files IH]; intros w w' e H; simpl in H.
  - discriminate H.
  - rewrite violations_cons.
    destruct (in_dag_dir f dag_name) eqn:Hf; simpl in H; [eauto|].
    unfold bind at 1 in H.
    destruct (stdin w) as [|line rest] eqn:Hin.
    + rewrite (prompt_if_continue_eof _ _ Hin) in H.
      injection H as <- <-. repeat split; auto; try (intros ? []).
      exists f. split; reflexivity.
    + rewrite (prompt_if_continue_answer _ _ _ _ Hin) in H.
      destruct (accepts line) eqn:Hy; [|discriminate H].
      destruct (IH _ _ _ H) as (-> & Hs & Hd & f' & Hn & He).
      simpl in Hn, Hd, He.
      repeat split; auto; [intros r [<-|Hr]; auto|].
      exists f'. split; [exact Hn|].
      rewrite He. simpl. rewrite <- app_assoc. reflexivity.
Qed.

(** X10. Validating a list in two parts: the second part is validated, from
    the world the first part left, only when the first part gave [True]. *)
Theorem check_changes_app (first second : list pystr) (dag_name : pystr)
    (w : World) :
  check_changes_in_dag_only (first ++ second) dag_name w =
  match check_changes_in_dag_only first dag_name w with
  | (Ok true, w1) => check_changes_in_dag_only second dag_name w1
  | other => other
  end.
Proof.
  revert w. induction first as [|f first IH]; intros w; simpl; [reflexivity|].
  destruct (negb (in_dag_dir f dag_name)); [|apply IH].
  unfold bind.
  destruct (prompt_if_continue _ w) as [[[]|e] w1]; try reflexivity.
  apply IH.
Qed.

(** *** Runs, step by step *)

(** The locator and the validator use the world through the prompts only:
    events that happened before change nothing but the record. *)
Lemma prompt_if_continue_moved message w pre :
  prompt_if_continue message
    {| stdin := stdin w; events := pre ++ events w |} =
  (fst (prompt_if_continue message w),
   {| stdin := stdin (snd (prompt_if_continue message w));
      events := pre ++ events (snd (prompt_if_continue message w)) |}).
Proof.
  destruct (stdin w) as [|line rest] eqn:E.
  - rewrite (prompt_if_continue_eof message w E).
    rewrite (prompt_if_continue_eof message
               {| stdin := []; events := pre ++ events w |} eq_refl).
    simpl. rewrite app_assoc. reflexivity.
  - rewrite (prompt_if_continue_answer message w _ _ E).
    rewrite (prompt_if_continue_answer message
               {| stdin := line :: rest; events := pre ++ events w |}
               line rest eq_refl).
    simpl. rewrite app_assoc. reflexivity.
Qed.

Lemma find_commit_moved commits pull_request_id author_name pre :
  forall w,
    find_commit commits pull_request_id author_name
      {| stdin := stdin w; events := pre ++ events w |} =
    (fst (find_commit commits pull_request_id author_name w),
     {| stdin :=
          stdin (snd (find_commit commits pull_request_id author_name w));
        events :=
          pre ++
          events (snd (find_commit commits pull_request_id author_name w))
     |}).
Proof.
  induction commits as [|c commits IH]; intros w; simpl; [reflexivity|].
  destruct (check_commit (summary c) pull_request_id); [|apply IH].
  destruct (negb (pystr_eqb (author c) author_name)); [|reflexivity].
  unfold bind. rewrite prompt_if_continue_moved.
  destruct (prompt_if_continue _ w) as [[[]|e] w1]; simpl; try reflexivity.
  apply IH.
Qed.

Lemma check_changes_moved files dag_name pre :
  forall w,
    check_changes_in_dag_only files dag_name
      {| stdin := stdin w; events := pre ++ events w |} =
    (fst (check_changes_in_dag_only files dag_name w),
     {| stdin := stdin (snd (check_changes_in_dag_only files dag_name w));
        events :=
          pre ++ events (snd (check_changes_in_dag_only files dag_name w))
     |}).
Proof.
  induction files as [|f files IH]; intros w; simpl; [reflexivity|].
  destruct (negb (in_dag_dir f dag_name)); [|apply IH].
  unfold bind. rewrite prompt_if_continue_moved.
  destruct (prompt_if_continue _ w) as [[[]|e] w1]; simpl; try reflexivity.
  apply IH.
Qed.

Lemma find_commit_alone commits pull_request_id author_name w r w' :
  find_commit commits pull_request_id author_name w = (r, w') ->
  exists asked,
    find_commit commits pull_request_id author_name (typed (stdin w)) =
      (r, {| stdin := stdin w'; events := asked |}) /\
    grows w w' asked.
Proof.
  intros H.
  pose proof (find_commit_moved commits pull_request_id author_name
                (events w) (typed (stdin w))) as Hm.
  simpl in Hm. rewrite app_nil_r in Hm.
  replace {| stdin := stdin w; events := events w |} with w in Hm
    by (destruct w; reflexivity).
  rewrite H in Hm.
  destruct (find_commit commits pull_request_id author_name (typed (stdin w)))
    as [r0 [rest asked]].
  simpl in Hm. injection Hm as -> ->.
  exists asked. split; reflexivity.
Qed.

Lemma check_changes_alone files dag_name w r w' :
  check_changes_in_dag_only files dag_name w = (r, w') ->
  exists scoped,
    check_changes_in_dag_only files dag_name (typed (stdin w)) =
      (r, {| stdin := stdin w'; events := scoped |}) /\
    grows w w' scoped.
Proof.
  intros H.
  pose proof (check_changes_moved files dag_name (events w)
                (typed (stdin w))) as Hm.
  simpl in Hm. rewrite app_nil_r in Hm.
  replace {| stdin := stdin w; events := events w |} with w in Hm
    by (destruct w; reflexivity).
  rewrite H in Hm.
  destruct (check_changes_in_dag_only files dag_name (typed (stdin w)))
    as [r0 [rest scoped]].
  simpl in Hm. injection Hm as -> ->.
  exists scoped. split; reflexivity.
Qed.

Ltac shape_leaf c :=
  eexists; split; [|c];
  unfold grows in *;
  repeat match goal with
         | G : events _ = _ |- _ => rewrite G; clear G
         end;
  unfold sync_events, listing; simpl; rewrite <- ?app_assoc; reflexivity.

Lemma prelude_shape args w r w' :
  prelude args w = (r, w') ->
  exists evs, grows w w' evs /\ prelude_trace args (stdin w) r evs.
Proof.
  unfold prelude. intros H.
  pop H E1; apply emit_inv in E1 as (E1 & G1 & S1); try discriminate.
  pop H E2; apply isfile_inv in E2 as (S2 & found & E2 & G2); try discriminate.
  injection E2 as ->.
  pop H E3.
  2:{ destruct found; [discriminate|]. injection E3 as <- <-.
      shape_leaf ltac:(apply prelude_no_file). }
  destruct found; [|discriminate]. injection E3 as _ <-.
  pop H E4; apply git_inv in E4 as (S4 & [[E4 G4]|[E4 G4]]); try discriminate.
  2:{ injection E4 as ->. shape_leaf ltac:(apply prelude_repo_fails). }
  pop H E5; apply git_inv in E5 as (S5 & [[E5 G5]|[E5 G5]]); try discriminate.
  2:{ injection E5 as ->. shape_leaf ltac:(apply prelude_checkout_fails). }
  pop H E5'; apply git_inv in E5' as (S5' & [[E5' G5']|[E5' G5']]);
    try discriminate.
  2:{ injection E5' as ->. shape_leaf ltac:(apply prelude_remote_fails). }
  pop H E6; apply git_inv in E6 as (S6 & [[E6 G6]|[E6 G6]]); try discriminate.
  2:{ injection E6 as ->. shape_leaf ltac:(apply prelude_pull_fails). }
  pop H E7; apply git_inv in E7 as (S7 & [[E7 G7]|[E7 G7]]); try discriminate.
  2:{ injection E7 as ->. shape_leaf ltac:(apply prelude_listing_fails). }
  assert (stdin w6 = stdin w) as Hlines by congruence.
  pop_as H E8 located;
    apply find_commit_alone in E8 as (asked & E8 & G8);
    rewrite Hlines in E8.
  2:{ shape_leaf ltac:(eapply prelude_locator_raises; exact E8). }
  destruct located as [commit|].
  2:{ injection H as <- <-.
      shape_leaf ltac:(eapply prelude_not_found; exact E8). }
  pop H E9; apply git_inv in E9 as (S9 & [[E9 G9]|[E9 G9]]); try discriminate.
  2:{ injection E9 as ->.
      shape_leaf ltac:(eapply prelude_stats_fail; exact E8). }
  pop_as H E10 valid;
    apply check_changes_alone in E10 as (scoped & E10 & G10);
    rewrite S9 in E10.
  2:{ shape_leaf ltac:(eapply prelude_validator_raises; [exact E8|exact E10]). }
  destruct valid; simpl in H.
  - injection H as <- <-.
    shape_leaf ltac:(eapply prelude_validated; [exact E8|exact E10]).
  - pop H E11; apply emit_inv in E11 as (E11 & G11 & _); try discriminate.
    injection H as <- <-.
    shape_leaf ltac:(eapply prelude_declined; [exact E8|exact E10]).
Qed.

Lemma main_shaped args w r w' evs :
  main args w = (r, w') -> grows w w' evs ->
  main_shape args (stdin w) r evs.
Proof.
  rewrite main_cut. intros H Hg.
  pop_as H E target; apply prelude_shape in E as (evs1 & G1 & T1).
  - destruct target as [commit_hash|].
    + apply deploy_inv in H as (evs2 & G2 & T2).
      rewrite (grows_inj _ _ _ _ Hg (grows_trans _ _ _ _ _ G1 G2)).
      eapply main_second_half; eassumption.
    + injection H as <- <-. rewrite (grows_inj _ _ _ _ Hg G1).
      apply main_ended. exact T1.
  - rewrite (grows_inj _ _ _ _ Hg G1). apply main_first_half. exact T1.
Qed.

(** *** Whole runs, from what they did *)

Lemma find_commit_some commits pull_request_id author_name :
  forall w c w',
    find_commit commits pull_request_id author_name w = (Ok (Some c), w') ->
    In c commits /\
    check_commit (summary c) pull_request_id = true /\
    (author c = author_name \/
     exists line evs,
       grows w w' evs /\
       In (Input (author_question c author_name) (Some line)) evs /\
       accepts line = true).
Proof.
  induction commits as [|x commits IH]; intros w c w' H; simpl in H.
  - discriminate H.
  - destruct (check_commit (summary x) pull_request_id) eqn:Hx.
    + destruct (pystr_eqb (author x) author_name) eqn:Ha; simpl in H.
      * injection H as <- <-. apply pystr_eqb_eq in Ha.
        split; [left; reflexivity|]. split; [exact Hx|]. left. exact Ha.
      * apply bind_inv in H as [(go & w1 & E & H)|(e' & E & Hr)];
          [|discriminate Hr].
        apply prompt_if_continue_inv in E as (response & Hg & Hr).
        destruct response as [line|]; [|discriminate Hr].
        injection Hr as ->. destruct (accepts line) eqn:Hy.
        -- injection H as <- <-.
           split; [left; reflexivity|]. split; [exact Hx|]. right.
           exists line, [Input (author_question x author_name) (Some line)].
           split; [exact Hg|]. split; [left; reflexivity | exact Hy].
        -- destruct (IH _ _ _ H) as (Hin & Hc & Hauthor).
           split; [right; exact Hin|]. split; [exact Hc|].
           destruct Hauthor as [Hauthor|(l & evs & Hg' & Hl & Hyes)];
             [left; exact Hauthor|].
           right. exists l, ([Input (author_question x author_name)
                                    (Some line)] ++ evs).
           split; [exact (grows_trans _ _ _ _ _ Hg Hg')|].
           split; [apply in_or_app; right; exact Hl | exact Hyes].
    + destruct (IH _ _ _ H) as (Hin & Hc & Hauthor).
      split; [right; exact Hin|]. split; [exact Hc | exact Hauthor].
Qed.

Lemma asked_inputs commits pull_request_id author_name lines r rest asked e :
  find_commit commits pull_request_id author_name (typed lines) =
    (r, {| stdin := rest; events := asked |}) ->
  In e asked ->
  exists c response, e = Input (author_question c author_name) response.
Proof.
  intros H Hin. apply find_commit_inv in H as (evs & Hg & Hall).
  unfold grows in Hg. simpl in Hg. subst asked.
  rewrite Forall_forall in Hall. exact (Hall _ Hin).
Qed.

Lemma scoped_inputs files dag_name lines r rest scoped e :
  check_changes_in_dag_only files dag_name (typed lines) =
    (r, {| stdin := rest; events := scoped |}) ->
  In e scoped ->
  exists f response, e = Input (scope_question f dag_name) response.
Proof.
  intros H Hin. apply check_changes_inv in H as (evs & Hg & Hall & _).
  unfold grows in Hg. simpl in Hg. subst scoped.
  rewrite Forall_forall in Hall. exact (Hall _ Hin).
Qed.

(** Case analysis on membership in the events of a run. *)
Ltac in_split H :=
  unfold sync_events, listing, branch_cut, manifest_rewrite in H;
  repeat first [ apply in_app_or in H as [H|H]
               | destruct H as [H|H]; [try discriminate H|] ];
  try (exfalso; exact H).

Ltac not_asked :=
  match goal with
  | E : find_commit _ _ _ _ = (_, {| stdin := _; events := ?l |}),
    H : In _ ?l |- _ =>
      destruct (asked_inputs _ _ _ _ _ _ _ _ E H) as (? & ? & Hq);
      discriminate Hq
  | E : check_changes_in_dag_only _ _ _ = (_, {| stdin := _; events := ?l |}),
    H : In _ ?l |- _ =>
      destruct (scoped_inputs _ _ _ _ _ _ _ E H) as (? & ? & Hq);
      discriminate Hq
  end.

Lemma deploy_trace_no_isfile args commit_hash r evs path found :
  deploy_trace args commit_hash r evs -> ~ In (IsFile path found) evs.
Proof.
  intros T Hin. destruct T; in_split Hin; retry_absurd.
Qed.

(** X11. A run that finds no file at the manifest's path stops there: with
    the failed assertion, before the repository is opened and before any
    call to the backend. *)
Theorem missing_manifest_stops_first (args : Args) (w w' : World)
    (r : result unit) (evs : list event) (path : pystr) :
  main args w = (r, w') ->
  grows w w' evs ->
  In (IsFile path false) evs ->
  r = Raise (AssertionError (py "Deploy file not found")) /\
  evs = [Log INFO (LogArgs args); IsFile (deploy_path args) false].
Proof.
  intros H Hg Hin.
  pose proof (main_shaped _ _ _ _ _ H Hg) as T.
  inversion T as [e' evs' P|evs' P|h r' evs1 evs2 P D]; subst.
  - inversion P; subst; try (split; reflexivity);
      in_split Hin; not_asked.
  - inversion P; subst. in_split Hin; not_asked.
  - apply in_app_or in Hin as [Hin|Hin];
      [|exfalso; exact (deploy_trace_no_isfile _ _ _ _ _ _ D Hin)].
    inversion P; subst. in_split Hin; not_asked.
Qed.

Lemma prelude_trace_failure args lines r evs op :
  prelude_trace args lines r evs ->
  In (Git op false) evs ->
  r = Raise (git_exn op) /\ exists before, evs = before ++ [Git op false].
Proof.
  intros T Hin.
  destruct T; in_split Hin; try not_asked; injection Hin as <-;
    (split; [reflexivity|]).
  - exists [Log INFO (LogArgs args); IsFile (deploy_path args) true].
    reflexivity.
  - exists [Log INFO (LogArgs args); IsFile (deploy_path args) true;
            Git (GitRepo (repo_path args)) true].
    reflexivity.
  - exists [Log INFO (LogArgs args); IsFile (deploy_path args) true;
            Git (GitRepo (repo_path args)) true;
            Git (GitCheckout (py "main")) true].
    reflexivity.
  - exists [Log INFO (LogArgs args); IsFile (deploy_path args) true;
            Git (GitRepo (repo_path args)) true;
            Git (GitCheckout (py "main")) true;
            Git (GitRemote (py "origin")) true].
    reflexivity.
  - exists (sync_events args). reflexivity.
  - exists (sync_events args ++ listing :: asked).
    rewrite <- app_assoc. reflexivity.
Qed.

Lemma deploy_trace_failure args commit_hash r evs op :
  deploy_trace args commit_hash r evs ->
  In (Git op false) evs ->
  commit_phase (Git op false) = false ->
  r = Raise (git_exn op) /\ exists before, evs = before ++ [Git op false].
Proof.
  intros T Hin Hc.
  destruct T; in_split Hin;
    try (eapply retry_In in Hin; [|eassumption]; congruence);
    injection Hin as <-; (split; [reflexivity|]).
  - exists []. reflexivity.
  - exists [Git (GitCreateHead (deploy_branch args)) true]. reflexivity.
  - exists (branch_cut args ++ manifest_rewrite args commit_hash data data' ++
            tries ++ [Log INFO LogCommitted]).
    rewrite <- !app_assoc. reflexivity.
Qed.

(** X12. A call to the backend that fails anywhere but in staging and
    committing ends the run on the spot: the run raises the exception of
    that call ([git_exn]: [InvalidGitRepositoryError] for opening the
    repository, [AttributeError] for the lookup of the remote, [OSError] for
    creating the branch, [GitCommandError] for the calls that run a git
    command) and does nothing after it. *)
Theorem backend_failure_ends_run (args : Args) (w w' : World)
    (r : result unit) (evs : list event) (op : git_op) :
  main args w = (r, w') ->
  grows w w' evs ->
  In (Git op false) evs ->
  commit_phase (Git op false) = false ->
  r = Raise (git_exn op) /\ exists before, evs = before ++ [Git op false].
Proof.
  intros H Hg Hin Hc.
  pose proof (main_shaped _ _ _ _ _ H Hg) as T.
  inversion T as [e' evs' P|evs' P|h r' evs1 evs2 P D]; subst.
  - destruct (prelude_trace_failure _ _ _ _ _ P Hin) as [Hr Hlast].
    injection Hr as ->. split; [reflexivity | exact Hlast].
  - destruct (prelude_trace_failure _ _ _ _ _ P Hin) as [Hr _].
    discriminate Hr.
  - apply in_app_or in Hin as [Hin|Hin].
    + destruct (prelude_trace_failure _ _ _ _ _ P Hin) as [Hr _].
      discriminate Hr.
    + destruct (deploy_trace_failure _ _ _ _ _ D Hin Hc)
        as (Hr & before & ->).
      split; [exact Hr|]. exists (evs1 ++ before). apply app_assoc.
Qed.

Lemma retry_body args commit_hash committed tries subject body returned :
  retry_trace args commit_hash committed tries ->
  In (Git (GitCommit subject body) returned) tries ->
  subject = commit_subject args /\ body = commit_body args commit_hash.
Proof.
  intros R Hin.
  destruct R as [evs T|first second committed T1 T2].
  - inversion T; subst; in_split Hin. injection Hin as <- <- _. auto.
  - apply in_app_or in Hin as [Hin|[Hin|Hin]]; [|discriminate Hin|].
    + inversion T1; subst; in_split Hin. injection Hin as <- <- _. auto.
    + inversion T2; subst; in_split Hin; injection Hin as <- <- _; auto.
Qed.

Lemma retry_ends args commit_hash tries :
  retry_trace args commit_hash true tries ->
  exists before,
    tries =
    before ++
    [Git (GitAdd (deploy_path args)) true;
     Git (GitCommit (commit_subject args) (commit_body args commit_hash))
         true].
Proof.
  intros R. inversion R as [evs T|first second committed T1 T2]; subst.
  - inversion T; subst. exists []. reflexivity.
  - inversion T2; subst. exists (first ++ [Print retry_notice]).
    rewrite <- app_assoc. reflexivity.
Qed.

Lemma prelude_trace_In args lines r evs e :
  prelude_trace args lines r evs -> In e evs -> prelude_event e = true.
Proof.
  intros T Hin.
  destruct T; in_split Hin; subst; try reflexivity;
    match goal with
    | E : find_commit _ _ _ _ = (_, {| stdin := _; events := ?l |}),
      H : In _ ?l |- _ =>
        destruct (asked_inputs _ _ _ _ _ _ _ _ E H) as (? & ? & ->);
        reflexivity
    | E : check_changes_in_dag_only _ _ _ =
          (_, {| stdin := _; events := ?l |}),
      H : In _ ?l |- _ =>
        destruct (scoped_inputs _ _ _ _ _ _ _ E H) as (? & ? & ->);
        reflexivity
    end.
Qed.

(** X13. Where the deployed hash comes from.  Whatever a run writes to the
    manifest holds, for the workflow, the hash of one of the ten newest
    commits of [main] whose summary names the pull request; that commit has
    the expected author or the operator accepted it; its changed files were
    looked at; and every commit message of the run names that hash. *)
Theorem deployed_hash_provenance (args : Args) (w w' : World)
    (r : result unit) (evs : list event) (path : pystr) (data' : json) :
  main args w = (r, w') ->
  grows w w' evs ->
  In (WriteFile path data') evs ->
  exists c,
    In c last_10_commits /\
    check_commit (summary c) (pr_id args) = true /\
    (author c = pr_author args \/
     exists line,
       In (Input (author_question c (pr_author args)) (Some line)) evs /\
       accepts line = true) /\
    In (Git (GitStats (hexsha c)) true) evs /\
    lookup_path [py "version"; py "dags"; pr_dag_name args] data' =
      Some (JString (hexsha c)) /\
    (forall subject body returned,
        In (Git (GitCommit subject body) returned) evs ->
        body = commit_body args (hexsha c)).
Proof.
  intros H Hg Hin.
  pose proof (main_shaped _ _ _ _ _ H Hg) as T.
  inversion T as [e' evs' P|evs' P|h r' evs1 evs2 P D]; subst;
    try (pose proof (prelude_trace_In _ _ _ _ _ P Hin) as Hp;
         discriminate Hp).
  apply in_app_or in Hin as [Hin|Hin];
    [pose proof (prelude_trace_In _ _ _ _ _ P Hin) as Hp; discriminate Hp|].
  destruct (deploy_trace_written _ _ _ _ _ _ D Hin) as (-> & data & _ & Hset).
  inversion P as [| | | | | | | | | | |c asked rest scoped rest' E E']; subst.
  destruct (find_commit_some _ _ _ _ _ _ E) as (Hc & Hm & Hauthor).
  exists c. split; [exact Hc|]. split; [exact Hm|]. split; [|split; [|split]].
  - destruct Hauthor as [Ha|(line & evs0 & Hg0 & Hl & Hy)]; [left; exact Ha|].
    right. exists line. split; [|exact Hy].
    unfold grows in Hg0. simpl in Hg0. subst evs0.
    apply in_or_app. left. apply in_or_app. right. right.
    apply in_or_app. left. exact Hl.
  - apply in_or_app. left. apply in_or_app. right. right.
    apply in_or_app. right. left. reflexivity.
  - destruct (set_dag_version_ok _ _ _ _ Hset)
      as (top & version & dags & -> & _ & _ & ->).
    cbn [lookup_path]. rewrite !dict_get_set_same. reflexivity.
  - intros subject body returned Hb.
    apply in_app_or in Hb as [Hb|Hb];
      [pose proof (prelude_trace_In _ _ _ _ _ P Hb) as Hp; discriminate Hp|].
    destruct D; in_split Hb;
      match goal with
      | R : retry_trace _ _ _ ?tries, Hb : In _ ?tries |- _ =>
          exact (proj2 (retry_body _ _ _ _ _ _ _ R Hb))
      end.
Qed.

(** X14. A push comes straight after a commit that went through: the run
    pushes to [origin], the deploy branch and nothing else, the three events
    before the push are the staging, the commit and the record of it, and
    after the push comes the last record or, when the push fails, nothing. *)
Theorem push_follows_commit (args : Args) (w w' : World)
    (r : result unit) (evs : list event) (remote branch : pystr)
    (returned : bool) :
  main args w = (r, w') ->
  grows w w' evs ->
  In (Git (GitPush remote branch) returned) evs ->
  remote = py "origin" /\
  branch = deploy_branch args /\
  exists before commit_hash,
    evs =
    before ++
    [Git (GitAdd (deploy_path args)) true;
     Git (GitCommit (commit_subject args) (commit_body args commit_hash))
         true;
     Log INFO LogCommitted;
     Git (GitPush remote branch) returned] ++
    (if returned then [Log INFO (LogPushed branch)] else []) /\
    r = if returned then Ok tt else Raise GitCommandError.
Proof.
  intros H Hg Hin.
  pose proof (main_shaped _ _ _ _ _ H Hg) as T.
  inversion T as [e' evs' P|evs' P|h r' evs1 evs2 P D]; subst;
    try (pose proof (prelude_trace_In _ _ _ _ _ P Hin) as Hp;
         discriminate Hp).
  apply in_app_or in Hin as [Hin|Hin];
    [pose proof (prelude_trace_In _ _ _ _ _ P Hin) as Hp; discriminate Hp|].
  destruct D as [| | |data e Hset|data data' tries Hset R
                 |data data' tries Hset R|data data' tries Hset R];
    in_split Hin; try retry_absurd;
    injection Hin as <- <- <-;
    destruct (retry_ends _ _ _ R) as (t & ->);
    (split; [reflexivity|]); (split; [reflexivity|]);
    exists (evs1 ++ branch_cut args ++
            manifest_rewrite args h data data' ++ t), h;
    (split; [|reflexivity]); simpl; rewrite <- !app_assoc; reflexivity.
Qed.

Lemma check_changes_false files dag_name :
  forall w w',
    check_changes_in_dag_only files dag_name w = (Ok false, w') ->
    exists evs f line,
      grows w w' evs /\
      In (Input (scope_question f dag_name) (Some line)) evs /\
      accepts line = false.
Proof.
  induction files as [|f files IH]; intros w w' H; simpl in H.
  - discriminate H.
  - destruct (negb (in_dag_dir f dag_name)).
    + apply bind_inv in H as [(go & w1 & E & H)|(e' & E & Hr)];
        [|discriminate Hr].
      apply prompt_if_continue_inv in E as (response & Hg & Hr).
      destruct response as [line|]; [|discriminate Hr].
      injection Hr as ->. destruct (accepts line) eqn:Hy.
      * destruct (IH _ _ H) as (evs & f' & l & Hg' & Hin & Hno).
        exists ([Input (scope_question f dag_name) (Some line)] ++ evs), f', l.
        split; [exact (grows_trans _ _ _ _ _ Hg Hg')|].
        split; [apply in_or_app; right; exact Hin | exact Hno].
      * injection H as <-.
        exists [Input (scope_question f dag_name) (Some line)], f, line.
        split; [exact Hg|]. split; [left; reflexivity | exact Hy].
    + exact (IH _ _ H).
Qed.

(** X15. A run returns normally in two ways only.  Either the operator
    declined a scope question: then the last event is the record of the
    abort and nothing was branched, written, committed or pushed.  Or the
    run went all the way: then it ends with the push that went through and
    the record of it. *)
Theorem main_returns (args : Args) (w w' : World) (evs : list event) :
  main args w = (Ok tt, w') ->
  grows w w' evs ->
  (exists before file line,
      evs = before ++ [Log ERROR LogUserAborted] /\
      In (Input (scope_question file (pr_dag_name args)) (Some line))
         before /\
      accepts line = false /\
      Forall (fun e => prelude_event e = true) before) \/
  (exists before,
      evs =
      before ++
      [Git (GitPush (py "origin") (deploy_branch args)) true;
       Log INFO (LogPushed (deploy_branch args))]).
Proof.
  intros H Hg.
  pose proof (main_shaped _ _ _ _ _ H Hg) as T.
  inversion T as [|evs' P|h r' evs1 evs2 P D]; subst.
  - left.
    inversion P as [| | | | | | | | | |c asked rest scoped rest' E E'|];
      subst.
    destruct (check_changes_false _ _ _ _ E')
      as (evs0 & f & line & Hg0 & Hin & Hno).
    unfold grows in Hg0. simpl in Hg0. subst evs0.
    assert (sync_events args ++ listing :: asked ++
            Git (GitStats (hexsha c)) true :: scoped ++
            [Log ERROR LogUserAborted] =
            (sync_events args ++ listing :: asked ++
             Git (GitStats (hexsha c)) true :: scoped) ++
            [Log ERROR LogUserAborted]) as Heq.
    { rewrite <- !app_assoc. simpl. rewrite <- !app_assoc. reflexivity. }
    rewrite Heq in P.
    exists (sync_events args ++ listing :: asked ++
            Git (GitStats (hexsha c)) true :: scoped), f, line.
    split; [exact Heq|]. split; [|split; [exact Hno|]].
    + apply in_or_app. right. right. apply in_or_app. right. right. exact Hin.
    + apply Forall_forall. intros e He.
      apply (prelude_trace_In _ _ _ _ e P).
      apply in_or_app. left. exact He.
  - right.
    inversion D as [| | | | | |data data' tries Hset R]; subst.
    exists (evs1 ++ branch_cut args ++
            manifest_rewrite args h data data' ++ tries ++
            [Log INFO LogCommitted]).
    rewrite <- !app_assoc. reflexivity.
Qed.

Lemma deploy_trace_vanished args commit_hash r evs path :
  deploy_trace args commit_hash r evs ->
  In (ReadFile path None) evs ->
  r = Raise FileNotFoundError /\
  evs = branch_cut args ++ [ReadFile (deploy_path args) None].
Proof.
  intros T Hin. destruct T; in_split Hin; try retry_absurd.
  split; reflexivity.
Qed.

(** X16. A manifest that was there when the run started and is gone when the
    run comes to read it ends the run with [FileNotFoundError]; by then the
    deploy branch has been created and checked out. *)
Theorem vanished_manifest (args : Args) (w w' : World)
    (r : result unit) (evs : list event) (path : pystr) :
  main args w = (r, w') ->
  grows w w' evs ->
  In (ReadFile path None) evs ->
  r = Raise FileNotFoundError /\
  exists before,
    In (IsFile (deploy_path args) true) before /\
    Forall (fun e => prelude_event e = true) before /\
    evs = before ++ branch_cut args ++ [ReadFile (deploy_path args) None].
Proof.
  intros H Hg Hin.
  pose proof (main_shaped _ _ _ _ _ H Hg) as T.
  inversion T as [e' evs' P|evs' P|h r' evs1 evs2 P D]; subst;
    try (pose proof (prelude_trace_In _ _ _ _ _ P Hin) as Hp;
         discriminate Hp).
  apply in_app_or in Hin as [Hin|Hin];
    [pose proof (prelude_trace_In _ _ _ _ _ P Hin) as Hp; discriminate Hp|].
  destruct (deploy_trace_vanished _ _ _ _ _ D Hin) as (-> & ->).
  split; [reflexivity|]. exists evs1.
  split; [|split; [|reflexivity]].
  - inversion P; subst. right. left. reflexivity.
  - apply Forall_forall. intros e. exact (prelude_trace_In _ _ _ _ e P).
Qed.

(** *** The manifest update, further *)

Lemma dict_set_get k v d : dict_get k d = Some v -> dict_set k v d = d.
Proof.
  induction d as [|[k' v'] d IH]; simpl; [discriminate|].
  destruct (pystr_eqb k' k); [intros [= ->]; reflexivity|].
  intros H. rewrite (IH H). reflexivity.
Qed.

Lemma set_dag_version_raise_alike data dag_name commit_hash e :
  set_dag_version data dag_name commit_hash = Raise e ->
  forall dag_name' commit_hash',
    set_dag_version data dag_name' commit_hash' = Raise e.
Proof.
  unfold set_dag_version, getitem, setitem, bind_result.
  destruct data as [| | | | | |top]; try (intros H ? ?; exact H).
  destruct (dict_get (py "version") top) as [v|]; [|intros H ? ?; exact H].
  destruct v as [| | | | | |version]; try (intros H ? ?; exact H).
  destruct (dict_get (py "dags") version) as [d|]; [|intros H ? ?; exact H].
  destruct d as [| | | | | |dags]; try (intros H ? ?; exact H).
  discriminate.
Qed.

(** X17. Whether the update goes through is decided by the document alone,
    not by the workflow or the hash: it goes through exactly on the
    documents that hold a dictionary at [version.dags]; on any other document
    it raises one of three exceptions, the same one for every workflow and
    every hash.  A workflow that is not in the manifest is no error. *)
Theorem set_dag_version_fails_alike (data : json)
    (dag_name commit_hash : pystr) :
  match set_dag_version data dag_name commit_hash with
  | Ok _ =>
      exists dags,
        lookup_path [py "version"; py "dags"] data = Some (JObject dags)
  | Raise e =>
      (forall dags,
          lookup_path [py "version"; py "dags"] data <> Some (JObject dags)) /\
      (e = KeyError (py "version") \/ e = KeyError (py "dags") \/
       e = TypeError) /\
      forall dag_name' commit_hash',
        set_dag_version data dag_name' commit_hash' = Raise e
  end.
Proof.
  unfold set_dag_version, getitem, setitem, bind_result. cbn [lookup_path].
  destruct data as [| | | | | |top];
    try (split; [discriminate | split; [auto | reflexivity]]).
  destruct (dict_get (py "version") top) as [v|];
    [|split; [discriminate | split; [auto | reflexivity]]].
  destruct v as [| | | | | |version];
    try (split; [discriminate | split; [auto | reflexivity]]).
  destruct (dict_get (py "dags") version) as [d|];
    [|split; [discriminate | split; [auto | reflexivity]]].
  destruct d as [| | | | | |dags];
    try (split; [discriminate | split; [auto | reflexivity]]).
  exists dags. reflexivity.
Qed.

(** X18. Of two updates of the same workflow the later one wins: setting
    one hash and then another gives what setting the other alone gives, the
    same document or the same exception. *)
Theorem set_dag_version_last_wins (data : json)
    (dag_name first second : pystr) :
  bind_result (set_dag_version data dag_name first)
              (fun data' => set_dag_version data' dag_name second) =
  set_dag_version data dag_name second.
Proof.
  destruct (set_dag_version data dag_name first) as [data'|e] eqn:E.
  - destruct (set_dag_version_ok _ _ _ _ E)
      as (top & version & dags & -> & Hv & Hd & ->).
    unfold bind_result, set_dag_version, getitem, setitem, bind_result.
    rewrite Hv, Hd. rewrite !dict_get_set_same. rewrite !dict_set_set.
    reflexivity.
  - simpl. symmetry.
    exact (set_dag_version_raise_alike _ _ _ _ E dag_name second).
Qed.

(** X19. The update leaves the document as it is exactly when the manifest
    already holds that hash for the workflow. *)
Theorem set_dag_version_unchanged (data : json)
    (dag_name commit_hash : pystr) :
  set_dag_version data dag_name commit_hash = Ok data <->
  lookup_path [py "version"; py "dags"; dag_name] data =
    Some (JString commit_hash).
Proof.
  split.
  - intros H.
    destruct (set_dag_version_ok _ _ _ _ H)
      as (top & version & dags & Hdata & _ & _ & Heq).
    rewrite Heq at 1. cbn [lookup_path].
    rewrite !dict_get_set_same. reflexivity.
  - cbn [lookup_path]. intros H.
    destruct data as [| | | | | |top]; try discriminate H.
    destruct (dict_get (py "version") top) as [v|] eqn:Ev; [|discriminate H].
    destruct v as [| | | | | |version]; try discriminate H.
    destruct (dict_get (py "dags") version) as [d|] eqn:Ed; [|discriminate H].
    destruct d as [| | | | | |dags]; try discriminate H.
    destruct (dict_get dag_name dags) as [x|] eqn:Ex; [|discriminate H].
    injection H as ->.
    unfold set_dag_version, getitem, setitem, bind_result.
    rewrite Ev, Ed.
    rewrite (dict_set_get _ _ _ Ex), (dict_set_get _ _ _ Ed),
      (dict_set_get _ _ _ Ev).
    reflexivity.
Qed.

(** *** Names *)

(** X20. The names a run derives from its arguments tell the arguments
    apart: two pull requests never share a deploy branch or a commit
    subject, and in one repository two scopes never share a manifest. *)
Theorem names_identify (args1 args2 : Args) :
  (deploy_branch args1 = deploy_branch args2 <-> pr_id args1 = pr_id args2) /\
  (commit_subject args1 = commit_subject args2 <->
   pr_id args1 = pr_id args2) /\
  (repo_path args1 = repo_path args2 ->
   (deploy_path args1 = deploy_path args2 <->
    pr_deploy_scope args1 = pr_deploy_scope args2)).
Proof.
  unfold deploy_branch, commit_subject, deploy_path, path_join.
  split; [|split].
  - split; [|intros ->; reflexivity].
    intros H. apply app_inv_head in H. exact (str_int_inj _ _ H).
  - split; [|intros ->; reflexivity].
    intros H. apply app_inv_head in H. exact (str_int_inj _ _ H).
  - intros ->. split; [|intros ->; reflexivity].
    intros H.
    assert (py "deploy_" ++ pr_deploy_scope args1 ++ py ".json" =
            py "deploy_" ++ pr_deploy_scope args2 ++ py ".json") as Hb.
    { destruct (rev (repo_path args2)) as [|last tl]; [exact H|].
      destruct (N.eqb last 47).
      - exact (app_inv_head _ _ _ H).
      - apply app_inv_head in H. injection H as H. rewrite H. reflexivity. }
    apply app_inv_head in Hb. exact (app_inv_tail _ _ _ Hb).
Qed.

(** *** A run without questions *)

Lemma check_changes_clean files dag_name w :
  (forall f, In f files -> in_dag_dir f dag_name = true) ->
  check_changes_in_dag_only files dag_name w = (Ok true, w).
Proof.
  induction files as [|f files IH]; intros H; simpl; [reflexivity|].
  rewrite (H f (or_introl eq_refl)). simpl.
  apply IH. intros f' Hf'. apply H. right. exact Hf'.
Qed.

Lemma git_returns op w :
  git_fails env (events w) op = false ->
  git op w =
  (Ok tt, {| stdin := stdin w; events := events w ++ [Git op true] |}).
Proof. unfold git. intros ->. reflexivity. Qed.

Lemma bind_ok {A B : Type} (m : M A) (k : A -> M B) w a w1 :
  m w = (Ok a, w1) -> bind m k w = k a w1.
Proof. unfold bind. intros ->. reflexivity. Qed.

Lemma try_ok {A : Type} (body handler : M A) w a w1 :
  body w = (Ok a, w1) -> try_except_git body handler w = (Ok a, w1).
Proof. unfold try_except_git. intros ->. reflexivity. Qed.

Ltac step_by tac := erewrite bind_ok; [|tac]; cbn [stdin events].

Lemma prelude_quiet args w c before after :
  (forall evs op, commit_phase (Git op true) = false ->
                  git_fails env evs op = false) ->
  (forall evs, file_exists env evs (deploy_path args) = true) ->
  last_10_commits = before ++ c :: after ->
  (forall x, In x before ->
             check_commit (summary x) (pr_id args) = false) ->
  check_commit (summary c) (pr_id args) = true ->
  author c = pr_author args ->
  (forall f, In f (stats_files env (hexsha c)) ->
             in_dag_dir f (pr_dag_name args) = true) ->
  prelude args w =
  (Ok (Some (hexsha c)),
   {| stdin := stdin w;
      events := events w ++ sync_events args ++
                [listing; Git (GitStats (hexsha c)) true] |}).
Proof.
  intros Hgit Hfile Hwindow Hskip Hc Ha Hclean.
  assert (forall w0, find_commit last_10_commits (pr_id args) (pr_author args)
                       w0 = (Ok (Some c), w0)) as Hfound.
  { intros w0. rewrite Hwindow, (find_commit_skip _ _ _ _ _ Hskip). simpl.
    rewrite Hc.
    assert (pystr_eqb (author c) (pr_author args) = true) as ->
      by (apply pystr_eqb_eq; exact Ha).
    reflexivity. }
  unfold prelude.
  step_by reflexivity.
  step_by reflexivity. rewrite Hfile.
  step_by reflexivity.
  do 5 step_by ltac:(apply git_returns; apply Hgit; reflexivity).
  step_by ltac:(apply Hfound).
  step_by ltac:(apply git_returns; apply Hgit; reflexivity).
  step_by ltac:(apply check_changes_clean; exact Hclean).
  unfold sync_events, listing. cbn [negb ret app].
  rewrite <- !app_assoc. reflexivity.
Qed.

Lemma deploy_quiet args w commit_hash data data' :
  (forall evs op, git_fails env evs op = false) ->
  (forall evs, file_json env evs (deploy_path args) = Some data) ->
  set_dag_version data (pr_dag_name args) commit_hash = Ok data' ->
  deploy args commit_hash w =
  (Ok tt,
   {| stdin := stdin w;
      events := events w ++ branch_cut args ++
                manifest_rewrite args commit_hash data data' ++
                [Git (GitAdd (deploy_path args)) true;
                 Git (GitCommit (commit_subject args)
                                (commit_body args commit_hash)) true;
                 Log INFO LogCommitted;
                 Git (GitPush (py "origin") (deploy_branch args)) true;
                 Log INFO (LogPushed (deploy_branch args))] |}).
Proof.
  intros Hgit Hjson Hset.
  unfold deploy.
  do 2 step_by ltac:(apply git_returns; apply Hgit).
  step_by reflexivity.
  step_by ltac:(unfold load_json; rewrite Hjson; reflexivity).
  step_by ltac:(unfold lift; rewrite Hset; reflexivity).
  do 3 step_by reflexivity.
  step_by ltac:(apply try_ok;
                erewrite bind_ok; [|apply git_returns; apply Hgit];
                apply git_returns; apply Hgit).
  step_by reflexivity.
  step_by ltac:(apply git_returns; apply Hgit).
  unfold log, emit, branch_cut, manifest_rewrite. cbn [stdin events app].
  rewrite <- !app_assoc. reflexivity.
Qed.

(** X21. A run that needs no operator.  When no backend call fails, the
    manifest is in place and holds a dictionary at [version.dags], the first
    of the ten newest commits of [main] to name the pull request has the
    expected author, and every file it changed is in the workflow's
    directory, the run returns normally without reading a line: it syncs,
    lists, looks at the commit, cuts the branch, rewrites the manifest with
    the update, commits at the first attempt and pushes. *)
Theorem quiet_run (args : Args) (w : World) (c : Commit)
    (before after : list Commit) (data : json)
    (dags : list (pystr * json)) :
  (forall evs op, git_fails env evs op = false) ->
  (forall evs, file_exists env evs (deploy_path args) = true) ->
  (forall evs, file_json env evs (deploy_path args) = Some data) ->
  lookup_path [py "version"; py "dags"] data = Some (JObject dags) ->
  last_10_commits = before ++ c :: after ->
  (forall x, In x before ->
             check_commit (summary x) (pr_id args) = false) ->
  check_commit (summary c) (pr_id args) = true ->
  author c = pr_author args ->
  (forall f, In f (stats_files env (hexsha c)) ->
             in_dag_dir f (pr_dag_name args) = true) ->
  exists data',
    set_dag_version data (pr_dag_name args) (hexsha c) = Ok data' /\
    main args w =
    (Ok tt,
     {| stdin := stdin w;
        events :=
          events w ++ sync_events args ++
          [listing; Git (GitStats (hexsha c)) true] ++
          branch_cut args ++
          manifest_rewrite args (hexsha c) data data' ++
          [Git (GitAdd (deploy_path args)) true;
           Git (GitCommit (commit_subject args)
                          (commit_body args (hexsha c))) true;
           Log INFO LogCommitted;
           Git (GitPush (py "origin") (deploy_branch args)) true;
           Log INFO (LogPushed (deploy_branch args))] |}).
Proof.
  intros Hgit Hfile Hjson Hdags Hwindow Hskip Hc Ha Hclean.
  destruct (set_dag_version_frame data dags (pr_dag_name args) (hexsha c)
              Hdags) as (data' & Hset & _).
  exists data'. split; [exact Hset|].
  rewrite main_cut.
  erewrite bind_ok;
    [|exact (prelude_quiet args w c before after
               (fun evs op _ => Hgit evs op) Hfile Hwindow Hskip
               Hc Ha Hclean)].
  rewrite (deploy_quiet args _ (hexsha c) data data' Hgit Hjson Hset).
  cbn [stdin events]. rewrite <- !app_assoc. reflexivity.
Qed.

(** *** Questions without an answer *)

Lemma find_commit_eof commits pull_request_id author_name q :
  forall w r w' evs,
    find_commit commits pull_request_id author_name w = (r, w') ->
    grows w w' evs ->
    In (Input q None) evs ->
    r = Raise EOFError /\ exists before, evs = before ++ [Input q None].
Proof.
  induction commits as [|c commits IH]; intros w r w' evs H Hg Hin;
    simpl in H.
  - injection H as <- <-.
    rewrite (grows_inj _ _ _ _ Hg (grows_refl _)) in Hin. destruct Hin.
  - destruct (check_commit (summary c) pull_request_id); [|eauto].
    destruct (negb (pystr_eqb (author c) author_name)).
    + apply bind_inv in H as [(go & w1 & E & H)|(e & E & ->)];
        apply prompt_if_continue_inv in E as (response & Hg1 & Hr).
      * destruct response as [line|]; [|discriminate Hr].
        destruct go.
        -- injection H as <- <-.
           rewrite (grows_inj _ _ _ _ Hg Hg1) in Hin.
           destruct Hin as [Hin|[]]. discriminate Hin.
        -- destruct (find_commit_inv _ _ _ _ _ _ H) as (evs2 & Hg2 & _).
           rewrite (grows_inj _ _ _ _ Hg (grows_trans _ _ _ _ _ Hg1 Hg2))
             in Hin |- *.
           destruct Hin as [Hin|Hin]; [discriminate Hin|].
           destruct (IH _ _ _ _ H Hg2 Hin) as (-> & before & ->).
           split; [reflexivity|]. eexists (_ :: before). reflexivity.
      * destruct response as [line|]; [discriminate Hr|].
        injection Hr as ->.
        rewrite (grows_inj _ _ _ _ Hg Hg1) in Hin |- *.
        destruct Hin as [Hin|[]]. injection Hin as <-.
        split; [reflexivity|]. exists []. reflexivity.
    + injection H as <- <-.
      rewrite (grows_inj _ _ _ _ Hg (grows_refl _)) in Hin. destruct Hin.
Qed.

Lemma check_changes_eof files dag_name q :
  forall w r w' evs,
    check_changes_in_dag_only files dag_name w = (r, w') ->
    grows w w' evs ->
    In (Input q None) evs ->
    r = Raise EOFError /\ exists before, evs = before ++ [Input q None].
Proof.
  induction files as [|f files IH]; intros w r w' evs H Hg Hin; simpl in H.
  - injection H as <- <-.
    rewrite (grows_inj _ _ _ _ Hg (grows_refl _)) in Hin. destruct Hin.
  - destruct (negb (in_dag_dir f dag_name)); [|eauto].
    apply bind_inv in H as [(go & w1 & E & H)|(e & E & ->)];
      apply prompt_if_continue_inv in E as (response & Hg1 & Hr).
    + destruct response as [line|]; [|discriminate Hr].
      destruct go.
      * destruct (check_changes_inv _ _ _ _ _ H) as (evs2 & Hg2 & _).
        rewrite (grows_inj _ _ _ _ Hg (grows_trans _ _ _ _ _ Hg1 Hg2))
          in Hin |- *.
        destruct Hin as [Hin|Hin]; [discriminate Hin|].
        destruct (IH _ _ _ _ H Hg2 Hin) as (-> & before & ->).
        split; [reflexivity|]. eexists (_ :: before). reflexivity.
      * injection H as <- <-.
        rewrite (grows_inj _ _ _ _ Hg Hg1) in Hin.
        destruct Hin as [Hin|[]]. discriminate Hin.
    + destruct response as [line|]; [discriminate Hr|].
      injection Hr as ->.
      rewrite (grows_inj _ _ _ _ Hg Hg1) in Hin |- *.
      destruct Hin as [Hin|[]]. injection Hin as <-.
      split; [reflexivity|]. exists []. reflexivity.
Qed.

Lemma prelude_trace_eof args lines r evs q :
  prelude_trace args lines r evs ->
  In (Input q None) evs ->
  r = Raise EOFError /\ exists before, evs = before ++ [Input q None].
Proof.
  intros T Hin.
  destruct T; in_split Hin;
    match goal with
    | E : find_commit _ _ _ _ = (_, {| stdin := _; events := ?l |}),
      H : In _ ?l |- _ =>
        destruct (find_commit_eof _ _ _ _ _ _ _ l E eq_refl H)
          as (Hr & before & Hl)
    | E : check_changes_in_dag_only _ _ _ =
          (_, {| stdin := _; events := ?l |}),
      H : In _ ?l |- _ =>
        destruct (check_changes_eof _ _ _ _ _ _ l E eq_refl H)
          as (Hr & before & Hl)
    end;
    try discriminate Hr.
  - injection Hr as ->. split; [reflexivity|].
    exists (sync_events args ++ listing :: before).
    rewrite Hl, <- app_assoc. reflexivity.
  - injection Hr as ->. split; [reflexivity|].
    exists (sync_events args ++ listing :: asked ++
            Git (GitStats (hexsha commit)) true :: before).
    rewrite Hl, <- !app_assoc. simpl. rewrite <- !app_assoc. reflexivity.
Qed.

(** X22. A question that finds the input at its end stops the run with
    [EOFError].  It is the last thing the run does, and the run has not yet
    created a branch, touched the manifest, committed or pushed. *)
Theorem unanswered_question_ends_run (args : Args) (w w' : World)
    (r : result unit) (evs : list event) (q : pystr) :
  main args w = (r, w') ->
  grows w w' evs ->
  In (Input q None) evs ->
  r = Raise EOFError /\
  (exists before, evs = before ++ [Input q None]) /\
  Forall (fun e => prelude_event e = true) evs.
Proof.
  intros H Hg Hin.
  pose proof (main_shaped _ _ _ _ _ H Hg) as T.
  inversion T as [e' evs' P|evs' P|h r' evs1 evs2 P D]; subst.
  - destruct (prelude_trace_eof _ _ _ _ _ P Hin) as (Hr & Hlast).
    injection Hr as ->. split; [reflexivity|]. split; [exact Hlast|].
    apply Forall_forall. intros e. exact (prelude_trace_In _ _ _ _ e P).
  - destruct (prelude_trace_eof _ _ _ _ _ P Hin) as (Hr & _).
    discriminate Hr.
  - apply in_app_or in Hin as [Hin|Hin].
    + destruct (prelude_trace_eof _ _ _ _ _ P Hin) as (Hr & _).
      discriminate Hr.
    + exfalso. exact (deploy_trace_no_input _ _ _ _ _ _ D Hin).
Qed.

(** ** The window, the abort and the retry in whole runs *)



Lemma prelude_event_early e :
  prelude_event e = true ->
  manifest_event e = false /\
  commit_phase e = false /\
  (forall name returned, e <> Git (GitCreateHead name) returned) /\
  (forall remote branch returned, e <> Git (GitPush remote branch) returned).
Proof.
  destruct e as [lvl []| |[]| | | | |]; simpl; intros H;
    try discriminate H; repeat split; intros; discriminate.
Qed.

(** C6, as the code has it.  When a scope question was answered with
    something other than yes, the run returns normally and the last thing it
    did was to log the abort.  It did not create a branch, did not read,
    remove or write the manifest, and staged, committed and pushed nothing.
    But it did touch the repository: before the question it opened the
    repository, checked out [main] and pulled from [origin]. *)
Theorem declined_scope_aborts (args : Args) (w w' : World)
    (r : result unit) (evs : list event) :
  main args w = (r, w') ->
  grows w w' evs ->
  (exists file line,
      In (Input (scope_question file (pr_dag_name args)) (Some line)) evs /\
      accepts line = false) ->
  r = Ok tt /\
  (exists middle,
      evs = sync_events args ++ middle ++ [Log ERROR LogUserAborted]) /\
  Forall (fun e => prelude_event e = true) evs /\
  (forall e, In e evs ->
     manifest_event e = false /\
     commit_phase e = false /\
     (forall name returned, e <> Git (GitCreateHead name) returned) /\
     (forall remote branch returned,
         e <> Git (GitPush remote branch) returned)).
Proof.
  intros Hrun Hg Hdeclined.
  destruct (declined_run args w w' r evs Hrun Hg Hdeclined)
    as (-> & _ & Hall).
  split; [reflexivity|]. split; [|split; [exact Hall|]].
  - pose proof (main_shaped _ _ _ _ _ Hrun Hg) as T.
    inversion T as [|evs' P|h r' evs1 evs2 P D]; subst.
    + inversion P as [| | | | | | | | | |c asked rest scoped rest' E E'|];
        subst.
      exists (listing :: asked ++ Git (GitStats (hexsha c)) true :: scoped).
      f_equal. simpl. f_equal. rewrite <- app_assoc. reflexivity.
    + exfalso. apply Forall_app in Hall as [_ Hall].
      inversion D as [| | | | | |data data' tries Hset R]; subst.
      inversion Hall as [|e l He _]. discriminate He.
  - intros e He. apply prelude_event_early.
    rewrite Forall_forall in Hall. exact (Hall e He).
Qed.

(** The try block on its own: what it does is what [retry_events] says. *)
Lemma attempt_run args commit_hash w :
  (git (GitAdd (deploy_path args)) ;;
   git (GitCommit (commit_subject args) (commit_body args commit_hash))) w =
  (if fst (attempt_events args commit_hash (events w))
   then Ok tt else Raise GitCommandError,
   {| stdin := stdin w;
      events := events w ++
                snd (attempt_events args commit_hash (events w)) |}).
Proof.
  unfold attempt_events.
  destruct (git_fails env (events w) (GitAdd (deploy_path args))) eqn:E1.
  - unfold bind, git. rewrite E1. reflexivity.
  - destruct (git_fails env
                (events w ++ [Git (GitAdd (deploy_path args)) true])
                (GitCommit (commit_subject args)
                           (commit_body args commit_hash))) eqn:E2;
      unfold bind, git; rewrite E1; unfold emit at 1; cbn [stdin events];
      rewrite E2; unfold bind, emit, raise; cbn [fst snd stdin events];
      rewrite <- app_assoc; reflexivity.
Qed.

Lemma retry_run args commit_hash w :
  try_except_git
    (git (GitAdd (deploy_path args)) ;;
     git (GitCommit (commit_subject args) (commit_body args commit_hash)))
    (print retry_notice ;;
     git (GitAdd (deploy_path args)) ;;
     git (GitCommit (commit_subject args) (commit_body args commit_hash))) w =
  (if fst (retry_events args commit_hash (events w))
   then Ok tt else Raise GitCommandError,
   {| stdin := stdin w;
      events := events w ++
                snd (retry_events args commit_hash (events w)) |}).
Proof.
  unfold try_except_git, retry_events. rewrite attempt_run.
  destruct (attempt_events args commit_hash (events w)) as [[] first];
    cbn [fst snd]; [reflexivity|].
  unfold bind at 1, print, emit. rewrite attempt_run. cbn [stdin events].
  rewrite <- !app_assoc. reflexivity.
Qed.

Lemma deploy_run args w commit_hash data data' :
  (forall evs op, commit_phase (Git op true) = false ->
                  git_fails env evs op = false) ->
  (forall evs, file_json env evs (deploy_path args) = Some data) ->
  set_dag_version data (pr_dag_name args) commit_hash = Ok data' ->
  deploy args commit_hash w =
  (if fst (retry_events args commit_hash
             (events w ++ branch_cut args ++
              manifest_rewrite args commit_hash data data'))
   then Ok tt else Raise GitCommandError,
   {| stdin := stdin w;
      events :=
        (events w ++ branch_cut args ++
         manifest_rewrite args commit_hash data data') ++
        snd (retry_events args commit_hash
               (events w ++ branch_cut args ++
                manifest_rewrite args commit_hash data data')) ++
        (if fst (retry_events args commit_hash
                   (events w ++ branch_cut args ++
                    manifest_rewrite args commit_hash data data'))
         then push_events args else []) |}).
Proof.
  intros Hgit Hjson Hset.
  unfold deploy.
  do 2 step_by ltac:(apply git_returns; apply Hgit; reflexivity).
  step_by reflexivity.
  step_by ltac:(unfold load_json; rewrite Hjson; reflexivity).
  step_by ltac:(unfold lift; rewrite Hset; reflexivity).
  do 3 step_by reflexivity.
  unfold bind at 1. rewrite retry_run. cbn [stdin events].
  unfold branch_cut, manifest_rewrite, push_events.
  rewrite <- !app_assoc. cbn [app].
  match goal with
  | |- context [retry_events args commit_hash ?l] =>
      destruct (retry_events args commit_hash l) as [[] tries]
  end; cbn [fst snd].
  - step_by reflexivity.
    step_by ltac:(apply git_returns; apply Hgit; reflexivity).
    unfold log, emit. cbn [stdin events].
    rewrite <- !app_assoc. reflexivity.
  - rewrite app_nil_r. reflexivity.
Qed.

(** C7. Committing with one retry.  In a run that gets to the commit
    (here: nothing but staging and committing fails, the manifest is in
    place, the commit is found and validated without a question) what
    happens from there is what the surroundings make of one attempt and,
    when it fails, of the notice and exactly one more attempt with the same
    path and message ([retry_events]): after an attempt that went through
    the run records the commit, pushes and returns; after two failed
    attempts it ends with [GitCommandError], the failed call being the last
    thing it did.  And in every run the attempts are at most these: the
    events of staging and committing are none, or one attempt that went
    through and nothing more, or a failed attempt, the notice and one more
    attempt; when that one fails the run ends with [GitCommandError] and
    pushes nothing. *)
Theorem commit_retried_once :
  (forall (args : Args) (w : World) (c : Commit)
          (before after : list Commit) (data : json)
          (dags : list (pystr * json)),
      (forall evs op, commit_phase (Git op true) = false ->
                      git_fails env evs op = false) ->
      (forall evs, file_exists env evs (deploy_path args) = true) ->
      (forall evs, file_json env evs (deploy_path args) = Some data) ->
      lookup_path [py "version"; py "dags"] data = Some (JObject dags) ->
      last_10_commits = before ++ c :: after ->
      (forall x, In x before ->
                 check_commit (summary x) (pr_id args) = false) ->
      check_commit (summary c) (pr_id args) = true ->
      author c = pr_author args ->
      (forall f, In f (stats_files env (hexsha c)) ->
                 in_dag_dir f (pr_dag_name args) = true) ->
      exists data',
        set_dag_version data (pr_dag_name args) (hexsha c) = Ok data' /\
        let upto :=
          events w ++ sync_events args ++
          [listing; Git (GitStats (hexsha c)) true] ++
          branch_cut args ++
          manifest_rewrite args (hexsha c) data data' in
        let tries := retry_events args (hexsha c) upto in
        main args w =
        (if fst tries then Ok tt else Raise GitCommandError,
         {| stdin := stdin w;
            events := upto ++ snd tries ++
                      (if fst tries then push_events args else []) |})) /\
  (forall (args : Args) (w w' : World) (r : result unit)
          (evs : list event),
      main args w = (r, w') ->
      grows w w' evs ->
      filter commit_phase evs = [] \/
      exists commit_hash committed,
        retry_trace args commit_hash committed (filter commit_phase evs) /\
        (forall rest,
            filter commit_phase evs =
            Git (GitAdd (deploy_path args)) true ::
            Git (GitCommit (commit_subject args)
                           (commit_body args commit_hash)) true :: rest ->
            rest = []) /\
        (committed = false ->
         r = Raise GitCommandError /\
         forall remote branch returned,
           ~ In (Git (GitPush remote branch) returned) evs)).
Proof.
  split; [|exact commit_phase_shape].
  intros args w c before after data dags
         Hgit Hfile Hjson Hdags Hwindow Hskip Hc Ha Hclean.
  destruct (set_dag_version_frame data dags (pr_dag_name args) (hexsha c)
              Hdags) as (data' & Hset & _).
  exists data'. split; [exact Hset|]. cbv zeta.
  rewrite main_cut.
  erewrite bind_ok;
    [|exact (prelude_quiet args w c before after Hgit Hfile Hwindow Hskip
               Hc Ha Hclean)].
  rewrite (deploy_run args _ (hexsha c) data data' Hgit Hjson Hset).
  cbn [stdin events]. rewrite <- !app_assoc. reflexivity.
Qed.

End Script.

(** ** Concrete runs *)

Abbreviation run env lines :=
  (main ascii_decimal ascii_lower env args42 (typed lines)) (only parsing).

Abbreviation full_run :=
  (run (calm [chore; commit42] [py "dags/install/dag.py"] (Some manifest0)) [])
  (only parsing).

(** The spec's scenarios. *)
Example scenario_found_without_prompt :
  find_commit ascii_decimal ascii_lower [commit42] 42 (py "alice")
              (typed []) =
  (Ok (Some commit42), typed []).
Proof. reflexivity. Qed.

Example scenario_author_declined :
  fst (run (calm [{| hexsha := py "def456"; summary := py "fix: x (#42)";
                     author := py "bob" |}] [] (Some manifest0))
           [py "n"]) =
  Raise (AssertionError (py "Commit not found")).
Proof. vm_compute. reflexivity. Qed.

Example scenario_manifest :
  set_dag_version manifest0 (py "install") (py "def456") =
  Ok (JObject [(py "version",
                JObject [(py "dags",
                          JObject [(py "install",
                                    JString (py "def456"))])])]).
Proof. reflexivity. Qed.

(** C1 at a message without a token. *)
Lemma check_commit_first_token_witness :
  check_commit ascii_decimal (py "hotfix without a number") 42 = false.
Proof.
  apply (proj2 (check_commit_first_token ascii_decimal
                  (py "hotfix without a number") 42)).
  intros i ds (_ & _ & pre & post & Heq & _).
  assert (In 40%N (py "hotfix without a number")) as Hin
    by (rewrite Heq; apply in_elt).
  vm_compute in Hin.
  repeat (destruct Hin as [Hin|Hin]; [discriminate Hin|]).
  exact Hin.
Defined.

Example commit_at_position_11_not_found :
  fst (run (calm history11 [] (Some manifest0)) []) =
  Raise (AssertionError (py "Commit not found")).
Proof. vm_compute. reflexivity. Qed.


(** C3 at a list whose second commit names the pull request. *)
Lemma find_commit_scan_witness :
  find_commit ascii_decimal ascii_lower [chore; commit42] 42 (py "alice")
              (typed []) =
  (Ok (Some commit42), typed []).
Proof.
  apply (proj1 (proj1 (proj2 (find_commit_scan ascii_decimal ascii_lower
                                42 (py "alice")))
                  [chore] commit42 [] (typed [])
                  ltac:(intros c [<-|[]]; vm_compute; reflexivity)
                  ltac:(vm_compute; reflexivity))).
  reflexivity.
Defined.

(** C4 (as the code has it) at two paths outside the directory, the first
    declined. *)
Lemma check_changes_scan_witness :
  exists w',
    check_changes_in_dag_only ascii_lower
      [py "README.md"; py "setup.py"] (py "install")
      (typed [py "n"; py "n"]) = (Ok false, w') /\
    stdin w' = [py "n"] /\
    events w' =
    events (typed [py "n"; py "n"]) ++
    scope_inputs (py "install")
      (violations [py "README.md"; py "setup.py"] (py "install"))
      ([] ++ [py "n"]).
Proof.
  apply (proj2 (proj2 (proj2 (proj2
           (check_changes_scan ascii_lower (py "install")))))
           [py "README.md"; py "setup.py"] (typed [py "n"; py "n"])
           [] (py "n") [py "n"]).
  - reflexivity.
  - vm_compute. lia.
  - intros r [].
  - vm_compute. reflexivity.
Defined.

(** A workflow name with a slash is never the second piece of a path: a
    file below [dags/etl/daily/] is asked about. *)
Example slashed_name_is_asked_about :
  in_dag_dir (py "dags/etl/daily/dag.py") (py "etl/daily") = false /\
  length (events (snd (check_changes_in_dag_only ascii_lower
                         [py "dags/etl/daily/dag.py"] (py "etl/daily")
                         (typed [py "y"])))) = 1.
Proof. vm_compute. split; reflexivity. Qed.

(** The claim that every path outside the directory gets its question fails
    where the first question is declined: of two such paths one is asked
    about. *)
Lemma scope_questions_stop_at_first_no :
  let files := [py "README.md"; py "setup.py"] in
  let out := check_changes_in_dag_only ascii_lower files (py "install")
               (typed [py "n"; py "n"]) in
  fst out = Ok false /\
  length (violations files (py "install")) = 2 /\
  length (events (snd out)) = 1 /\
  length (events (snd out)) <> length (violations files (py "install")).
Proof. vm_compute. repeat split; try reflexivity. discriminate. Qed.

(** C5 (as the code has it) at a run that goes through. *)
Lemma branch_before_manifest_witness :
  exists before between,
    firstn 13 (events (snd full_run)) =
    before ++
    Git (GitCreateHead (deploy_branch args42)) true ::
    Git (GitCheckout (deploy_branch args42)) true :: between.
Proof.
  apply (proj2 (branch_before_manifest ascii_decimal ascii_lower
           (calm [chore; commit42] [py "dags/install/dag.py"] (Some manifest0))
           args42 (typed []) (snd full_run) (fst full_run)
           (events (snd full_run))
           (surjective_pairing _) eq_refl)
           (firstn 13 (events (snd full_run)))
           (WriteFile (deploy_path args42)
              (JObject [(py "version",
                         JObject [(py "dags",
                                   JObject [(py "install",
                                             JString (py "def456"))])])]))
           (skipn 14 (events (snd full_run)))).
  - reflexivity.
  - vm_compute. reflexivity.
Defined.

(** The claim that the manifest is updated before the deploy branch exists
    fails on a run that goes through: when the branch is created nothing
    has touched the manifest yet, and it is written five events later. *)
Lemma manifest_written_after_branch :
  let evs := events (snd full_run) in
  fst full_run = Ok tt /\
  nth_error evs 8 = Some (Git (GitCreateHead (deploy_branch args42)) true) /\
  filter manifest_event (firstn 8 evs) = [] /\
  nth_error evs 13 =
  Some (WriteFile (deploy_path args42)
          (JObject [(py "version",
                     JObject [(py "dags",
                               JObject [(py "install",
                                         JString (py "def456"))])])])).
Proof. vm_compute. repeat split; reflexivity. Qed.

(** The claim that a declined validation leaves the repository as it was
    fails on every such run: before the question is asked the run has
    checked out [main] and pulled from [origin]. *)
Lemma declined_abort_touches_repository :
  let out := run (calm [commit42] [py "README.md"] (Some manifest0))
                 [py "n"] in
  fst out = Ok tt /\
  events (snd out) =
  [Log INFO (LogArgs args42);
   IsFile (deploy_path args42) true;
   Git (GitRepo (py "/repo")) true;
   Git (GitCheckout (py "main")) true;
   Git (GitRemote (py "origin")) true;
   Git GitPull true;
   Git (GitIterCommits (py "main") 10) true;
   Git (GitStats (py "def456")) true;
   Input (scope_question (py "README.md") (py "install")) (Some (py "n"));
   Log ERROR LogUserAborted].
Proof. vm_compute. split; reflexivity. Qed.

(** C6 (as the code has it) at a commit that touched [README.md],
    declined. *)
Lemma declined_scope_aborts_witness :
  let out := run (calm [commit42] [py "README.md"] (Some manifest0))
                 [py "n"] in
  fst out = Ok tt /\
  (exists middle,
      events (snd out) =
      sync_events args42 ++ middle ++ [Log ERROR LogUserAborted]) /\
  Forall (fun e => prelude_event e = true) (events (snd out)) /\
  (forall e, In e (events (snd out)) ->
     manifest_event e = false /\
     commit_phase e = false /\
     (forall name returned, e <> Git (GitCreateHead name) returned) /\
     (forall remote branch returned,
         e <> Git (GitPush remote branch) returned)).
Proof.
  intros out.
  apply (declined_scope_aborts ascii_decimal ascii_lower
           (calm [commit42] [py "README.md"] (Some manifest0)) args42
           (typed [py "n"]) (snd out) (fst out) (events (snd out))
           (surjective_pairing _) eq_refl).
  exists (py "README.md"), (py "n"). split.
  - vm_compute. do 8 right. left. reflexivity.
  - vm_compute. reflexivity.
Defined.

Example retry_goes_through :
  fst (run (hook_rejects false) []) = Ok tt /\
  length (filter is_commit (events (snd (run (hook_rejects false) [])))) = 2.
Proof. vm_compute. split; reflexivity. Qed.

(** C7 at a hook that rejects the first commit: the run stages and commits
    once more, with the same path and message, and goes on to push. *)
Lemma commit_retried_once_witness :
  run (hook_rejects false) [] =
  (Ok tt,
   {| stdin := [];
      events :=
        sync_events args42 ++
        [listing; Git (GitStats (py "def456")) true] ++
        branch_cut args42 ++
        manifest_rewrite args42 (py "def456") manifest0
          (JObject [(py "version",
                     JObject [(py "dags",
                               JObject [(py "install",
                                         JString (py "def456"))])])]) ++
        [Git (GitAdd (deploy_path args42)) true;
         Git (GitCommit (commit_subject args42)
                        (commit_body args42 (py "def456"))) false;
         Print retry_notice;
         Git (GitAdd (deploy_path args42)) true;
         Git (GitCommit (commit_subject args42)
                        (commit_body args42 (py "def456"))) true] ++
        push_events args42 |}).
Proof.
  destruct (proj1 (commit_retried_once ascii_decimal ascii_lower
                     (hook_rejects false))
              args42 (typed []) commit42 [] [] manifest0
              [(py "install", JString (py "abc123"))])
    as (data' & Hset & Hrun).
  - intros evs op H. destruct op; try reflexivity; discriminate H.
  - intros evs. reflexivity.
  - intros evs. reflexivity.
  - reflexivity.
  - reflexivity.
  - intros x [].
  - vm_compute. reflexivity.
  - reflexivity.
  - intros f [<-|[]]. vm_compute. reflexivity.
  - vm_compute in Hset. injection Hset as <-.
    cbv zeta in Hrun. rewrite Hrun. vm_compute. reflexivity.
Defined.

Example retry_fails_for_good :
  fst (run (hook_rejects true) []) = Raise GitCommandError /\
  length (filter is_commit (events (snd (run (hook_rejects true) [])))) = 2.
Proof. vm_compute. split; reflexivity. Qed.

(** C9 at the manifest of the spec's scenario. *)
Lemma manifest_rewrite_frame_witness :
  exists data',
    set_dag_version manifest0 (py "install") (py "def456") = Ok data' /\
    lookup_path [py "version"; py "dags"; py "install"] data' =
    Some (JString (py "def456")).
Proof.
  destruct (proj1 (manifest_rewrite_frame ascii_decimal ascii_lower
                     (calm [] [] None))
              manifest0 [(py "install", JString (py "abc123"))]
              (py "install") (py "def456") eq_refl)
    as (data' & Hset & Htarget & _).
  exists data'. split; [exact Hset | exact Htarget].
Defined.

(** C10 (as the code has it) at [manifest_unversioned]. *)
Lemma missing_key_after_branch_witness :
  let out := run (calm [commit42] [py "dags/install/dag.py"]
                       (Some manifest_unversioned)) [] in
  fst out = Raise (KeyError (py "version")) /\
  exists before,
    Forall (fun e => prelude_event e = true) before /\
    events (snd out) =
    before ++ branch_cut args42 ++
    [ReadFile (deploy_path args42) (Some manifest_unversioned)].
Proof.
  intros out.
  apply (missing_key_after_branch ascii_decimal ascii_lower
           (calm [commit42] [py "dags/install/dag.py"]
                 (Some manifest_unversioned)) args42
           (typed []) (snd out) (fst out) (events (snd out))
           (deploy_path args42) manifest_unversioned
           (KeyError (py "version"))
           (surjective_pairing _) eq_refl).
  - vm_compute. do 11 right. left. reflexivity.
  - apply fault_no_version. reflexivity.
Defined.

(** The claim that a manifest without [version.dags] ends the run with
    [KeyError] fails where [version] is not a dictionary: the key [dags] is
    not there, and the run ends with [TypeError]. *)
Lemma scalar_version_is_type_error :
  let out := run (calm [commit42] [py "dags/install/dag.py"]
                       (Some manifest_scalar)) [] in
  lookup_path [py "version"; py "dags"] manifest_scalar = None /\
  In (ReadFile (deploy_path args42) (Some manifest_scalar))
     (events (snd out)) /\
  fst out = Raise TypeError /\
  (forall key, fst out <> Raise (KeyError key)).
Proof.
  vm_compute. split; [reflexivity|]. split; [|split].
  - do 11 right. left. reflexivity.
  - reflexivity.
  - intros key. discriminate.
Qed.


(** *** The further properties at concrete inputs *)

Ltac among := vm_compute; repeat first [left; reflexivity | right].

(** X1 at the summary of [commit42]. *)
Lemma check_commit_one_id_witness :
  check_commit ascii_decimal (summary commit42) 42 = true /\ (42 = 42)%Z.
Proof.
  split; [reflexivity|].
  apply (check_commit_one_id ascii_decimal (summary commit42) 42 42);
    reflexivity.
Defined.

(** X2 at a message that holds the identifier with its sign. *)
Lemma check_commit_negative_witness :
  check_commit ascii_decimal (py "revert (#-42)") (-42) = false.
Proof.
  apply (check_commit_negative ascii_decimal (py "revert (#-42)") (-42)).
  - reflexivity.
  - lia.
Defined.

(** X4 at a list in which the commit of another author is declined and the
    next one is found. *)
Lemma find_commit_found_witness :
  let w := typed [py "n"] in
  let w' := snd (find_commit ascii_decimal ascii_lower
                   [commit42_bob; commit42] 42 (py "alice") w) in
  exists before after declined,
    [commit42_bob; commit42] = before ++ commit42 :: after /\
    check_commit ascii_decimal (summary commit42) 42 = true /\
    (forall x, In x (candidates ascii_decimal before 42) ->
               author x <> py "alice") /\
    length declined = length (candidates ascii_decimal before 42) /\
    (forall r, In r declined -> accepts ascii_lower r = false) /\
    ((author commit42 = py "alice" /\
      stdin w = declined ++ stdin w' /\
      events w' =
      events w ++
      author_inputs (py "alice") (candidates ascii_decimal before 42)
                    declined) \/
     (author commit42 <> py "alice" /\
      exists yes,
        accepts ascii_lower yes = true /\
        stdin w = declined ++ yes :: stdin w' /\
        events w' =
        events w ++
        author_inputs (py "alice")
          (candidates ascii_decimal before 42 ++ [commit42])
          (declined ++ [yes]))).
Proof.
  intros w w'.
  apply (find_commit_found ascii_decimal ascii_lower
           [commit42_bob; commit42] 42 (py "alice") w w' commit42).
  vm_compute. reflexivity.
Defined.

(** X5 at a list whose only candidate is declined. *)
Lemma find_commit_not_found_witness :
  let w := typed [py "n"] in
  let w' := snd (find_commit ascii_decimal ascii_lower [chore; commit42_bob]
                   42 (py "alice") w) in
  (forall x, In x (candidates ascii_decimal [chore; commit42_bob] 42) ->
             author x <> py "alice") /\
  exists declined,
    stdin w = declined ++ stdin w' /\
    length declined =
    length (candidates ascii_decimal [chore; commit42_bob] 42) /\
    (forall r, In r declined -> accepts ascii_lower r = false) /\
    events w' =
    events w ++
    author_inputs (py "alice")
      (candidates ascii_decimal [chore; commit42_bob] 42) declined.
Proof.
  intros w w'.
  apply (find_commit_not_found ascii_decimal ascii_lower
           [chore; commit42_bob] 42 (py "alice") w w').
  vm_compute. reflexivity.
Defined.

(** X6 at the same list with nothing typed. *)
Lemma find_commit_raises_witness :
  let w := typed [] in
  let w' := snd (find_commit ascii_decimal ascii_lower [chore; commit42_bob]
                   42 (py "alice") w) in
  EOFError = EOFError /\
  stdin w' = [] /\
  (forall r, In r (stdin w) -> accepts ascii_lower r = false) /\
  exists c,
    nth_error (candidates ascii_decimal [chore; commit42_bob] 42)
              (length (stdin w)) = Some c /\
    author c <> py "alice" /\
    events w' =
    events w ++
    author_inputs (py "alice")
      (candidates ascii_decimal [chore; commit42_bob] 42) (stdin w) ++
    [Input (author_question c (py "alice")) None].
Proof.
  intros w w'.
  apply (find_commit_raises ascii_decimal ascii_lower
           [chore; commit42_bob] 42 (py "alice") w w' EOFError).
  vm_compute. reflexivity.
Defined.

(** X8 at three files, the first accepted and the second declined. *)
Lemma check_changes_verdict_witness :
  let files := [py "README.md"; py "setup.py"; py "Makefile"] in
  let w := typed [py "y"; py "n"; py "y"] in
  let w' := snd (check_changes_in_dag_only ascii_lower files (py "install")
                   w) in
  exists accepted,
    (forall r, In r accepted -> accepts ascii_lower r = true) /\
    exists no,
      accepts ascii_lower no = false /\
      stdin w = accepted ++ no :: stdin w' /\
      length accepted < length (violations files (py "install")) /\
      events w' =
      events w ++
      scope_inputs (py "install") (violations files (py "install"))
                   (accepted ++ [no]).
Proof.
  intros files w w'.
  apply (check_changes_verdict ascii_lower files (py "install") w w' false).
  vm_compute. reflexivity.
Defined.

(** X9 at one file outside the directory with nothing typed. *)
Lemma check_changes_raises_witness :
  let w := typed [] in
  let w' := snd (check_changes_in_dag_only ascii_lower [py "README.md"]
                   (py "install") w) in
  EOFError = EOFError /\
  stdin w' = [] /\
  (forall r, In r (stdin w) -> accepts ascii_lower r = true) /\
  exists f,
    nth_error (violations [py "README.md"] (py "install"))
              (length (stdin w)) = Some f /\
    events w' =
    events w ++
    scope_inputs (py "install") (violations [py "README.md"] (py "install"))
                 (stdin w) ++
    [Input (scope_question f (py "install")) None].
Proof.
  intros w w'.
  apply (check_changes_raises ascii_lower [py "README.md"] (py "install")
           w w' EOFError).
  vm_compute. reflexivity.
Defined.

(** X11 at surroundings with nothing on disk. *)
Lemma missing_manifest_stops_first_witness :
  let out := run bare [] in
  fst out = Raise (AssertionError (py "Deploy file not found")) /\
  events (snd out) =
  [Log INFO (LogArgs args42); IsFile (deploy_path args42) false].
Proof.
  intros out.
  apply (missing_manifest_stops_first ascii_decimal ascii_lower bare args42
           (typed []) (snd out) (fst out) (events (snd out))
           (deploy_path args42) (surjective_pairing _) eq_refl).
  among.
Defined.

(** X12 at a deploy branch that is there already. *)
Lemma backend_failure_ends_run_witness :
  let out := run branch_taken [] in
  fst out = Raise OSError /\
  exists before,
    events (snd out) =
    before ++ [Git (GitCreateHead (deploy_branch args42)) false].
Proof.
  intros out.
  apply (backend_failure_ends_run ascii_decimal ascii_lower branch_taken
           args42 (typed []) (snd out) (fst out) (events (snd out))
           (GitCreateHead (deploy_branch args42))
           (surjective_pairing _) eq_refl).
  - among.
  - reflexivity.
Defined.

(** X13 at a run that goes through. *)
Lemma deployed_hash_provenance_witness :
  let env := calm [chore; commit42] [py "dags/install/dag.py"]
                  (Some manifest0) in
  let data' :=
    JObject [(py "version",
              JObject [(py "dags",
                        JObject [(py "install", JString (py "def456"))])])] in
  exists c,
    In c (last_10_commits env) /\
    check_commit ascii_decimal (summary c) (pr_id args42) = true /\
    (author c = pr_author args42 \/
     exists line,
       In (Input (author_question c (pr_author args42)) (Some line))
          (events (snd full_run)) /\
       accepts ascii_lower line = true) /\
    In (Git (GitStats (hexsha c)) true) (events (snd full_run)) /\
    lookup_path [py "version"; py "dags"; pr_dag_name args42] data' =
      Some (JString (hexsha c)) /\
    (forall subject body returned,
        In (Git (GitCommit subject body) returned) (events (snd full_run)) ->
        body = commit_body args42 (hexsha c)).
Proof.
  intros env data'.
  apply (deployed_hash_provenance ascii_decimal ascii_lower env args42
           (typed []) (snd full_run) (fst full_run) (events (snd full_run))
           (deploy_path args42) data' (surjective_pairing _) eq_refl).
  among.
Defined.

(** X14 at a run that goes through. *)
Lemma push_follows_commit_witness :
  py "origin" = py "origin" /\
  deploy_branch args42 = deploy_branch args42 /\
  exists before commit_hash,
    events (snd full_run) =
    before ++
    [Git (GitAdd (deploy_path args42)) true;
     Git (GitCommit (commit_subject args42) (commit_body args42 commit_hash))
         true;
     Log INFO LogCommitted;
     Git (GitPush (py "origin") (deploy_branch args42)) true] ++
    [Log INFO (LogPushed (deploy_branch args42))] /\
    fst full_run = Ok tt.
Proof.
  apply (push_follows_commit ascii_decimal ascii_lower
           (calm [chore; commit42] [py "dags/install/dag.py"] (Some manifest0))
           args42 (typed []) (snd full_run) (fst full_run)
           (events (snd full_run)) (py "origin") (deploy_branch args42) true
           (surjective_pairing _) eq_refl).
  among.
Defined.

(** X15 at the same run. *)
Lemma main_returns_witness :
  (exists before file line,
      events (snd full_run) = before ++ [Log ERROR LogUserAborted] /\
      In (Input (scope_question file (pr_dag_name args42)) (Some line))
         before /\
      accepts ascii_lower line = false /\
      Forall (fun e => prelude_event e = true) before) \/
  (exists before,
      events (snd full_run) =
      before ++
      [Git (GitPush (py "origin") (deploy_branch args42)) true;
       Log INFO (LogPushed (deploy_branch args42))]).
Proof.
  apply (main_returns ascii_decimal ascii_lower
           (calm [chore; commit42] [py "dags/install/dag.py"] (Some manifest0))
           args42 (typed []) (snd full_run) (events (snd full_run))).
  - vm_compute. reflexivity.
  - reflexivity.
Defined.

(** X16 at a manifest that is gone when it is read. *)
Lemma vanished_manifest_witness :
  let out := run (calm [commit42] [py "dags/install/dag.py"] None) [] in
  fst out = Raise FileNotFoundError /\
  exists before,
    In (IsFile (deploy_path args42) true) before /\
    Forall (fun e => prelude_event e = true) before /\
    events (snd out) =
    before ++ branch_cut args42 ++ [ReadFile (deploy_path args42) None].
Proof.
  intros out.
  apply (vanished_manifest ascii_decimal ascii_lower
           (calm [commit42] [py "dags/install/dag.py"] None) args42
           (typed []) (snd out) (fst out) (events (snd out))
           (deploy_path args42) (surjective_pairing _) eq_refl).
  among.
Defined.

(** X21 at calm surroundings. *)
Lemma quiet_run_witness :
  let env := calm [chore; commit42] [py "dags/install/dag.py"]
                  (Some manifest0) in
  exists data',
    set_dag_version manifest0 (pr_dag_name args42) (hexsha commit42) =
      Ok data' /\
    main ascii_decimal ascii_lower env args42 (typed [py "unread"]) =
    (Ok tt,
     {| stdin := stdin (typed [py "unread"]);
        events :=
          events (typed [py "unread"]) ++ sync_events args42 ++
          [listing; Git (GitStats (hexsha commit42)) true] ++
          branch_cut args42 ++
          manifest_rewrite args42 (hexsha commit42) manifest0 data' ++
          [Git (GitAdd (deploy_path args42)) true;
           Git (GitCommit (commit_subject args42)
                          (commit_body args42 (hexsha commit42))) true;
           Log INFO LogCommitted;
           Git (GitPush (py "origin") (deploy_branch args42)) true;
           Log INFO (LogPushed (deploy_branch args42))] |}).
Proof.
  intros env.
  apply (quiet_run ascii_decimal ascii_lower env args42
           (typed [py "unread"]) commit42 [chore] [] manifest0
           [(py "install", JString (py "abc123"))]).
  - reflexivity.
  - reflexivity.
  - reflexivity.
  - reflexivity.
  - reflexivity.
  - intros x [<-|[]]. vm_compute. reflexivity.
  - vm_compute. reflexivity.
  - reflexivity.
  - intros f [<-|[]]. vm_compute. reflexivity.
Defined.

(** X22 at a commit of another author with nothing typed. *)
Lemma unanswered_question_ends_run_witness :
  let out := run (calm [commit42_bob] [py "dags/install/dag.py"]
                       (Some manifest0)) [] in
  fst out = Raise EOFError /\
  (exists before,
      events (snd out) =
      before ++ [Input (author_question commit42_bob (py "alice")) None]) /\
  Forall (fun e => prelude_event e = true) (events (snd out)).
Proof.
  intros out.
  apply (unanswered_question_ends_run ascii_decimal ascii_lower
           (calm [commit42_bob] [py "dags/install/dag.py"] (Some manifest0))
           args42 (typed []) (snd out) (fst out) (events (snd out))
           (author_question commit42_bob (py "alice"))
           (surjective_pairing _) eq_refl).
  among.
Defined.
